(** * DNS test toolkit: propagation checker and DNSSEC expiry test

    A shallow embedding of [scripts/check-propagation.js] (probe, fan-out,
    poll loop, command line) and of the RRSIG expiry test of the Playwright
    suite, with the properties stated for them.  Further modules embed the
    lines the checker prints for a report, [scripts/verify-dns.js] and other
    tests of the suite.  The embeddings come first, then the notions the
    statements use, then the proofs.

    Conventions of the embedding.
    - JavaScript strings are Rocq strings: sequences of code units below
      256.  Case mapping is the ASCII one; DNS record kinds, server names
      and the output of [dig] are ASCII text.
    - JavaScript numbers that are computed with ([propagated / total * 100],
      [Math.round]) are IEEE 754 binary64 values, Rocq's primitive floats.
      Numbers that only travel inside DNS answers (MX priorities and the
      like), array lengths, loop counters and time values in milliseconds
      are integers.
    - The network is an oracle: for each round and each probe slot it gives
      the settlement of the resolution call and the moment it arrives.  A
      failed resolution rejects with an error object, as Node's resolver
      does.  The addresses of the servers are well-formed IP literals, so
      [resolver.setServers] does not raise.
    - [console.log] output is presentation: a run of the checker keeps two
      marks that delimit a round in its event trace.  The lines of a report
      and the lines of [verify-dns.js] are embedded apart, as values, without
      their marks and colours.
    - [Object.prototype] is the built-in one, with nothing added to it. *)

From Stdlib Require Import ZArith Floats Uint63 Ascii String DecimalString Lia.
From Stdlib Require DecimalPos.
From stdpp Require Import base option list gmap strings sorting.

Set Warnings "-register-all".
Local Open Scope string_scope.

(** ** JavaScript values and the built-ins the scripts call *)

Module Js.

Inductive JsValue : Type :=
  | JUndefined
  | JNull
  | JBool (b : bool)
  | JNum (n : Z)
  | JStr (s : string)
  | JArr (items : list JsValue)
  | JObj (fields : list (string * JsValue)).

(** [typeof v === 'object'] : objects, arrays and [null]. *)
Definition typeof_object (v : JsValue) : bool :=
  match v with
  | JNull | JArr _ | JObj _ => true
  | _ => false
  end.

Definition Array_isArray (v : JsValue) : bool :=
  match v with
  | JArr _ => true
  | _ => false
  end.

(** ToBoolean. *)
Definition truthy (v : JsValue) : bool :=
  match v with
  | JUndefined | JNull => false
  | JBool b => b
  | JNum n => negb (n =? 0)%Z
  | JStr s => negb (String.eqb s "")
  | JArr _ | JObj _ => true
  end.

(** [a || b]. *)
Definition or_else (a b : JsValue) : JsValue := if truthy a then a else b.

(** Number::toString on an integral number. *)
Definition Number_toString (n : Z) : string :=
  NilZero.string_of_int (Z.to_int n).

(** ToString. *)
Fixpoint ToString (v : JsValue) : string :=
  match v with
  | JUndefined => "undefined"
  | JNull => "null"
  | JBool true => "true"
  | JBool false => "false"
  | JNum n => Number_toString n
  | JStr s => s
  | JArr items =>
      String.concat ","
        (List.map (fun e => match e with
                            | JUndefined | JNull => ""
                            | _ => ToString e
                            end) items)
  | JObj _ => "[object Object]"
  end.

(** Array.prototype.join: [undefined] and [null] elements contribute the
    empty string, every other element its ToString. *)
Definition join_element (e : JsValue) : string :=
  match e with
  | JUndefined | JNull => ""
  | _ => ToString e
  end.

Definition Array_join (sep : string) (items : list JsValue) : string :=
  String.concat sep (List.map join_element items).

(** QuoteJSONString. *)
Definition hex_digit (n : N) : ascii :=
  ascii_of_N (if (n <? 10)%N then 48 + n else 87 + n).

Definition dquote : ascii := ascii_of_N 34.

Definition quote_char (c : ascii) : string :=
  let n := N_of_ascii c in
  if (n =? 34)%N then String "\" (String dquote "")
  else if (n =? 92)%N then "\\"
  else if (n =? 8)%N then "\b"
  else if (n =? 12)%N then "\f"
  else if (n =? 10)%N then "\n"
  else if (n =? 13)%N then "\r"
  else if (n =? 9)%N then "\t"
  else if (n <? 32)%N then
    "\u00" ++ String (hex_digit (n / 16)) (String (hex_digit (n mod 16)) "")
  else String c "".

Fixpoint quote_body (s : string) : string :=
  match s with
  | EmptyString => ""
  | String c rest => quote_char c ++ quote_body rest
  end.

Definition QuoteJSONString (s : string) : string :=
  String dquote (quote_body s ++ String dquote "").

(** SerializeJSONProperty: [None] is JavaScript's [undefined] (the property
    is left out of an object and written [null] in an array). *)
Fixpoint SerializeJSONProperty (v : JsValue) : option string :=
  match v with
  | JUndefined => None
  | JNull => Some "null"
  | JBool true => Some "true"
  | JBool false => Some "false"
  | JNum n => Some (Number_toString n)
  | JStr s => Some (QuoteJSONString s)
  | JArr items =>
      Some ("[" ++ String.concat ","
                     (List.map (fun e => match SerializeJSONProperty e with
                                         | Some t => t
                                         | None => "null"
                                         end) items) ++ "]")
  | JObj fields =>
      Some ("{" ++ String.concat ","
                     (List.flat_map
                        (fun kv => match SerializeJSONProperty (snd kv) with
                                   | Some t => [QuoteJSONString (fst kv) ++ ":" ++ t]
                                   | None => []
                                   end) fields) ++ "}")
  end.

Definition JSON_stringify (v : JsValue) : JsValue :=
  match SerializeJSONProperty v with
  | Some t => JStr t
  | None => JUndefined
  end.

(** String.prototype.toUpperCase on ASCII text. *)
Definition upper_char (c : ascii) : ascii :=
  let n := N_of_ascii c in
  if ((97 <=? n) && (n <=? 122))%N then ascii_of_N (n - 32) else c.

Fixpoint toUpperCase (s : string) : string :=
  match s with
  | EmptyString => EmptyString
  | String c rest => String (upper_char c) (toUpperCase rest)
  end.

(** Numbers the script computes with: binary64. *)
Definition float_of_Z (z : Z) : float :=
  if (z <? 0)%Z then PrimFloat.opp (PrimFloat.of_uint63 (Uint63.of_Z (- z)))
  else PrimFloat.of_uint63 (Uint63.of_Z z).

Definition float_of_nat (n : nat) : float := float_of_Z (Z.of_nat n).

(** Math.round: the integer closest to [x], ties towards plus infinity;
    NaN, the infinities and the zeros are returned as they are, and a
    result of zero keeps the sign of [x]. *)
Definition Math_round (x : float) : float :=
  match Prim2SF x with
  | S754_finite s m e =>
      if (0 <=? e)%Z then x
      else
        let k := (- e)%Z in
        let n := ((2 * (if s then Z.neg m else Z.pos m) + 2 ^ k) / 2 ^ (k + 1))%Z in
        if (n =? 0)%Z then (if s then (-0)%float else 0%float)
        else float_of_Z n
  | _ => x
  end.

End Js.

(** ** scripts/check-propagation.js *)

Module Propagation.
Import Js.

Record Server := { name : string; ip : string }.

(** Public DNS servers to check propagation across different providers. *)
Definition DNS_SERVERS : list Server :=
  [ {| name := "Google"; ip := "8.8.8.8" |};
    {| name := "Google Secondary"; ip := "8.8.4.4" |};
    {| name := "Cloudflare"; ip := "1.1.1.1" |};
    {| name := "Cloudflare Secondary"; ip := "1.0.0.1" |};
    {| name := "OpenDNS"; ip := "208.67.222.222" |};
    {| name := "Quad9"; ip := "9.9.9.9" |} ].

(** The Resolver methods the table of [checkDNSServer] names. *)
Inductive ResolveMethod :=
  | resolve4 | resolve6 | resolveCname | resolveMx | resolveTxt | resolveNs.

#[global] Instance ResolveMethod_eq_dec : EqDecision ResolveMethod.
Proof. solve_decision. Defined.

(** The object literal of lines 21-28: its own properties. *)
Definition resolveMethod_table : gmap string ResolveMethod :=
  <["A" := resolve4]> (<["AAAA" := resolve6]> (<["CNAME" := resolveCname]>
  (<["MX" := resolveMx]> (<["TXT" := resolveTxt]> (<["NS" := resolveNs]> ∅))))).

(** An object literal inherits from [Object.prototype]; these are the
    properties a property read finds there. *)
Definition Object_prototype_keys : list string :=
  [ "constructor"; "hasOwnProperty"; "isPrototypeOf"; "propertyIsEnumerable";
    "toLocaleString"; "toString"; "valueOf"; "__proto__";
    "__defineGetter__"; "__defineSetter__"; "__lookupGetter__";
    "__lookupSetter__" ].

(** What [table[recordType]] evaluates to: an own property (a method name),
    an inherited member (a function, or the prototype object itself), or
    [undefined]. *)
Inductive Property :=
  | OwnMethod (m : ResolveMethod)
  | Inherited (key : string)
  | Undefined.

Definition table_get (recordType : string) : Property :=
  match resolveMethod_table !! recordType with
  | Some m => OwnMethod m
  | None =>
      if decide (recordType ∈ Object_prototype_keys) then Inherited recordType
      else Undefined
  end.

(** [table[recordType] || 'resolve4']: method names are non-empty strings
    and inherited members are objects, so only [undefined] is falsy. *)
Definition resolveMethod (recordType : string) : Property :=
  match table_get recordType with
  | Undefined => OwnMethod resolve4
  | p => p
  end.

Inductive JsException :=
  | TypeError (message : string).

(** The state of a promise, and of an [await] on it. *)
Inductive PromiseState (A : Type) :=
  | Fulfilled (a : A)
  | RejectedWith (e : JsException)
  | Pending.
Arguments Fulfilled {A} a.
Arguments RejectedWith {A} e.
Arguments Pending {A}.

(** [resolver[resolveMethod].bind(resolver)]: a method name selects the
    method; an inherited member used as a property key names no member of
    the resolver, and [undefined.bind] raises. *)
Definition bind_method (p : Property) : PromiseState ResolveMethod :=
  match p with
  | OwnMethod m => Fulfilled m
  | Inherited _ | Undefined =>
      RejectedWith (TypeError "Cannot read properties of undefined (reading 'bind')")
  end.

(** The error object a failed resolution rejects with. *)
Record JsError := { code : JsValue; message : JsValue }.

(** The resolution call as the network settles it. *)
Record Query := { q_ip : string; q_method : ResolveMethod; q_domain : string }.

Inductive Resolution :=
  | Resolved (result : JsValue)
  | Failure (error : JsError).

Record Reply := { answer : Resolution; latency : nat }.

(** One round of the network: the reply to the query of each probe slot. *)
Definition Network := nat -> Query -> Reply.

(** [{ server, success: true, value }] or [{ server, success: false, error }]. *)
Inductive ProbeOutcome :=
  | Success (server : string) (value : JsValue)
  | Fail (server : string) (error : JsValue).

Definition success (o : ProbeOutcome) : bool :=
  match o with
  | Success _ _ => true
  | Fail _ _ => false
  end.

Definition server (o : ProbeOutcome) : string :=
  match o with
  | Success s _ | Fail s _ => s
  end.

(** Lines 34-36. *)
Definition format_value (result : JsValue) : JsValue :=
  match result with
  | JArr items =>
      JStr (Array_join ", "
              (List.map (fun r => if typeof_object r then JSON_stringify r else r)
                 items))
  | _ => result
  end.

(** A promise: how it settles and when. *)
Record Promise (A : Type) := { settle : PromiseState A; settledAt : nat }.
Arguments settle {A} p.
Arguments settledAt {A} p.

Definition checkDNSServer (resolve : Query -> Reply)
    (domain recordType : string) (server : Server) : Promise ProbeOutcome :=
  match bind_method (resolveMethod recordType) with
  | Fulfilled m =>
      let reply := resolve {| q_ip := ip server; q_method := m; q_domain := domain |} in
      {| settle :=
           match answer reply with
           | Resolved result =>
               Fulfilled (Success (name server) (format_value result))
           | Failure error =>
               Fulfilled (Fail (name server) (or_else (code error) (message error)))
           end;
         settledAt := S (latency reply) |}
  | RejectedWith e => {| settle := RejectedWith e; settledAt := 0 |}
  | Pending => {| settle := Pending; settledAt := 0 |}
  end.

(** *** Promise.all

    The combinator keeps an array of result slots and a count of elements
    still to come.  A fulfilment stores its value in the slot of its own
    index and, when it was the last one, resolves the combined promise with
    the array; the first rejection rejects it.  Settlements are delivered in
    the order of their arrival: by time, and by index among equal times. *)

Record AllState (A : Type) := {
  values : list (option A);
  remaining : nat;
  capability : PromiseState (list A)
}.
Arguments values {A} _.
Arguments remaining {A} _.
Arguments capability {A} _.

(** A promise is settled once. *)
Definition settle_once {A} (cap new : PromiseState A) : PromiseState A :=
  match cap with
  | Pending => new
  | _ => cap
  end.

Definition collect {A} (slots : list (option A)) : list A := omap id slots.

Definition all_deliver {A} (promises : list (Promise A))
    (acc : AllState A) (i : nat) : AllState A :=
  match settle <$> promises !! i with
  | Some (Fulfilled x) =>
      let vals := <[i := Some x]> (values acc) in
      let rem := pred (remaining acc) in
      {| values := vals; remaining := rem;
         capability :=
           if decide (rem = 0)
           then settle_once (capability acc) (Fulfilled (collect vals))
           else capability acc |}
  | Some (RejectedWith e) =>
      {| values := values acc; remaining := remaining acc;
         capability := settle_once (capability acc) (RejectedWith e) |}
  | Some Pending | None => acc
  end.

Definition arrival {A} (promises : list (Promise A)) (i : nat) : nat :=
  default 0 (settledAt <$> promises !! i).

Definition arrives_first {A} (promises : list (Promise A)) (i j : nat) : Prop :=
  arrival promises i <= arrival promises j.

#[global] Instance arrives_first_dec {A} (promises : list (Promise A)) i j :
  Decision (arrives_first promises i j).
Proof. unfold arrives_first. apply _. Defined.

Definition settle_order {A} (promises : list (Promise A)) : list nat :=
  merge_sort (arrives_first promises) (seq 0 (length promises)).

Definition all_start {A} (promises : list (Promise A)) : AllState A :=
  {| values := replicate (length promises) None;
     remaining := length promises;
     capability := if decide (length promises = 0) then Fulfilled [] else Pending |}.

Definition Promise_all_in {A} (order : list nat) (promises : list (Promise A))
  : PromiseState (list A) :=
  capability (foldl (all_deliver promises) (all_start promises) order).

Definition Promise_all {A} (promises : list (Promise A)) : PromiseState (list A) :=
  Promise_all_in (settle_order promises) promises.

(** *** Effects: the rounds of the network and the event trace *)

Inductive Event :=
  | EvCheck (domain recordType : string)
      (** a fan-out begins: the header of lines 44-47 is printed *)
  | EvSummary (propagated total : nat) (percentage : float)
      (** a fan-out has its report: the summary of line 70 is printed *)
  | EvTimer (ms : Z)
      (** [setTimeout] of line 99 is armed and awaited *).

Record State := { rounds : nat; trace : list Event }.

Definition start : State := {| rounds := 0; trace := [] |}.

(** An [async] function: a state transformer that ends in a promise state. *)
Definition M (A : Type) : Type := State -> PromiseState A * State.

Definition ret {A} (a : A) : M A := fun st => (Fulfilled a, st).

Definition bind {A B} (m : M A) (k : A -> M B) : M B :=
  fun st =>
    match m st with
    | (Fulfilled a, st') => k a st'
    | (RejectedWith e, st') => (RejectedWith e, st')
    | (Pending, st') => (Pending, st')
    end.

Notation "x <~ m ;; k" := (bind m (fun x => k))
  (at level 100, m at next level, right associativity).

Definition emit (e : Event) : M unit :=
  fun st => (Fulfilled tt, {| rounds := rounds st; trace := trace st ++ [e] |}).

Definition await {A} (p : PromiseState A) : M A := fun st => (p, st).

Definition setTimeout (ms : Z) : M unit := emit (EvTimer ms).

Record Report := {
  propagated : nat;
  total : nat;
  percentage : float;
  results : list ProbeOutcome
}.

(** Line 68. *)
Definition percentage_of (propagated total : nat) : float :=
  Math_round (PrimFloat.mul
                (PrimFloat.div (float_of_nat propagated) (float_of_nat total))
                100%float).

Section Run.

(** The network of each successive fan-out. *)
Context (world : nat -> Network).

Definition next_network : M Network :=
  fun st => (Fulfilled (world (rounds st)),
             {| rounds := S (rounds st); trace := trace st |}).

(** [checkPropagation], with the module constant [DNS_SERVERS] as a
    parameter. *)
Definition checkPropagationOn (servers : list Server)
    (domain recordType : string) : M Report :=
  _ <~ emit (EvCheck domain recordType) ;;
  net <~ next_network ;;
  results <~ await (Promise_all
                      (imap (fun i server =>
                               checkDNSServer (net i) domain recordType server)
                         servers)) ;;
  let propagated := length (List.filter success results) in
  let total := length results in
  let percentage := percentage_of propagated total in
  _ <~ emit (EvSummary propagated total percentage) ;;
  ret {| propagated := propagated; total := total;
         percentage := percentage; results := results |}.

Definition checkPropagation (domain recordType : string) : M Report :=
  checkPropagationOn DNS_SERVERS domain recordType.

(** The loop of lines 87-101, from iteration [attempt] on.  [None] is the
    model running out of [fuel], which [monitorPropagation] never does. *)
Fixpoint monitor_from (fuel : nat) (domain recordType : string)
    (intervalSeconds maxAttempts attempt : Z) : M (option bool) :=
  match fuel with
  | O => ret None
  | S fuel' =>
      if (attempt <=? maxAttempts)%Z then
        report <~ checkPropagation domain recordType ;;
        if PrimFloat.eqb (percentage report) 100%float then ret (Some true)
        else
          _ <~ (if (attempt <? maxAttempts)%Z
                then setTimeout (intervalSeconds * 1000)
                else ret tt) ;;
          monitor_from fuel' domain recordType intervalSeconds maxAttempts
            (attempt + 1)
      else ret (Some false)
  end.

Definition monitorPropagation (domain recordType : string)
    (intervalSeconds maxAttempts : Z) : M (option bool) :=
  monitor_from (S (Z.to_nat maxAttempts)) domain recordType
    intervalSeconds maxAttempts 1.

(** Lines 108-111. *)
Definition arg_domain (args : list string) : string :=
  match args !! 0 with
  | Some d => if String.eqb d "" then "example.com" else d
  | None => "example.com"
  end.

Definition arg_recordType (args : list string) : string :=
  match args !! 1 with
  | Some t => if String.eqb (toUpperCase t) "" then "A" else toUpperCase t
  | None => "A"
  end.

Definition arg_monitor (args : list string) : bool :=
  bool_decide ("--monitor" ∈ args).

(** [main]; [args] is [process.argv.slice(2)].  The defaults of
    [monitorPropagation] are 30 seconds and 20 attempts. *)
Definition main (args : list string) : M (option unit) :=
  let domain := arg_domain args in
  let recordType := arg_recordType args in
  if arg_monitor args then
    r <~ monitorPropagation domain recordType 30 20 ;;
    ret ((fun _ => tt) <$> r)
  else
    _ <~ checkPropagation domain recordType ;;
    ret (Some tt).

End Run.

End Propagation.

(** ** The RRSIG expiry test of the Playwright suite *)

Module Dnssec.

(** *** The regular expression [/(\d{14})\s+(\d{14})\s+(\d+)\s+/]

    The expression looks at characters only through the classes [\d] and
    [\s].  After a run of digits or of white space the next item of the
    expression is of the other class, so giving back characters of a greedy
    run never helps: at a position the match is decided by the lengths of
    the maximal runs. *)

Inductive Kind := Digit | Space | Other.

#[global] Instance Kind_eq_dec : EqDecision Kind.
Proof. solve_decision. Defined.

(** [\d] is 0-9; [\s], among code units below 256, is tab, line feed,
    vertical tab, form feed, carriage return, space and no-break space. *)
Definition kind (c : ascii) : Kind :=
  let n := N_of_ascii c in
  if ((48 <=? n) && (n <=? 57))%N then Digit
  else if ((9 <=? n) && (n <=? 13) || (n =? 32) || (n =? 160))%N then Space
  else Other.

(** The length of the maximal run of class [k] at the front. *)
Fixpoint run (k : Kind) (l : list Kind) : nat :=
  match l with
  | c :: rest => if decide (c = k) then S (run k rest) else 0
  | [] => 0
  end.

(** The spans of a match. *)
Record Spans := {
  gap1 : nat;     (** white space between the first and the second group *)
  gap2 : nat;     (** white space between the second and the third group *)
  tagLength : nat (** length of the third group *)
}.

(** A match that begins at the front of [l]. *)
Definition match_here (l : list Kind) : option Spans :=
  let w1 := run Space (drop 14 l) in
  let r2 := drop (14 + w1) l in
  let w2 := run Space (drop 14 r2) in
  let r3 := drop (14 + w2) r2 in
  let n3 := run Digit r3 in
  let w3 := run Space (drop n3 r3) in
  if decide (run Digit l = 14 /\ 0 < w1 /\ run Digit r2 = 14 /\ 0 < w2 /\
             0 < n3 /\ 0 < w3)
  then Some {| gap1 := w1; gap2 := w2; tagLength := n3 |}
  else None.

(** The leftmost match: its index and spans. *)
Fixpoint exec_from (i : nat) (l : list Kind) : option (nat * Spans) :=
  match match_here l with
  | Some sp => Some (i, sp)
  | None =>
      match l with
      | [] => None
      | _ :: rest => exec_from (S i) rest
      end
  end.

(** The result of [String.prototype.match]: the three captures. *)
Record Match := {
  index : nat;
  spans : Spans;
  capture1 : list ascii;
  capture2 : list ascii;
  capture3 : list ascii
}.

Definition slice (from to : nat) (s : list ascii) : list ascii :=
  take (to - from) (drop from s).

Definition regex_match (text : list ascii) : option Match :=
  match exec_from 0 (kind <$> text) with
  | Some (i, sp) =>
      let i2 := i + 14 + gap1 sp in
      let i3 := i2 + 14 + gap2 sp in
      Some {| index := i; spans := sp;
              capture1 := slice i (i + 14) text;
              capture2 := slice i2 (i2 + 14) text;
              capture3 := slice i3 (i3 + tagLength sp) text |}
  | None => None
  end.

(** [String.prototype.includes]. *)
Fixpoint starts_with (needle s : list ascii) : bool :=
  match needle, s with
  | [], _ => true
  | _ :: _, [] => false
  | a :: needle', b :: s' => bool_decide (a = b) && starts_with needle' s'
  end.

Fixpoint includes (needle s : list ascii) : bool :=
  starts_with needle s
  || match s with
     | [] => false
     | _ :: rest => includes needle rest
     end.

(** [parseInt] on a string of decimal digits. *)
Definition digit_value (c : ascii) : Z := Z.of_N (N_of_ascii c) - 48.

Definition parseInt (s : list ascii) : Z :=
  foldl (fun acc c => 10 * acc + digit_value c)%Z 0%Z s.

(** *** Dates, after ECMAScript *)

Definition msPerDay : Z := 86400000.

Definition DayFromYear (y : Z) : Z :=
  365 * (y - 1970) + (y - 1969) / 4 - (y - 1901) / 100 + (y - 1601) / 400.

Definition InLeapYear (y : Z) : bool :=
  ((y mod 4 =? 0) && negb (y mod 100 =? 0) || (y mod 400 =? 0))%Z.

(** Days before the first of month [m] (0 is January) in a common year. *)
Definition days_before_month (m : Z) : Z :=
  nth (Z.to_nat m) [0; 31; 59; 90; 120; 151; 181; 212; 243; 273; 304; 334]%Z 0%Z.

Definition MakeDay (year month date : Z) : Z :=
  let ym := (year + month / 12)%Z in
  let mn := (month mod 12)%Z in
  (DayFromYear ym + days_before_month mn
   + (if InLeapYear ym && (2 <=? mn)%Z then 1 else 0) + date - 1)%Z.

Definition MakeTime (hour min sec ms : Z) : Z :=
  (hour * 3600000 + min * 60000 + sec * 1000 + ms)%Z.

Definition MakeDate (day time : Z) : Z := (day * msPerDay + time)%Z.

(** [NaN] is [None]. *)
Definition TimeClip (t : Z) : option Z :=
  if (Z.abs t <=? 8640000000000000)%Z then Some t else None.

Section Host.

(** The host's time zone: the offset of local time from UTC, in
    milliseconds, at a local time value. *)
Context (LocalTZA : Z -> Z).

(** [new Date(year, month, date, hours, minutes, seconds).getTime()]: the
    fields are read as local time. *)
Definition Date_getTime (year month date hours minutes seconds : Z) : option Z :=
  let yr := if ((0 <=? year) && (year <=? 99))%Z then (1900 + year)%Z else year in
  let t := MakeDate (MakeDay yr month date) (MakeTime hours minutes seconds 0) in
  TimeClip (t - LocalTZA t).

(** Lines 326-333. *)
Definition expDate (expiration : list ascii) : option Z :=
  Date_getTime
    (parseInt (slice 0 4 expiration))
    (parseInt (slice 4 6 expiration) - 1)
    (parseInt (slice 6 8 expiration))
    (parseInt (slice 8 10 expiration))
    (parseInt (slice 10 12 expiration))
    (parseInt (slice 12 14 expiration)).

Inductive TestResult := Passed | Failed | Skipped.

(** [expect(received).toBeGreaterThan(expected)]. *)
Definition toBeGreaterThan (received : option Z) (expected : Z) : bool :=
  match received with
  | Some t => (expected <? t)%Z
  | None => false
  end.

(** The test [DNSSEC signatures are valid (not expired)], lines 310-342:
    [rrsigOutput] is what [dig] printed for the SOA query, [now] the time
    value of [new Date()]. *)
Definition signatures_valid_test (TEST_DOMAIN rrsigOutput : string) (now : Z)
  : TestResult :=
  if String.eqb TEST_DOMAIN "example.com" then Skipped
  else
    let text := list_ascii_of_string rrsigOutput in
    if negb (includes (list_ascii_of_string "RRSIG") text) then Skipped
    else
      match regex_match text with
      | Some expirationMatch =>
          let expiration := capture1 expirationMatch in
          if toBeGreaterThan (expDate expiration) now then Passed else Failed
      | None => Passed
      end.

End Host.

End Dnssec.

(** ** More built-ins on text *)

Module JsText.
Import Js.

Fixpoint spaces (n : nat) : string :=
  match n with
  | O => ""
  | S n' => String " " (spaces n')
  end.

(** [String.prototype.padEnd(targetLength)], the filler being a space: a
    string that is long enough is returned as it is. *)
Definition padEnd (s : string) (targetLength : nat) : string :=
  s ++ spaces (targetLength - String.length s).

(** [Math.max(...values)] on lengths: [None] is [-Infinity], the maximum of
    no value at all. *)
Definition Math_max (values : list nat) : option nat :=
  match values with
  | [] => None
  | _ => Some (max_list values)
  end.

(** White space and line terminators among the code units below 256: what
    [trim] strips and what [parseInt] skips. *)
Definition is_space (c : ascii) : bool :=
  let n := N_of_ascii c in
  ((9 <=? n) && (n <=? 13) || (n =? 32) || (n =? 160))%N.

Fixpoint trimStart (s : string) : string :=
  match s with
  | EmptyString => EmptyString
  | String c rest => if is_space c then trimStart rest else s
  end.

Fixpoint trimEnd (s : string) : string :=
  match s with
  | EmptyString => EmptyString
  | String c rest =>
      let r := trimEnd rest in
      if is_space c && String.eqb r "" then EmptyString else String c r
  end.

(** String.prototype.trim. *)
Definition trim (s : string) : string := trimEnd (trimStart s).

(** String.prototype.split with a separator of one character. *)
Fixpoint split (sep : ascii) (s : string) : list string :=
  match s with
  | EmptyString => [EmptyString]
  | String c rest =>
      if Ascii.eqb c sep then EmptyString :: split sep rest
      else match split sep rest with
           | part :: parts => String c part :: parts
           | [] => [String c EmptyString]
           end
  end.

(** The value of a digit in a radix, if it is one. *)
Definition digit_of (radix : Z) (c : ascii) : option Z :=
  let n := Z.of_N (N_of_ascii c) in
  let v := if ((48 <=? n) && (n <=? 57))%Z then Some (n - 48)%Z
           else if ((97 <=? n) && (n <=? 122))%Z then Some (n - 87)%Z
           else if ((65 <=? n) && (n <=? 90))%Z then Some (n - 55)%Z
           else None in
  match v with
  | Some d => if (d <? radix)%Z then Some d else None
  | None => None
  end.

(** The longest prefix of digits, read in the radix; [acc] is the value
    read so far, [None] when no digit has been read. *)
Fixpoint digits_value (radix : Z) (acc : option Z) (s : string) : option Z :=
  match s with
  | EmptyString => acc
  | String c rest =>
      match digit_of radix c with
      | Some d => digits_value radix (Some (radix * default 0%Z acc + d)%Z) rest
      | None => acc
      end
  end.

(** [parseInt(string)], no radix given.  [None] is [NaN].  The result is the
    mathematical value of the digits: the number the program gets is its
    binary64 rounding, which equality with an integer below 2^53 cannot
    tell apart, and a negative zero is zero. *)
Definition parseInt (s : string) : option Z :=
  let s1 := trimStart s in
  let '(sign, s2) :=
    match s1 with
    | String "-" rest => ((-1)%Z, rest)
    | String "+" rest => (1%Z, rest)
    | _ => (1%Z, s1)
    end in
  let '(radix, s3) :=
    match s2 with
    | String "0" (String "x" rest) | String "0" (String "X" rest) => (16%Z, rest)
    | _ => (10%Z, s2)
    end in
  (fun v => sign * v)%Z <$> digits_value radix None s3.

End JsText.

(** ** The lines [checkPropagation] prints for a report *)

Module Presentation.
Import Js JsText Propagation.

(** Line 53. *)
Definition maxNameLength (servers : list Server) : option nat :=
  Math_max (List.map (fun s => String.length (name s)) servers).

(** [result.server.padEnd(maxNameLength + 2)]; a target length of
    [-Infinity] appends nothing. *)
Definition name_column (width : option nat) (server : string) : string :=
  match width with
  | Some w => padEnd server (w + 2)
  | None => server
  end.

(** A line of lines 57-61: the mark (a check mark in green, or a cross in
    red), the padded name, and the value or the error as the template
    literal converts it. *)
Record Line := { ok : bool; column : string; detail : string }.

Definition result_line (width : option nat) (result : ProbeOutcome) : Line :=
  match result with
  | Success s value =>
      {| ok := true; column := name_column width s; detail := ToString value |}
  | Fail s error =>
      {| ok := false; column := name_column width s; detail := ToString error |}
  end.

(** Lines 53-62, with [DNS_SERVERS] as a parameter. *)
Definition result_lines (servers : list Server) (results : list ProbeOutcome)
  : list Line :=
  List.map (result_line (maxNameLength servers)) results.

(** The closing message of lines 72-78. *)
Inductive Advice :=
  | FullyPropagated       (** DNS fully propagated! *)
  | PartiallyPropagated   (** DNS partially propagated. Wait a few minutes... *)
  | NotYetPropagated      (** DNS not yet propagated. This may take up to 48 hours. *).

#[global] Instance Advice_eq_dec : EqDecision Advice.
Proof. solve_decision. Defined.

Definition advice (percentage : float) : Advice :=
  if PrimFloat.eqb percentage 100%float then FullyPropagated
  else if PrimFloat.leb 50%float percentage then PartiallyPropagated
  else NotYetPropagated.

End Presentation.

(** ** scripts/verify-dns.js *)

Module VerifyDns.
Import Js JsText.

(** The promisified functions of lines 133-139: lookups through the
    resolver of the system. *)
Inductive Resolver :=
  | resolve4 | resolve6 | resolveCname | resolveMx | resolveTxt | resolveNs
  | resolveSoa.

#[global] Instance Resolver_eq_dec : EqDecision Resolver.
Proof. solve_decision. Defined.

Record Lookup := { l_resolver : Resolver; l_domain : string }.

(** The system resolver: how a lookup settles, given the number of lookups
    made before it. *)
Definition Dns := nat -> Lookup -> Propagation.Resolution.

(** What the script prints, line by line; marks and colours are left out. *)
Inductive Line :=
  | LineFound (prefix value : string)   (** prefix, a check mark, the value *)
  | LineNoRecord (prefix : string)      (** prefix, [- No record found] *)
  | LineError (prefix message : string) (** prefix, a cross, the message *)
  | LineTitle (domain : string)         (** [DNS Verification for: domain] *)
  | LineRule                            (** fifty dashes *)
  | LineResults (successful total : nat)
  | LineSubdomains                      (** [Subdomain Verification:] *)
  | LineSubdomain (fullDomain : string)
  | LineUsage
  | LineExample.

Record State := { lookups : list Lookup; console : list Line }.

Definition start : State := {| lookups := []; console := [] |}.

(** The [async] functions of this script catch what their lookups reject
    with: they are state transformers that return. *)
Definition V (A : Type) : Type := State -> A * State.

Definition ret {A} (a : A) : V A := fun st => (a, st).

Definition bind {A B} (m : V A) (k : A -> V B) : V B :=
  fun st => let (a, st') := m st in k a st'.

Notation "x <-- m ;; k" := (bind m (fun x => k))
  (at level 100, m at next level, right associativity).

Definition console_log (line : Line) : V unit :=
  fun st => (tt, {| lookups := lookups st; console := console st ++ [line] |}).

(** [{ type, success: true, value }] or [{ type, success: false, error }]. *)
Inductive RecordResult :=
  | Found (type : string) (value : JsValue)
  | NotFound (type : string) (error : JsValue).

Definition success (r : RecordResult) : bool :=
  match r with
  | Found _ _ => true
  | NotFound _ _ => false
  end.

Definition type (r : RecordResult) : string :=
  match r with
  | Found t _ | NotFound t _ => t
  end.

(** [error.code === 'ENODATA' || error.code === 'ENOTFOUND']. *)
Definition no_record (error : Propagation.JsError) : bool :=
  match Propagation.code error with
  | JStr c => String.eqb c "ENODATA" || String.eqb c "ENOTFOUND"
  | _ => false
  end.

Section Script.
Context (dns : Dns).

(** [await resolver(domain)]. *)
Definition resolve (resolver : Resolver) (domain : string)
  : V Propagation.Resolution :=
  fun st =>
    let lookup := {| l_resolver := resolver; l_domain := domain |} in
    (dns (length (lookups st)) lookup,
     {| lookups := lookups st ++ [lookup]; console := console st |}).

(** Lines 154-171. *)
Definition checkRecord (type : string) (resolver : Resolver) (domain : string)
  : V RecordResult :=
  let prefix := "  " ++ padEnd type 6 in
  settled <-- resolve resolver domain ;;
  match settled with
  | Propagation.Resolved result =>
      let value :=
        match result with
        | JArr items =>
            JStr (Array_join ", "
                    (List.map (fun r => if typeof_object r then JSON_stringify r else r)
                       items))
        | _ => result
        end in
      _ <-- console_log (LineFound prefix (ToString value)) ;;
      ret (Found type result)
  | Propagation.Failure error =>
      if no_record error then
        _ <-- console_log (LineNoRecord prefix) ;;
        ret (NotFound type (JStr "No record"))
      else
        _ <-- console_log (LineError prefix (ToString (Propagation.message error))) ;;
        ret (NotFound type (Propagation.message error))
  end.

(** Lines 173-208. *)
Definition verifyDNS (domain : string) : V (list RecordResult) :=
  _ <-- console_log (LineTitle domain) ;;
  _ <-- console_log LineRule ;;
  a <-- checkRecord "A" resolve4 domain ;;
  aaaa <-- checkRecord "AAAA" resolve6 domain ;;
  cname <-- checkRecord "CNAME" resolveCname domain ;;
  mx <-- checkRecord "MX" resolveMx domain ;;
  txt <-- checkRecord "TXT" resolveTxt domain ;;
  ns <-- checkRecord "NS" resolveNs domain ;;
  soa <-- checkRecord "SOA" resolveSoa domain ;;
  let results := [a; aaaa; cname; mx; txt; ns; soa] in
  _ <-- console_log LineRule ;;
  let successful := length (List.filter success results) in
  let total := length results in
  _ <-- console_log (LineResults successful total) ;;
  ret results.

(** The loop of lines 213-218. *)
Fixpoint for_subdomains (domain : string) (subdomains : list string) : V unit :=
  match subdomains with
  | [] => ret tt
  | sub :: rest =>
      let fullDomain := sub ++ "." ++ domain in
      _ <-- console_log (LineSubdomain fullDomain) ;;
      _ <-- checkRecord "A" resolve4 fullDomain ;;
      _ <-- checkRecord "CNAME" resolveCname fullDomain ;;
      for_subdomains domain rest
  end.

Definition verifySubdomains (domain : string) (subdomains : list string) : V unit :=
  _ <-- console_log LineSubdomains ;;
  for_subdomains domain subdomains.

(** The default of the second parameter of [verifySubdomains]. *)
Definition default_subdomains : list string := ["www"; "mail"; "api"].

(** [CONFIG.domain]: [process.argv[2] || 'example.com']. *)
Definition CONFIG_domain (argv : list string) : string :=
  match argv !! 2 with
  | Some d => if String.eqb d "" then "example.com" else d
  | None => "example.com"
  end.

(** Lines 221-234; [argv] is [process.argv]. *)
Definition main (argv : list string) : V unit :=
  let domain := CONFIG_domain argv in
  _ <-- (if String.eqb domain "example.com"
         then _ <-- console_log LineUsage ;; console_log LineExample
         else ret tt) ;;
  _ <-- verifyDNS domain ;;
  if bool_decide ("--subdomains" ∈ argv)
  then verifySubdomains domain default_subdomains
  else ret tt.

End Script.

End VerifyDns.

(** ** Other tests of the Playwright suite *)

Module Suite.
Import Js Dnssec JsText.

(** Lines 14-23. *)
Definition DNSSEC_ALGORITHMS : list (Z * string) :=
  [ (5, "RSA/SHA-1"); (7, "RSASHA1-NSEC3-SHA1"); (8, "RSA/SHA-256");
    (10, "RSA/SHA-512"); (13, "ECDSA/P-256/SHA-256"); (14, "ECDSA/P-384/SHA-384");
    (15, "Ed25519"); (16, "Ed448") ]%Z.

(** What [exec] hands to its callback: an error, or the text [dig] wrote. *)
Inductive Exec :=
  | Stdout (text : string)
  | ExecError.

(** [queryDNSSEC] and [queryDNSSECFull], lines 26-44: the promise resolves
    with the trimmed text, or rejects ([None]). *)
Definition queryDNSSEC (dig : Exec) : option string :=
  match dig with
  | Stdout text => Some (trim text)
  | ExecError => None
  end.

Definition queryDNSSECFull (dig : Exec) : option string := queryDNSSEC dig.

(** [!text]. *)
Definition is_empty (text : string) : bool := String.eqb text "".

(** [expect(text.length).toBeGreaterThan(0)]. *)
Definition length_positive (text : string) : bool := (0 <? String.length text)%nat.

(** [text.includes('RRSIG')], which is also [expect(text).toContain('RRSIG')]. *)
Definition includes_RRSIG (text : string) : bool :=
  includes (list_ascii_of_string "RRSIG") (list_ascii_of_string text).

(** The test [DNSKEY record exists], lines 246-257.  A rejected query
    fails the test. *)
Definition dnskey_exists_test (TEST_DOMAIN : string) (dig_DNSKEY : Exec) : TestResult :=
  if String.eqb TEST_DOMAIN "example.com" then Skipped
  else
    match queryDNSSEC dig_DNSKEY with
    | None => Failed
    | Some dnskey =>
        if is_empty dnskey then Skipped
        else if length_positive dnskey then Passed else Failed
    end.

(** [expect(values).toContain(received)] and [expect(received).toBe(expected)]
    on numbers. *)
Definition toContain (values : list Z) (received : option Z) : bool :=
  match received with
  | Some v => bool_decide (v ∈ values)
  | None => false
  end.

Definition toBe (received : option Z) (expected : Z) : bool :=
  bool_decide (received = Some expected).

(** The checks on one line of the answer, lines 272-286: [true] when no
    [expect] throws.  [Object.keys(DNSSEC_ALGORITHMS).map(Number)] are the
    keys of the table. *)
Definition key_line_checks (line : string) : bool :=
  let parts := split " " line in
  if (3 <=? length parts)%nat then
    let flags := parseInt (default "" (parts !! 0%nat)) in
    let protocol := parseInt (default "" (parts !! 1%nat)) in
    let algorithm := parseInt (default "" (parts !! 2%nat)) in
    toContain [256; 257]%Z flags
    && toBe protocol 3
    && toContain (fst <$> DNSSEC_ALGORITHMS) algorithm
  else true.

(** The loop of lines 271-288: it ends at the first [expect] that throws. *)
Fixpoint key_lines (lines : list string) : TestResult :=
  match lines with
  | [] => Passed
  | line :: rest => if key_line_checks line then key_lines rest else Failed
  end.

(** The test [DNSKEY has valid algorithm], lines 259-289. *)
Definition dnskey_algorithm_test (TEST_DOMAIN : string) (dig_DNSKEY : Exec)
  : TestResult :=
  if String.eqb TEST_DOMAIN "example.com" then Skipped
  else
    match queryDNSSEC dig_DNSKEY with
    | None => Failed
    | Some dnskey =>
        if is_empty dnskey then Skipped
        else key_lines (split "010" dnskey)
    end.

(** The test [RRSIG signatures are present], lines 291-308. *)
Definition rrsig_present_test (TEST_DOMAIN : string) (dig_A dig_SOA : Exec)
  : TestResult :=
  if String.eqb TEST_DOMAIN "example.com" then Skipped
  else
    match queryDNSSECFull dig_A with
    | None => Failed
    | Some rrsigOutput =>
        if negb (includes_RRSIG rrsigOutput) then
          match queryDNSSECFull dig_SOA with
          | None => Failed
          | Some soaOutput =>
              if negb (includes_RRSIG soaOutput) then Skipped
              else if includes_RRSIG soaOutput then Passed else Failed
          end
        else if includes_RRSIG rrsigOutput then Passed else Failed
    end.

(** The test [DNSSEC chain of trust (DS record at parent)], lines 344-378;
    what it prints about the fields of the record is left out. *)
Definition ds_record_test (TEST_DOMAIN : string) (dig_DS dig_DNSKEY : Exec)
  : TestResult :=
  if String.eqb TEST_DOMAIN "example.com" then Skipped
  else
    match queryDNSSEC dig_DS with
    | None => Failed
    | Some dsOutput =>
        if is_empty dsOutput then
          match queryDNSSEC dig_DNSKEY with
          | None => Failed
          | Some dnskeyOutput => Skipped
          end
        else if length_positive dsOutput then Passed else Failed
    end.

(** *** The expression [/^(\d{1,3}\.){3}\d{1,3}$/]

    After the digits of a group the expression asks for a dot, or for the
    end of the text, and neither is a digit: a group can only be the whole
    run of digits at its place, which has to be of one to three. *)

Definition is_decimal (c : ascii) : bool :=
  let n := N_of_ascii c in ((48 <=? n) && (n <=? 57))%N.

Fixpoint digit_run (s : string) : nat :=
  match s with
  | EmptyString => 0
  | String c rest => if is_decimal c then S (digit_run rest) else 0
  end.

Fixpoint skip (n : nat) (s : string) : string :=
  match n, s with
  | S n', String _ rest => skip n' rest
  | _, _ => s
  end.

(** [\d{1,3}\.] at the front: what is left after it. *)
Definition group_dot (s : string) : option string :=
  let r := digit_run s in
  if ((1 <=? r) && (r <=? 3))%nat then
    match skip r s with
    | String "." rest => Some rest
    | _ => None
    end
  else None.

(** [\d{1,3}$] at the front. *)
Definition group_end (s : string) : bool :=
  let r := digit_run s in
  ((1 <=? r) && (r <=? 3))%nat && String.eqb (skip r s) "".

(** [(\d{1,3}\.){n}] at the front. *)
Fixpoint groups (n : nat) (s : string) : option string :=
  match n with
  | O => Some s
  | S n' =>
      match group_dot s with
      | Some rest => groups n' rest
      | None => None
      end
  end.

(** [ipv4Regex.test(ip)]: the expression is anchored at both ends. *)
Definition ipv4Regex_test (ip : string) : bool :=
  match groups 3 ip with
  | Some rest => group_end rest
  | None => false
  end.

(** The loop of lines 171-173. *)
Fixpoint addresses_match (addresses : list string) : TestResult :=
  match addresses with
  | [] => Passed
  | ip :: rest => if ipv4Regex_test ip then addresses_match rest else Failed
  end.

(** How [resolve4] settles: with the addresses, or with an error. *)
Inductive Resolve4 :=
  | Addresses (addresses : list string)
  | Rejected (error : Propagation.JsError).

(** The test [A record returns valid IPv4 format], lines 166-180: a failed
    [expect] is caught too, has no [code] and is thrown again. *)
Definition a_record_format_test (settled : Resolve4) : TestResult :=
  match settled with
  | Addresses addresses => addresses_match addresses
  | Rejected error =>
      if VerifyDns.no_record error then Skipped else Failed
  end.

End Suite.

(** ** Notions used to state the properties of the propagation checker *)

Module PropagationSpec.
Import Js Propagation.
Local Open Scope list_scope.

Section Slots.
Context {A : Type}.
Implicit Types (vs : list A) (D : list nat).

(** The slots once the promises with index in [D] have been fulfilled. *)
Definition slots vs D : list (option A) :=
  imap (fun i v => if decide (i ∈ D) then Some v else None) vs.

Definition delivered vs D : AllState A :=
  {| values := slots vs D;
     remaining := length vs - length D;
     capability :=
       if decide (length D = length vs) then Fulfilled vs else Pending |}.

End Slots.

(** The outcome the [try]/[catch] of lines 32-40 builds from a settled
    resolution call. *)
Definition probe_outcome (s : Server) (a : Resolution) : ProbeOutcome :=
  match a with
  | Resolved result => Success (name s) (format_value result)
  | Failure error => Fail (name s) (or_else (code error) (message error))
  end.

Definition query_of (domain : string) (m : ResolveMethod) (s : Server) : Query :=
  {| q_ip := ip s; q_method := m; q_domain := domain |}.

(** The outcomes of one round, target by target. *)
Definition round_results (net : Network) (servers : list Server)
    (domain : string) (m : ResolveMethod) : list ProbeOutcome :=
  imap (fun i s => probe_outcome s (answer (net i (query_of domain m s)))) servers.

Definition report_of (outcomes : list ProbeOutcome) : Report :=
  {| propagated := length (List.filter success outcomes);
     total := length outcomes;
     percentage :=
       percentage_of (length (List.filter success outcomes)) (length outcomes);
     results := outcomes |}.

Definition bind_error : JsException :=
  TypeError "Cannot read properties of undefined (reading 'bind')".

(** Following the spec's words: [round(100 * successCount / totalCount)],
    the integer nearest to the exact quotient, a half rounding up. *)
Definition spec_round (successCount totalCount : nat) : Z :=
  (200 * Z.of_nat successCount + Z.of_nat totalCount) / (2 * Z.of_nat totalCount).

(** [0 <= x && x <= 100], as JavaScript compares numbers. *)
Definition in_range (x : float) : bool :=
  PrimFloat.leb 0%float x && PrimFloat.leb x 100%float.

(** The pairs (successes, targets) of a fan-out over at most [n] targets. *)
Definition pairs_upto (n : nat) : list (nat * nat) :=
  t ← seq 1 n; p ← seq 0 (S t); [(p, t)].

(** Line 68 computes the exact rounding for the pair. *)
Definition exact_at (pt : nat * nat) : Prop :=
  percentage_of pt.1 pt.2 = float_of_Z (spec_round pt.1 pt.2).

Definition range_checked (n : nat) : bool :=
  forallb (fun pt : nat * nat => in_range (percentage_of pt.1 pt.2)) (pairs_upto n).

Definition at_round (k : nat) : State := {| rounds := k; trace := [] |}.

Definition is_full (x : float) : bool := PrimFloat.eqb x 100%float.
Definition is_below (x : float) : bool := PrimFloat.ltb x 100%float.

Definition is_check (e : Event) : bool :=
  match e with EvCheck _ _ => true | _ => false end.
Definition is_timer (e : Event) : bool :=
  match e with EvTimer _ => true | _ => false end.

(** The fan-outs begun and the timers armed in a trace. *)
Definition fanouts (tr : list Event) : nat := length (List.filter is_check tr).
Definition waits (tr : list Event) : nat := length (List.filter is_timer tr).

Definition timer_of (ms : Z) (e : Event) : Prop :=
  is_timer e = true -> e = EvTimer ms.

Section Rounds.
Context (world : nat -> Network) (domain recordType : string).
Context (intervalSeconds : Z).

(** The [k]-th fan-out of the world, run on its own. *)
Definition round_run (k : nat) : PromiseState Report * State :=
  checkPropagation world domain recordType (at_round k).

Definition round_trace (k : nat) : list Event := trace (round_run k).2.

(** Round [k] returns a report whose percentage satisfies [P]. *)
Definition reports (P : float -> bool) (k : nat) : bool :=
  match (round_run k).1 with
  | Fulfilled rep => P (percentage rep)
  | _ => false
  end.

(** The loop is left in round [k]: the report says 100, or there is none. *)
Definition stops (k : nat) : bool :=
  match (round_run k).1 with
  | Fulfilled rep => is_full (percentage rep)
  | _ => true
  end.

(** The offset of the first round that stops the loop, among the [n]
    rounds from [k] on. *)
Fixpoint first_stop (k n : nat) : option nat :=
  match n with
  | O => None
  | S n' => if stops k then Some 0 else S <$> first_stop (S k) n'
  end.

Definition rounds_used (k n : nat) : nat :=
  match first_stop k n with
  | Some j => S j
  | None => n
  end.

Definition loop_result (k n : nat) : PromiseState (option bool) :=
  match first_stop k n with
  | Some j =>
      match (round_run (k + j)).1 with
      | Fulfilled _ => Fulfilled (Some true)
      | RejectedWith e => RejectedWith e
      | Pending => Pending
      end
  | None => Fulfilled (Some false)
  end.

(** The events of [n] consecutive rounds from [k] on, with one timer
    between each round and the next. *)
Fixpoint rounds_trace (k n : nat) : list Event :=
  match n with
  | O => []
  | S n' =>
      round_trace k ++
      match n' with
      | O => []
      | S _ => EvTimer (intervalSeconds * 1000) :: rounds_trace (S k) n'
      end
  end.

End Rounds.

(** An MX entry as the resolver returns it. *)
Definition mx_entry (exchange : string) (priority : Z) : JsValue :=
  JObj [("exchange", JStr exchange); ("priority", JNum priority)].

(** *** JSON text, after RFC 8259 and the choices of [JSON.stringify] *)

(** The quotation mark, as a text. *)
Definition quote_mark : string := String "034" "".

(** The characters with an escape of their own. *)
Definition json_escapes : list (ascii * string) :=
  [ ("008"%char, "\b"); ("009"%char, "\t"); ("010"%char, "\n");
    ("012"%char, "\f"); ("013"%char, "\r");
    ("034"%char, ("\" ++ quote_mark)%string); ("092"%char, "\\") ].

Definition hex_digits : list ascii := list_ascii_of_string "0123456789abcdef".

Definition hex_text (n : nat) : string :=
  match hex_digits !! n with
  | Some c => String c ""
  | None => ""
  end.

(** A character inside a JSON string: its escape if it has one, [\u00XX]
    for another control character, itself otherwise. *)
Definition json_char (c : ascii) : string :=
  match List.find (fun e => Ascii.eqb e.1 c) json_escapes with
  | Some e => e.2
  | None =>
      let n := nat_of_ascii c in
      if (n <? 32)%nat
      then ("\u00" ++ hex_text (n / 16) ++ hex_text (n mod 16))%string
      else String c ""
  end.

Definition json_string (s : string) : string :=
  (quote_mark ++ String.concat "" (json_char <$> list_ascii_of_string s)
   ++ quote_mark)%string.

(** The JSON text of a value inside an array or at the top; [undefined] is
    written [null] there and leaves a property out of an object. *)
Fixpoint json_text (v : JsValue) : string :=
  match v with
  | JUndefined | JNull => "null"
  | JBool b => if b then "true" else "false"
  | JNum n => Number_toString n
  | JStr s => json_string s
  | JArr items => ("[" ++ String.concat "," (List.map json_text items) ++ "]")%string
  | JObj fields =>
      ("{" ++ String.concat ","
                (List.flat_map
                   (fun kv => match snd kv with
                              | JUndefined => []
                              | _ => [(json_string (fst kv) ++ ":"
                                       ++ json_text (snd kv))%string]
                              end) fields) ++ "}")%string
  end.

(** Following the spec's words: a plain string element is kept unchanged
    and a structured element is written as its JSON text.  The other
    primitives are converted as [join] converts them. *)
Definition element_text (r : JsValue) : string :=
  match r with
  | JStr s => s
  | JObj _ | JArr _ | JNull => json_text r
  | JNum n => Number_toString n
  | JBool b => if b then "true" else "false"
  | JUndefined => ""
  end.

(** A text that JSON writes between quotation marks as it is: no control
    character, quotation mark or backslash. *)
Definition plain_char (c : ascii) : bool :=
  let n := nat_of_ascii c in
  (32 <=? n)%nat && negb (n =? 34)%nat && negb (n =? 92)%nat.

Fixpoint plain_text (s : string) : bool :=
  match s with
  | EmptyString => true
  | String c rest => plain_char c && plain_text rest
  end.

Definition quoted (s : string) : string := (quote_mark ++ s ++ quote_mark)%string.

(** The JSON text of an MX entry whose exchange is a plain text. *)
Definition mx_json (exchange : string) (priority : Z) : string :=
  ("{" ++ ((quoted "exchange" ++ ":" ++ quoted exchange) ++ ","
           ++ (quoted "priority" ++ ":" ++ Number_toString priority))
       ++ "}")%string.

Definition mx_of (e : string * Z) : JsValue := mx_entry e.1 e.2.
Definition txt_of (chunks : list string) : JsValue := JArr (JStr <$> chunks).

(** The JSON text of an entry of a TXT answer, a list of plain chunks. *)
Definition txt_json (chunks : list string) : string :=
  ("[" ++ String.concat "," (quoted <$> chunks) ++ "]")%string.

(** *** Record kinds *)

(** The supported record kinds with the resolution operation of each. *)
Definition kind_methods : list (string * ResolveMethod) :=
  [ ("A", resolve4); ("AAAA", resolve6); ("CNAME", resolveCname);
    ("MX", resolveMx); ("TXT", resolveTxt); ("NS", resolveNs) ].

Definition supported_kinds : list string := ["A"; "AAAA"; "CNAME"; "MX"; "TXT"; "NS"].

(** Following the spec's words: the operation of a supported kind, and the
    A-record operation for every other kind. *)
Definition method_of (kind : string) : ResolveMethod :=
  match List.find (fun km => String.eqb km.1 kind) kind_methods with
  | Some km => km.2
  | None => resolve4
  end.

Definition is_lower (c : ascii) : bool :=
  let n := N_of_ascii c in ((97 <=? n) && (n <=? 122))%N.

Fixpoint has_lower (s : string) : bool :=
  match s with
  | EmptyString => false
  | String c rest => is_lower c || has_lower rest
  end.

(** *** A sample network: the scenario of the spec's example *)

Module Sample.

Definition not_found : JsError :=
  {| code := JStr "ENOTFOUND"; message := JStr "queryA ENOTFOUND example.org" |}.

(** Google's first server answers after 50 ms; the others fail at once. *)
Definition net : Network :=
  fun _ q =>
    if String.eqb (q_ip q) "8.8.8.8"
    then {| answer := Resolved (JArr [JStr "93.184.216.34"]); latency := 50 |}
    else {| answer := Failure not_found; latency := 3 |}.

Definition world : nat -> Network := fun _ => net.

Definition google : Server := {| name := "Google"; ip := "8.8.8.8" |}.
Definition cloudflare : Server := {| name := "Cloudflare"; ip := "1.1.1.1" |}.

Definition outcomes : list ProbeOutcome :=
  [ Success "Google" (JStr "93.184.216.34");
    Fail "Google Secondary" (JStr "ENOTFOUND");
    Fail "Cloudflare" (JStr "ENOTFOUND");
    Fail "Cloudflare Secondary" (JStr "ENOTFOUND");
    Fail "OpenDNS" (JStr "ENOTFOUND");
    Fail "Quad9" (JStr "ENOTFOUND") ].

Definition report : Report :=
  {| propagated := 1; total := 6; percentage := 17%float; results := outcomes |}.

Definition after_one_round : State :=
  {| rounds := 1; trace := [EvCheck "example.org" "A"; EvSummary 1 6 17%float] |}.

End Sample.

(** A world that answers everywhere from its third round on. *)
Definition all_answer : Network :=
  fun i _ => {| answer := Resolved (JArr [JStr "93.184.216.34"]); latency := 9 - i |}.

Definition late_world : nat -> Network :=
  fun k => if (k <? 2)%nat then Sample.net else all_answer.



End PropagationSpec.

(** ** Notions used to state the properties of the RRSIG expiry test *)

Module DnssecSpec.
Import Dnssec.
Local Open Scope list_scope.

(** Two characters the expression cannot tell apart where one replaces the
    other: the same character, or two digits. *)
Definition same_class (c c' : ascii) : Prop :=
  c = c' \/ (kind c = Digit /\ kind c' = Digit).

Definition is_digit (c : ascii) : Prop := kind c = Digit.

Definition RRSIG : list ascii := list_ascii_of_string "RRSIG".

(** *** The calendar date a timestamp spells *)

(** The decimal digits, in order. *)
Definition decimal_digits : list ascii := list_ascii_of_string "0123456789".

(** The value of a digit: its place among the decimal digits. *)
Definition digit_place (c : ascii) : Z :=
  match list_find (fun d => d = c) decimal_digits with
  | Some (i, _) => Z.of_nat i
  | None => 0%Z
  end.

(** The number a run of digits spells, the first digit weighing most. *)
Fixpoint decimal (ds : list ascii) : Z :=
  match ds with
  | [] => 0%Z
  | c :: rest => (digit_place c * 10 ^ Z.of_nat (length rest) + decimal rest)%Z
  end.

(** YYYYMMDDHHmmSS. *)
Record Timestamp := {
  year : Z; month : Z; day : Z; hour : Z; minute : Z; second : Z
}.

Definition timestamp (digits : list ascii) : Timestamp :=
  {| year := decimal (take 4 digits);
     month := decimal (take 2 (drop 4 digits));
     day := decimal (take 2 (drop 6 digits));
     hour := decimal (take 2 (drop 8 digits));
     minute := decimal (take 2 (drop 10 digits));
     second := decimal (take 2 (drop 12 digits)) |}.

(** The days from 1970-01-01 to a date of the proleptic Gregorian calendar:
    the count by eras of 400 years, with the year begun in March. *)
Definition days_from_civil (y m d : Z) : Z :=
  let y' := if (m <=? 2)%Z then (y - 1)%Z else y in
  let era := (y' / 400)%Z in
  let yoe := (y' - era * 400)%Z in
  let mp := ((m + 9) mod 12)%Z in
  let doy := ((153 * mp + 2) / 5 + d - 1)%Z in
  let doe := (yoe * 365 + yoe / 4 - yoe / 100 + doy)%Z in
  (era * 146097 + doe - 719468)%Z.

(** The time value of the timestamp read as a date and time of UTC. *)
Definition utc_reading (ts : Timestamp) : Z :=
  (days_from_civil (year ts) (month ts) (day ts) * 86400000
   + hour ts * 3600000 + minute ts * 60000 + second ts * 1000)%Z.

(** *** A sample answer of [dig] *)

Module Sample.

Definition before_inception : list ascii :=
  list_ascii_of_string
    "example.org. 3600 IN RRSIG SOA 13 2 3600 20300201000000 ".

Definition inception : list ascii := list_ascii_of_string "20240101000000".

(** An inception that, in June 2024, has not come yet. *)
Definition late_inception : list ascii := list_ascii_of_string "20291231235959".

Definition after_inception : list ascii :=
  list_ascii_of_string " 12345 example.org. c2lnbmF0dXJl".

Definition answer : list ascii := before_inception ++ inception ++ after_inception.

Definition found : Match :=
  {| index := 41;
     spans := {| gap1 := 1; gap2 := 1; tagLength := 5 |};
     capture1 := list_ascii_of_string "20300201000000";
     capture2 := inception;
     capture3 := list_ascii_of_string "12345" |}.

(** Hosts at UTC and two hours east of it. *)
Definition utc : Z -> Z := fun _ => 0%Z.
Definition east2 : Z -> Z := fun _ => 7200000%Z.

(** One hour before 2030-02-01T00:00:00Z, when the signature expires. *)
Definition now : Z := 1896130800000.

(** 2024-06-01T00:00:00Z. *)
Definition june_2024 : Z := 1717200000000.

End Sample.

End DnssecSpec.

(** ** Notions used to state the properties of the printed report *)

Module PresentationSpec.
Import Js Propagation PropagationSpec Presentation.
Local Open Scope list_scope.

(** The report says 100 exactly when every probe succeeded. *)
Definition full_at (pt : nat * nat) : bool :=
  Bool.eqb (is_full (percentage_of pt.1 pt.2)) (pt.1 =? pt.2)%nat.

Definition full_checked (n : nat) : bool := forallb full_at (pairs_upto n).

(** The message for [p] successes out of [t], counted exactly. *)
Definition advice_for (p t : nat) : Advice :=
  if (p =? t)%nat then FullyPropagated
  else if (t <=? 2 * p)%nat then PartiallyPropagated
  else NotYetPropagated.

Definition advice_at (pt : nat * nat) : bool :=
  bool_decide (advice (percentage_of pt.1 pt.2) = advice_for pt.1 pt.2).

Definition advice_checked (n : nat) : bool := forallb advice_at (pairs_upto n).

(** The milliseconds a trace spends in timers. *)
Definition delay (e : Event) : Z :=
  match e with
  | EvTimer ms => ms
  | _ => 0%Z
  end.

Definition total_wait (tr : list Event) : Z :=
  foldr (fun e acc => delay e + acc)%Z 0%Z tr.

Definition all_succeed (outcomes : list ProbeOutcome) : Prop :=
  Forall (fun o => success o = true) outcomes.

End PresentationSpec.

(** ** Notions used to state the properties of verify-dns.js *)

Module VerifyDnsSpec.
Import Js JsText VerifyDns.
Local Open Scope list_scope.

(** The checks of [verifyDNS], in the order of the text. *)
Definition checks : list (string * Resolver) :=
  [ ("A", resolve4); ("AAAA", resolve6); ("CNAME", resolveCname);
    ("MX", resolveMx); ("TXT", resolveTxt); ("NS", resolveNs);
    ("SOA", resolveSoa) ].

Definition lookup_of (domain : string) (check : string * Resolver) : Lookup :=
  {| l_resolver := check.2; l_domain := domain |}.

(** What a check returns and prints once its lookup has settled. *)
Definition record_result (type : string) (settled : Propagation.Resolution)
  : RecordResult :=
  match settled with
  | Propagation.Resolved result => Found type result
  | Propagation.Failure error =>
      NotFound type (if no_record error then JStr "No record"
                     else Propagation.message error)
  end.

Definition record_line (type : string) (settled : Propagation.Resolution) : Line :=
  let prefix := ("  " ++ padEnd type 6)%string in
  match settled with
  | Propagation.Resolved result =>
      LineFound prefix (ToString (Propagation.format_value result))
  | Propagation.Failure error =>
      if no_record error then LineNoRecord prefix
      else LineError prefix (ToString (Propagation.message error))
  end.

(** The settlements of the checks of a run that starts after [n] lookups. *)
Definition settled_at (dns : Dns) (n : nat) (domain : string) (i : nat)
    (check : string * Resolver) : Propagation.Resolution :=
  dns (n + i) (lookup_of domain check).

Definition resolved (settled : Propagation.Resolution) : Prop :=
  exists result, settled = Propagation.Resolved result.

(** The lookups of the subdomain loop. *)
Definition subdomain_lookups (domain : string) (subdomains : list string)
  : list Lookup :=
  sub ← subdomains;
  [ {| l_resolver := resolve4; l_domain := (sub ++ "." ++ domain)%string |};
    {| l_resolver := resolveCname; l_domain := (sub ++ "." ++ domain)%string |} ].

(** The lines of the subdomain loop, begun after [n] lookups. *)
Fixpoint subdomain_lines (dns : Dns) (n : nat) (domain : string)
    (subdomains : list string) : list Line :=
  match subdomains with
  | [] => []
  | sub :: rest =>
      let fullDomain := (sub ++ "." ++ domain)%string in
      [ LineSubdomain fullDomain;
        record_line "A" (dns n {| l_resolver := resolve4; l_domain := fullDomain |});
        record_line "CNAME"
          (dns (S n) {| l_resolver := resolveCname; l_domain := fullDomain |}) ]
      ++ subdomain_lines dns (S (S n)) domain rest
  end.

(** *** A sample zone: every record but AAAA and CNAME *)

Module Sample.

Definition soa_fields : list (string * JsValue) :=
  [ ("nsname", JStr "ns1.example.org"); ("hostmaster", JStr "admin.example.org");
    ("serial", JNum 2024010101); ("refresh", JNum 7200); ("retry", JNum 3600);
    ("expire", JNum 1209600); ("minttl", JNum 300) ].

Definition no_data : Propagation.JsError :=
  {| Propagation.code := JStr "ENODATA";
     Propagation.message := JStr "queryAaaa ENODATA example.org" |}.

Definition dns : Dns :=
  fun _ lookup =>
    match l_resolver lookup with
    | resolve4 => Propagation.Resolved (JArr [JStr "93.184.216.34"])
    | resolve6 | resolveCname => Propagation.Failure no_data
    | resolveMx =>
        Propagation.Resolved
          (JArr [JObj [("exchange", JStr "mx1.example.org"); ("priority", JNum 10)]])
    | resolveTxt => Propagation.Resolved (JArr [JArr [JStr "v=spf1 -all"]])
    | resolveNs =>
        Propagation.Resolved (JArr [JStr "ns1.example.org"; JStr "ns2.example.org"])
    | resolveSoa => Propagation.Resolved (JObj soa_fields)
    end.

End Sample.

End VerifyDnsSpec.

(** ** Notions used to state the properties of the other tests *)

Module SuiteSpec.
Import Js Dnssec JsText Suite.
Local Open Scope list_scope.

(** The value of a decimal numeral read after the value [acc]. *)
Fixpoint uint_value (acc : Z) (d : Decimal.uint) : Z :=
  match d with
  | Decimal.Nil => acc
  | Decimal.D0 l => uint_value (10 * acc + 0) l
  | Decimal.D1 l => uint_value (10 * acc + 1) l
  | Decimal.D2 l => uint_value (10 * acc + 2) l
  | Decimal.D3 l => uint_value (10 * acc + 3) l
  | Decimal.D4 l => uint_value (10 * acc + 4) l
  | Decimal.D5 l => uint_value (10 * acc + 5) l
  | Decimal.D6 l => uint_value (10 * acc + 6) l
  | Decimal.D7 l => uint_value (10 * acc + 7) l
  | Decimal.D8 l => uint_value (10 * acc + 8) l
  | Decimal.D9 l => uint_value (10 * acc + 9) l
  end%Z.

(** A line of the answer to a DNSKEY query, as [dig +short] writes it. *)
Definition key_line (flags protocol algorithm : Z) (key : string) : string :=
  (Number_toString flags ++ " " ++ Number_toString protocol ++ " "
   ++ Number_toString algorithm ++ " " ++ key)%string.

Definition LF : ascii := "010"%char.

Fixpoint has_char (c : ascii) (s : string) : bool :=
  match s with
  | EmptyString => false
  | String x rest => Ascii.eqb x c || has_char c rest
  end.

(** A DNSKEY record of the answer. *)
Record Key := { flags : Z; protocol : Z; algorithm : Z; public_key : string }.

Definition line_of (k : Key) : string :=
  key_line (flags k) (protocol k) (algorithm k) (public_key k).

(** The fields are numbers and the key is on one line. *)
Definition well_formed (k : Key) : Prop :=
  (0 <= flags k)%Z /\ (0 <= protocol k)%Z /\ (0 <= algorithm k)%Z /\
  has_char LF (public_key k) = false.

(** A zone key (256) or a key-signing key (257), of protocol 3 and of one
    of the algorithms of the table. *)
Definition accepted (k : Key) : Prop :=
  (flags k = 256 \/ flags k = 257)%Z /\ protocol k = 3%Z /\
  algorithm k ∈ [5; 7; 8; 10; 13; 14; 15; 16]%Z.

(** The answer with one record a line. *)
Definition answer_of (keys : list Key) : string :=
  String.concat (String LF "") (line_of <$> keys).

(** A text of one to three decimal digits. *)
Fixpoint all_decimal (s : string) : bool :=
  match s with
  | EmptyString => true
  | String c rest => is_decimal c && all_decimal rest
  end.

Definition group_text (s : string) : Prop :=
  all_decimal s = true /\ 1 <= String.length s <= 3.

Definition dotted (a b c d : string) : string :=
  (a ++ "." ++ b ++ "." ++ c ++ "." ++ d)%string.

Fixpoint prefix_of (n : nat) (s : string) : string :=
  match n, s with
  | S n', String c rest => String c (prefix_of n' rest)
  | _, _ => EmptyString
  end.

Definition group_text_upto (n : nat) : bool :=
  forallb (fun k => let s := Number_toString (Z.of_nat k) in
                    all_decimal s && (1 <=? String.length s)%nat
                    && (String.length s <=? 3)%nat)
    (seq 0 n).

(** *** A sample answer to the DNSKEY query *)

Module Sample.

Definition ksk : Key :=
  {| flags := 257; protocol := 3; algorithm := 13;
     public_key := "mdsswUyr3DPW132mOi8V9xESWE8jTo0d xCjjnopKl+GqJxpVXckHAeF+" |}.

Definition zsk : Key :=
  {| flags := 256; protocol := 3; algorithm := 13;
     public_key := "oJMRESz5E4gYzS/q6XDrvU1qMPYIjCWzJaOau8XNEZeqCYKD5ar0IRd8" |}.

(** A key of algorithm 1, RSA/MD5, which the table does not have. *)
Definition md5_key : Key :=
  {| flags := 257; protocol := 3; algorithm := 1; public_key := "AwEAAc3Z" |}.

Definition keys : list Key := [ksk; zsk].

(** What [dig] writes: the lines, each ended by a line feed. *)
Definition stdout (keys : list Key) : string :=
  (answer_of keys ++ String LF "")%string.

End Sample.

End SuiteSpec.

(** ** Facts about the propagation checker *)

Module PropagationFacts.
Import Js Propagation PropagationSpec.
Local Open Scope list_scope.

(** *** Promise.all delivers by index, whatever the order of arrival *)

Section PromiseAll.
Context {A : Type}.
Implicit Types (promises : list (Promise A)) (vs : list A) (D R : list nat).

Lemma fulfilled_length promises vs :
  settle <$> promises = Fulfilled <$> vs -> length promises = length vs.
Proof. intros Hs. apply (f_equal length) in Hs. by rewrite !length_fmap in Hs. Qed.

Lemma slots_lookup vs D j :
  slots vs D !! j = (fun v => if decide (j ∈ D) then Some v else None) <$> vs !! j.
Proof. unfold slots. by rewrite list_lookup_imap. Qed.

Lemma slots_nil vs : slots vs [] = replicate (length vs) None.
Proof.
  apply list_eq. intros j. rewrite slots_lookup.
  destruct (vs !! j) as [v|] eqn:Hj; simpl.
  - rewrite lookup_replicate_2; [done|by eapply lookup_lt_Some].
  - symmetry. apply lookup_replicate_None. by apply lookup_ge_None.
Qed.

Lemma slots_insert vs D i v :
  vs !! i = Some v -> <[i := Some v]> (slots vs D) = slots vs (D ++ [i]).
Proof.
  intros Hv. apply list_eq. intros j. destruct (decide (j = i)) as [->|Hne].
  - rewrite list_lookup_insert_eq.
    + rewrite slots_lookup, Hv. simpl. rewrite decide_True; [done|].
      apply elem_of_app. right. apply list_elem_of_singleton. done.
    + unfold slots. rewrite length_imap. by eapply lookup_lt_Some.
  - rewrite list_lookup_insert_ne by done. rewrite !slots_lookup.
    destruct (vs !! j); simpl; [|done].
    assert (j ∈ D <-> j ∈ D ++ [i]) as Hiff.
    { rewrite elem_of_app, list_elem_of_singleton. tauto. }
    repeat case_decide; tauto.
Qed.

Lemma slots_full vs D :
  (forall j, j < length vs -> j ∈ D) -> collect (slots vs D) = vs.
Proof.
  intros Hall. assert (slots vs D = Some <$> vs) as ->.
  { apply list_eq. intros j. rewrite slots_lookup, list_lookup_fmap.
    destruct (vs !! j) eqn:Hj; simpl; [|done].
    rewrite decide_True; [done|]. apply Hall. by eapply lookup_lt_Some. }
  unfold collect. clear Hall. induction vs as [|v vs IH]; [done|].
  cbn. f_equal. exact IH.
Qed.

Lemma all_start_delivered promises vs :
  settle <$> promises = Fulfilled <$> vs ->
  all_start promises = delivered vs [].
Proof.
  intros Hs. unfold all_start, delivered.
  rewrite (fulfilled_length _ _ Hs), slots_nil. f_equal; simpl; [lia|].
  destruct vs; done.
Qed.

(** One fulfilment, when [D] has been delivered and [i :: R] is to come. *)
Lemma all_deliver_delivered promises vs D R i :
  settle <$> promises = Fulfilled <$> vs ->
  D ++ i :: R ≡ₚ seq 0 (length vs) ->
  all_deliver promises (delivered vs D) i = delivered vs (D ++ [i]).
Proof.
  intros Hs Hperm.
  assert (Hi : i < length vs).
  { assert (i ∈ seq 0 (length vs)) as Hin.
    { rewrite <- Hperm. apply elem_of_app. right. apply list_elem_of_here. }
    apply elem_of_seq in Hin. lia. }
  assert (Hlen : length D + S (length R) = length vs).
  { apply Permutation_length in Hperm.
    rewrite length_app, length_seq in Hperm. simpl in Hperm. lia. }
  destruct (lookup_lt_is_Some_2 vs i Hi) as [v Hv].
  unfold all_deliver.
  assert (settle <$> promises !! i = Some (Fulfilled v)) as ->.
  { by rewrite <- list_lookup_fmap, Hs, list_lookup_fmap, Hv. }
  unfold delivered; simpl. rewrite (slots_insert _ _ _ _ Hv), length_app. simpl.
  f_equal; [lia|].
  rewrite (decide_False (P := length D = length vs)) by lia.
  destruct (decide (Nat.pred (length vs - length D) = 0)) as [Hz|Hz].
  - rewrite decide_True by lia. simpl. f_equal.
    assert (R = []) as -> by (destruct R; [done|simpl in Hlen; lia]).
    apply slots_full. intros j Hj. rewrite Hperm. apply elem_of_seq. lia.
  - by rewrite decide_False by lia.
Qed.

Lemma foldl_deliver_delivered promises vs R : forall D,
  settle <$> promises = Fulfilled <$> vs ->
  D ++ R ≡ₚ seq 0 (length vs) ->
  foldl (all_deliver promises) (delivered vs D) R = delivered vs (D ++ R).
Proof.
  induction R as [|i R IH]; intros D Hs Hperm; simpl.
  - by rewrite app_nil_r.
  - rewrite (all_deliver_delivered _ _ _ R) by done.
    rewrite IH; [by rewrite <- app_assoc|done|by rewrite <- app_assoc].
Qed.

Lemma Promise_all_in_fulfilled promises vs order :
  settle <$> promises = Fulfilled <$> vs ->
  order ≡ₚ seq 0 (length promises) ->
  Promise_all_in order promises = Fulfilled vs.
Proof.
  intros Hs Hperm. pose proof (fulfilled_length _ _ Hs) as Hlen.
  unfold Promise_all_in. rewrite (all_start_delivered _ vs) by done.
  rewrite foldl_deliver_delivered; [|done|by rewrite <- Hlen].
  simpl. rewrite decide_True; [done|].
  apply Permutation_length in Hperm. rewrite length_seq in Hperm. lia.
Qed.

Lemma settle_order_Permutation promises :
  settle_order promises ≡ₚ seq 0 (length promises).
Proof. apply merge_sort_Permutation. Qed.

Lemma Promise_all_fulfilled promises vs :
  settle <$> promises = Fulfilled <$> vs ->
  Promise_all promises = Fulfilled vs.
Proof.
  intros Hs. apply Promise_all_in_fulfilled; [done|].
  apply settle_order_Permutation.
Qed.

(** Once settled, the combined promise keeps its state. *)
Lemma all_deliver_settled promises (acc : AllState A) i :
  capability acc <> Pending ->
  capability (all_deliver promises acc i) = capability acc.
Proof.
  intros Hset. unfold all_deliver.
  destruct (settle <$> promises !! i) as [[x|e|]|]; simpl; try done.
  - case_decide; [|done]. by destruct (capability acc).
  - by destruct (capability acc).
Qed.

Lemma foldl_deliver_settled promises order : forall acc : AllState A,
  capability acc <> Pending ->
  capability (foldl (all_deliver promises) acc order) = capability acc.
Proof.
  induction order as [|i order IH]; intros acc Hset; simpl; [done|].
  rewrite IH; rewrite all_deliver_settled; done.
Qed.

(** When every promise rejects with [e], so does the combined one. *)
Lemma Promise_all_rejected promises e :
  promises <> [] ->
  Forall (fun p => settle p = RejectedWith e) promises ->
  Promise_all promises = RejectedWith e.
Proof.
  intros Hne Hall. unfold Promise_all, Promise_all_in.
  pose proof (settle_order_Permutation promises) as Hperm.
  destruct (settle_order promises) as [|i order].
  { apply Permutation_length in Hperm. rewrite length_seq in Hperm.
    destruct promises; done. }
  assert (Hi : i < length promises).
  { assert (i ∈ seq 0 (length promises)) as Hin.
    { rewrite <- Hperm. apply list_elem_of_here. }
    apply elem_of_seq in Hin. lia. }
  destruct (lookup_lt_is_Some_2 promises i Hi) as [p Hp].
  assert (Hrej : settle p = RejectedWith e).
  { eapply (proj1 (Forall_forall _ _) Hall). by eapply list_elem_of_lookup_2. }
  simpl. rewrite foldl_deliver_settled.
  - unfold all_deliver, all_start. rewrite Hp. simpl. rewrite Hrej. simpl.
    rewrite decide_False; [done|]. destruct promises; done.
  - unfold all_deliver, all_start. rewrite Hp. simpl. rewrite Hrej. simpl.
    rewrite decide_False; [done|]. destruct promises; done.
Qed.

End PromiseAll.

(** *** One probe and one fan-out *)

Lemma resolveMethod_cases recordType :
  (exists m, resolveMethod recordType = OwnMethod m) \/
  (recordType ∈ Object_prototype_keys /\
   resolveMethod recordType = Inherited recordType).
Proof.
  unfold resolveMethod, table_get.
  destruct (resolveMethod_table !! recordType) as [m|]; [left; eauto|].
  case_decide; [right; done|left; eauto].
Qed.

Lemma checkDNSServer_selected net domain recordType m s :
  resolveMethod recordType = OwnMethod m ->
  checkDNSServer net domain recordType s =
    {| settle := Fulfilled (probe_outcome s (answer (net (query_of domain m s))));
       settledAt := S (latency (net (query_of domain m s))) |}.
Proof.
  intros Hm. unfold checkDNSServer. rewrite Hm. simpl.
  unfold query_of, probe_outcome. by destruct (answer _).
Qed.

Lemma checkDNSServer_inherited net domain recordType key s :
  resolveMethod recordType = Inherited key ->
  checkDNSServer net domain recordType s =
    {| settle := RejectedWith bind_error; settledAt := 0 |}.
Proof. intros Hm. unfold checkDNSServer. by rewrite Hm. Qed.

Lemma round_results_length net servers domain m :
  length (round_results net servers domain m) = length servers.
Proof. unfold round_results. apply length_imap. Qed.

Lemma round_results_lookup net servers domain m i s :
  servers !! i = Some s ->
  round_results net servers domain m !! i
  = Some (probe_outcome s (answer (net i (query_of domain m s)))).
Proof. intros Hs. unfold round_results. by rewrite list_lookup_imap, Hs. Qed.

Lemma probe_outcome_server s a : server (probe_outcome s a) = name s.
Proof. by destruct a. Qed.

Section FanOut.
Context (world : nat -> Network).

Lemma probes_fulfilled net servers domain recordType m :
  resolveMethod recordType = OwnMethod m ->
  settle <$> imap (fun i s => checkDNSServer (net i) domain recordType s) servers
  = Fulfilled <$> round_results net servers domain m.
Proof.
  intros Hm. apply list_eq. intros i. unfold round_results.
  rewrite !list_lookup_fmap, !list_lookup_imap.
  destruct (servers !! i) as [s|]; simpl; [|done].
  by rewrite (checkDNSServer_selected _ _ _ m).
Qed.

(** With a method selected, a fan-out returns its report. *)
Lemma checkPropagationOn_fulfilled servers domain recordType m st :
  resolveMethod recordType = OwnMethod m ->
  let rep := report_of (round_results (world (rounds st)) servers domain m) in
  checkPropagationOn world servers domain recordType st
  = (Fulfilled rep,
     {| rounds := S (rounds st);
        trace := trace st ++ [EvCheck domain recordType;
                              EvSummary (propagated rep) (total rep) (percentage rep)] |}).
Proof.
  intros Hm rep. unfold checkPropagationOn, bind, emit, next_network, await, ret.
  simpl. rewrite (Promise_all_fulfilled _ _ (probes_fulfilled _ _ _ _ _ Hm)).
  simpl. by rewrite <- app_assoc.
Qed.

(** With an inherited member looked up, every probe raises and the fan-out
    is rejected before any summary. *)
Lemma checkPropagationOn_rejected servers domain recordType key st :
  resolveMethod recordType = Inherited key ->
  servers <> [] ->
  checkPropagationOn world servers domain recordType st
  = (RejectedWith bind_error,
     {| rounds := S (rounds st); trace := trace st ++ [EvCheck domain recordType] |}).
Proof.
  intros Hm Hne. unfold checkPropagationOn, bind, emit, next_network, await, ret.
  simpl. rewrite (Promise_all_rejected _ bind_error); [done| |].
  - destruct servers; done.
  - apply Forall_forall. intros p Hp.
    apply list_elem_of_lookup in Hp as [i Hp].
    rewrite list_lookup_imap in Hp.
    destruct (servers !! i) as [s|]; simpl in Hp; [|done].
    injection Hp as <-. by rewrite (checkDNSServer_inherited _ _ _ key).
Qed.

End FanOut.

(** *** The percentage of line 68 *)

Lemma elem_of_pairs_upto n p t :
  0 < t <= n -> p <= t -> (p, t) ∈ pairs_upto n.
Proof.
  intros Ht Hp. unfold pairs_upto.
  apply list_elem_of_bind. exists t. split; [|apply elem_of_seq; lia].
  apply list_elem_of_bind. exists p. split; [|apply elem_of_seq; lia].
  apply list_elem_of_here.
Qed.

Ltac check_each_pair :=
  repeat (apply List.Forall_cons; [vm_compute; reflexivity|]);
  apply List.Forall_nil.

(** Up to 39 targets the binary64 computation of line 68 gives the exact
    rounding. *)
Lemma percentage_exact_upto_39 : Forall exact_at (pairs_upto 39).
Proof.
  let l := eval vm_compute in (pairs_upto 39) in change (Forall exact_at l).
  unfold exact_at. check_each_pair.
Qed.

Lemma exact_upto n p t :
  Forall exact_at (pairs_upto n) -> 0 < t <= n -> p <= t ->
  percentage_of p t = float_of_Z (spec_round p t).
Proof.
  intros Hall Ht Hp.
  apply (proj1 (Forall_forall _ _) Hall (p, t)).
  by apply elem_of_pairs_upto.
Qed.

Lemma percentage_exact p t :
  0 < t < 40 -> p <= t -> percentage_of p t = float_of_Z (spec_round p t).
Proof.
  intros Ht Hp. apply (exact_upto 39 p t percentage_exact_upto_39); lia.
Qed.

(** From 40 targets on it need not: 23 successes of 40 give 57.5 exactly,
    and [(23 / 40) * 100] is the double just below it. *)
Remark percentage_drift_at_40 :
  percentage_of 23 40 = 57%float /\ spec_round 23 40 = 58%Z.
Proof. split; vm_compute; reflexivity. Qed.

Lemma range_upto n p t :
  range_checked n = true -> 0 < t <= n -> p <= t ->
  in_range (percentage_of p t) = true.
Proof.
  intros Hall Ht Hp. unfold range_checked in Hall.
  apply (proj1 (forallb_forall _ _) Hall (p, t)).
  apply list_elem_of_In. by apply elem_of_pairs_upto.
Qed.

Lemma range_checked_256 : range_checked 256 = true.
Proof. vm_compute. reflexivity. Qed.

Lemma percentage_in_range p t :
  0 < t <= 256 -> p <= t -> in_range (percentage_of p t) = true.
Proof. apply range_upto, range_checked_256. Qed.

Lemma filter_length_le {A} (f : A -> bool) (l : list A) :
  length (List.filter f l) <= length l.
Proof. induction l as [|x l IH]; simpl; [lia|]. destruct (f x); simpl; lia. Qed.

Lemma filter_none {A} (f : A -> bool) (l : list A) :
  Forall (fun x => f x = false) l -> List.filter f l = [].
Proof. induction 1 as [|x l Hx _ IH]; simpl; [done|]. by rewrite Hx. Qed.

Lemma filter_every {A} (f : A -> bool) (l : list A) :
  Forall (fun x => f x = true) l -> List.filter f l = l.
Proof. induction 1 as [|x l Hx _ IH]; simpl; [done|]. by rewrite Hx, IH. Qed.

Lemma spec_round_none t : 0 < t -> spec_round 0 t = 0%Z.
Proof. intros Ht. unfold spec_round. apply Z.div_small. lia. Qed.

Lemma spec_round_every t : 0 < t -> spec_round t t = 100%Z.
Proof.
  intros Ht. unfold spec_round. symmetry.
  apply (Z.div_unique_pos _ _ 100 (Z.of_nat t)); lia.
Qed.

Lemma spec_round_bounds p t :
  0 < t -> p <= t -> (0 <= spec_round p t <= 100)%Z.
Proof.
  intros Ht Hp. unfold spec_round. split.
  - apply Z.div_pos; lia.
  - enough (H : ((200 * Z.of_nat p + Z.of_nat t) / (2 * Z.of_nat t) < 101)%Z) by lia.
    apply Z.div_lt_upper_bound; lia.
Qed.

(** The invariant of a report, for the outcomes of up to 39 targets. *)
Lemma report_of_invariant outcomes :
  0 < length outcomes < 40 ->
  let rep := report_of outcomes in
  percentage rep = float_of_Z (spec_round (propagated rep) (total rep)) /\
  in_range (percentage rep) = true /\
  (Forall (fun o => success o = false) outcomes -> percentage rep = 0%float) /\
  (Forall (fun o => success o = true) outcomes -> percentage rep = 100%float).
Proof.
  intros Hlen rep. pose proof (filter_length_le success outcomes) as Hle.
  assert (Hex : percentage rep = float_of_Z (spec_round (propagated rep) (total rep))).
  { apply percentage_exact; done. }
  split; [done|]. split; [apply percentage_in_range; simpl; lia|]. split.
  - intros Hnone. rewrite Hex. simpl. rewrite (filter_none _ _ Hnone). simpl.
    rewrite spec_round_none by lia. reflexivity.
  - intros Hall. rewrite Hex. simpl. rewrite (filter_every _ _ Hall).
    rewrite spec_round_every by lia. reflexivity.
Qed.

(** *** Reports of the fan-out *)

Section Reports.
Context (world : nat -> Network).

(** What a fan-out over a non-empty list does is decided by the method
    lookup alone: it returns the report of the round, or every probe raises. *)
Lemma checkPropagationOn_returns servers domain recordType st rep st' :
  servers <> [] ->
  checkPropagationOn world servers domain recordType st = (Fulfilled rep, st') ->
  exists m, resolveMethod recordType = OwnMethod m /\
            rep = report_of (round_results (world (rounds st)) servers domain m).
Proof.
  intros Hne Hrun. destruct (resolveMethod_cases recordType) as [[m Hm]|[_ Hm]].
  - exists m. split; [done|].
    rewrite (checkPropagationOn_fulfilled _ _ _ _ m) in Hrun by done.
    by injection Hrun as <- _.
  - by rewrite (checkPropagationOn_rejected _ _ _ _ recordType) in Hrun.
Qed.

(** C1. Every report that [checkPropagation] produces (its target list is
    the six servers of [DNS_SERVERS]) has [total] equal to the number of
    targets, [propagated] equal to the number of successful outcomes, and
    [percentage] equal to [100 * propagated / total] rounded to the nearest
    integer; the percentage lies between 0 and 100, is 0 when every probe
    failed and 100 when every probe succeeded. *)
Theorem report_percentage_invariant domain recordType st rep st' :
  checkPropagation world domain recordType st = (Fulfilled rep, st') ->
  total rep = length DNS_SERVERS /\
  total rep = length (results rep) /\
  propagated rep = length (List.filter success (results rep)) /\
  percentage rep = float_of_Z (spec_round (propagated rep) (total rep)) /\
  (0 <= spec_round (propagated rep) (total rep) <= 100)%Z /\
  in_range (percentage rep) = true /\
  (Forall (fun o => success o = false) (results rep) -> percentage rep = 0%float) /\
  (Forall (fun o => success o = true) (results rep) -> percentage rep = 100%float).
Proof.
  intros Hrun. unfold checkPropagation in Hrun.
  apply checkPropagationOn_returns in Hrun as (m & _ & ->); [|done].
  set (outcomes := round_results _ _ _ _).
  assert (Hlen : length outcomes = 6) by apply round_results_length.
  pose proof (filter_length_le success outcomes) as Hle.
  destruct (report_of_invariant outcomes) as (Hex & Hrange & Hnone & Hall); [lia|].
  simpl in Hex, Hrange, Hnone, Hall. simpl.
  split; [done|]. split; [done|]. split; [done|]. split; [done|].
  split; [apply spec_round_bounds; [lia|done]|]. done.
Qed.

(** C2. A resolution call that fails (time-out, no such domain, unreachable
    server, malformed response: the promise rejects with an error object)
    makes the probe return an outcome with [success = false] whose reason is
    the error's code, or its message when there is no code; the probe does
    not raise.  So a fan-out returns its report whatever the network does,
    with one outcome for each target, in the order of the targets. *)
Theorem probe_failures_are_contained
    servers domain recordType m st (net : Query -> Reply) s error :
  resolveMethod recordType = OwnMethod m ->
  answer (net (query_of domain m s)) = Failure error ->
  settle (checkDNSServer net domain recordType s)
  = Fulfilled (Fail (name s) (or_else (code error) (message error))) /\
  (forall c, code error = JStr c -> c <> "" ->
             or_else (code error) (message error) = JStr c) /\
  (code error = JUndefined -> or_else (code error) (message error) = message error) /\
  exists rep st',
    checkPropagationOn world servers domain recordType st = (Fulfilled rep, st') /\
    length (results rep) = length servers /\
    forall i t, servers !! i = Some t ->
      results rep !! i
      = Some (probe_outcome t (answer (world (rounds st) i (query_of domain m t)))).
Proof.
  intros Hm Hfail. split; [|split; [|split]].
  - rewrite (checkDNSServer_selected _ _ _ m) by done. simpl. by rewrite Hfail.
  - intros c -> Hc. unfold or_else. simpl.
    destruct (String.eqb_spec c ""); done.
  - intros ->. done.
  - eexists _, _. split; [by apply checkPropagationOn_fulfilled|]. split.
    + apply round_results_length.
    + intros i t Ht. simpl. by apply round_results_lookup.
Qed.

(** C5. With a method selected, the probes of a round all fulfil; in
    whatever order their settlements arrive, [Promise.all] hands back the
    outcomes in the order of the targets, and the report of the fan-out
    carries them so: as many outcomes as targets, the i-th one that of the
    i-th target. *)
Theorem outcomes_keep_declaration_order
    servers domain recordType m st (order : list nat) :
  resolveMethod recordType = OwnMethod m ->
  order ≡ₚ seq 0 (length servers) ->
  exists rep st',
    checkPropagationOn world servers domain recordType st = (Fulfilled rep, st') /\
    Promise_all_in order
      (imap (fun i s => checkDNSServer (world (rounds st) i) domain recordType s)
         servers)
    = Fulfilled (results rep) /\
    length (results rep) = length servers /\
    forall i s, servers !! i = Some s ->
      exists o, results rep !! i = Some o /\ server o = name s /\
        o = probe_outcome s (answer (world (rounds st) i (query_of domain m s))).
Proof.
  intros Hm Hperm. eexists _, _.
  split; [by apply checkPropagationOn_fulfilled|]. simpl. split; [|split].
  - apply Promise_all_in_fulfilled; [by apply probes_fulfilled|].
    by rewrite length_imap.
  - apply round_results_length.
  - intros i s Hs. eexists. split; [by apply round_results_lookup|].
    split; [apply probe_outcome_server|done].
Qed.

(** C9. Over an empty target list the fan-out raises nothing, for any
    record kind: it returns the report with no outcome, [propagated = 0],
    [total = 0] and the percentage [Math.round(0 / 0 * 100)], which is NaN
    and so neither at least 0 nor at most 100.  Over a non-empty list (of up
    to 256 targets) the percentage of a report is in range. *)
Theorem empty_target_list_gives_NaN domain recordType st :
  checkPropagationOn world [] domain recordType st
  = (Fulfilled {| propagated := 0; total := 0; percentage := nan; results := [] |},
     {| rounds := S (rounds st);
        trace := trace st ++ [EvCheck domain recordType; EvSummary 0 0 nan] |}) /\
  PrimFloat.div (float_of_nat 0) (float_of_nat 0) = nan /\
  PrimFloat.leb 0%float nan = false /\
  PrimFloat.leb nan 100%float = false /\
  in_range nan = false /\
  forall servers rep st',
    servers <> [] -> length servers <= 256 ->
    checkPropagationOn world servers domain recordType st = (Fulfilled rep, st') ->
    in_range (percentage rep) = true.
Proof.
  split; [|do 4 (split; [vm_compute; reflexivity|])].
  - unfold checkPropagationOn, bind, emit, next_network, await, ret. simpl.
    rewrite <- app_assoc. reflexivity.
  - intros servers rep st' Hne Hlen Hrun.
    apply checkPropagationOn_returns in Hrun as (m & _ & ->); [|done].
    set (outcomes := round_results _ _ _ _).
    assert (Hl : length outcomes = length servers) by apply round_results_length.
    pose proof (filter_length_le success outcomes) as Hle.
    simpl. apply percentage_in_range; [|done].
    destruct servers; [done|]. simpl in *. lia.
Qed.

End Reports.

(** The table is an object literal: a kind that names a member inherited
    from [Object.prototype], as [constructor] does, finds the member instead
    of [undefined], the fallback to [resolve4] is not taken, and a call of
    the probe with it raises a TypeError; the fan-out is rejected with it.
    Every kind that the table lacks and that names no such member is probed
    as kind A is. *)
Remark inherited_name_on_direct_call (net : Query -> Reply) domain s :
  resolveMethod_table !! "constructor" = None /\
  settle (checkDNSServer net domain "constructor" s) = RejectedWith bind_error /\
  settle (checkDNSServer net domain "A" s)
  = Fulfilled (probe_outcome s (answer (net (query_of domain resolve4 s)))) /\
  (forall world st,
     (checkPropagation world domain "constructor" st).1 = RejectedWith bind_error) /\
  checkDNSServer net domain "SRV" s = checkDNSServer net domain "A" s /\
  forall recordType,
    resolveMethod_table !! recordType = None ->
    recordType ∉ Object_prototype_keys ->
    checkDNSServer net domain recordType s = checkDNSServer net domain "A" s.
Proof.
  split; [vm_compute; reflexivity|]. split; [|split; [|split; [|split]]].
  - by rewrite (checkDNSServer_inherited _ _ _ "constructor").
  - by rewrite (checkDNSServer_selected _ _ _ resolve4).
  - intros world st. unfold checkPropagation.
    by rewrite (checkPropagationOn_rejected _ _ _ _ "constructor").
  - by rewrite !(checkDNSServer_selected _ _ _ resolve4).
  - intros recordType Hown Hproto.
    assert (resolveMethod recordType = OwnMethod resolve4) as Hm.
    { unfold resolveMethod, table_get. rewrite Hown. by rewrite decide_False. }
    by rewrite !(checkDNSServer_selected _ _ _ resolve4).
Qed.

(** The example of the spec: two targets, one answer and one failure. *)
Example two_targets :
  checkPropagationOn Sample.world [Sample.google; Sample.cloudflare] "example.org" "A" start
  = (Fulfilled {| propagated := 1; total := 2; percentage := 50%float;
                  results := [ Success "Google" (JStr "93.184.216.34");
                               Fail "Cloudflare" (JStr "ENOTFOUND") ] |},
     {| rounds := 1;
        trace := [EvCheck "example.org" "A"; EvSummary 1 2 50%float] |}).
Proof. vm_compute. reflexivity. Qed.

Lemma report_percentage_invariant_witness :
  checkPropagation Sample.world "example.org" "A" start
  = (Fulfilled Sample.report, Sample.after_one_round) /\
  total Sample.report = length DNS_SERVERS /\
  total Sample.report = length (results Sample.report) /\
  propagated Sample.report = length (List.filter success (results Sample.report)) /\
  percentage Sample.report
  = float_of_Z (spec_round (propagated Sample.report) (total Sample.report)) /\
  (0 <= spec_round (propagated Sample.report) (total Sample.report) <= 100)%Z /\
  in_range (percentage Sample.report) = true /\
  (Forall (fun o => success o = false) (results Sample.report) ->
   percentage Sample.report = 0%float) /\
  (Forall (fun o => success o = true) (results Sample.report) ->
   percentage Sample.report = 100%float).
Proof.
  split; [vm_compute; reflexivity|].
  apply (report_percentage_invariant Sample.world "example.org" "A" start
           Sample.report Sample.after_one_round).
  vm_compute. reflexivity.
Defined.

Lemma probe_failures_are_contained_witness :
  resolveMethod "A" = OwnMethod resolve4 /\
  answer (Sample.net 1 (query_of "example.org" resolve4 Sample.cloudflare))
  = Failure Sample.not_found /\
  settle (checkDNSServer (Sample.net 1) "example.org" "A" Sample.cloudflare)
  = Fulfilled (Fail "Cloudflare" (JStr "ENOTFOUND")) /\
  exists rep st',
    checkPropagationOn Sample.world [Sample.google; Sample.cloudflare]
      "example.org" "A" start = (Fulfilled rep, st') /\
    length (results rep) = 2.
Proof.
  split; [vm_compute; reflexivity|]. split; [vm_compute; reflexivity|].
  destruct (probe_failures_are_contained Sample.world
              [Sample.google; Sample.cloudflare] "example.org" "A" resolve4 start
              (Sample.net 1) Sample.cloudflare Sample.not_found)
    as (Hprobe & _ & _ & rep & st' & Hrun & Hlen & _).
  - vm_compute; reflexivity.
  - vm_compute; reflexivity.
  - split; [exact Hprobe|]. exists rep, st'. split; [exact Hrun|exact Hlen].
Defined.

Lemma outcomes_keep_declaration_order_witness :
  resolveMethod "A" = OwnMethod resolve4 /\
  [4; 0; 5; 2; 1; 3] ≡ₚ seq 0 (length DNS_SERVERS) /\
  exists rep st',
    checkPropagationOn Sample.world DNS_SERVERS "example.org" "A" start
    = (Fulfilled rep, st') /\
    Promise_all_in [4; 0; 5; 2; 1; 3]
      (imap (fun i s => checkDNSServer (Sample.world 0 i) "example.org" "A" s)
         DNS_SERVERS)
    = Fulfilled (results rep) /\
    length (results rep) = length DNS_SERVERS.
Proof.
  assert (Hperm : [4; 0; 5; 2; 1; 3] ≡ₚ seq 0 (length DNS_SERVERS)).
  { apply (bool_decide_unpack _). vm_compute. exact I. }
  split; [vm_compute; reflexivity|]. split; [exact Hperm|].
  destruct (outcomes_keep_declaration_order Sample.world DNS_SERVERS
              "example.org" "A" resolve4 start [4; 0; 5; 2; 1; 3])
    as (rep & st' & Hrun & Hall & Hlen & _).
  - vm_compute; reflexivity.
  - exact Hperm.
  - exists rep, st'. split; [exact Hrun|]. split; [exact Hall|exact Hlen].
Defined.

Lemma empty_target_list_gives_NaN_witness :
  [Sample.google] <> [] /\ length [Sample.google] <= 256 /\
  in_range (percentage (report_of (round_results Sample.net [Sample.google]
                                     "example.org" resolve4))) = true.
Proof.
  split; [done|]. split; [simpl; lia|].
  destruct (empty_target_list_gives_NaN Sample.world "example.org" "A" start)
    as (_ & _ & _ & _ & _ & Hrange).
  eapply (Hrange [Sample.google]); [done|simpl; lia|].
  apply (checkPropagationOn_fulfilled Sample.world [Sample.google]
           "example.org" "A" resolve4 start).
  vm_compute; reflexivity.
Defined.

(** *** The poll loop *)

Section Poll.
Context (world : nat -> Network) (domain recordType : string).
Context (intervalSeconds maxAttempts : Z).

Local Abbreviation round_run := (PropagationSpec.round_run world domain recordType).
Local Abbreviation round_trace := (PropagationSpec.round_trace world domain recordType).
Local Abbreviation reports := (PropagationSpec.reports world domain recordType).
Local Abbreviation stops := (PropagationSpec.stops world domain recordType).
Local Abbreviation first_stop := (PropagationSpec.first_stop world domain recordType).
Local Abbreviation rounds_used := (PropagationSpec.rounds_used world domain recordType).
Local Abbreviation loop_result := (PropagationSpec.loop_result world domain recordType).
Local Abbreviation rounds_trace :=
  (PropagationSpec.rounds_trace world domain recordType intervalSeconds).

Lemma checkPropagation_frame st :
  checkPropagation world domain recordType st
  = ((round_run (rounds st)).1,
     {| rounds := S (rounds st); trace := trace st ++ round_trace (rounds st) |}).
Proof.
  unfold round_trace, round_run, checkPropagation.
  destruct (resolveMethod_cases recordType) as [[m Hm]|[_ Hm]].
  - rewrite !(checkPropagationOn_fulfilled _ _ _ _ m) by done. done.
  - rewrite !(checkPropagationOn_rejected _ _ _ _ recordType) by done. done.
Qed.

(** A round is a header and, when the probes did not raise, a summary. *)
Lemma round_run_cases k :
  (exists m, resolveMethod recordType = OwnMethod m /\
     let rep := report_of (round_results (world k) DNS_SERVERS domain m) in
     round_run k
     = (Fulfilled rep,
        {| rounds := S k;
           trace := [EvCheck domain recordType;
                     EvSummary (propagated rep) (total rep) (percentage rep)] |})) \/
  (resolveMethod recordType = Inherited recordType /\
   round_run k
   = (RejectedWith bind_error,
      {| rounds := S k; trace := [EvCheck domain recordType] |})).
Proof.
  unfold round_run, checkPropagation.
  destruct (resolveMethod_cases recordType) as [[m Hm]|[Hk Hm]].
  - left. exists m. split; [done|].
    by rewrite (checkPropagationOn_fulfilled _ _ _ _ m).
  - right. split; [done|].
    by rewrite (checkPropagationOn_rejected _ _ _ _ recordType).
Qed.

Lemma round_trace_counts k :
  fanouts (round_trace k) = 1 /\ waits (round_trace k) = 0.
Proof.
  unfold round_trace.
  destruct (round_run_cases k) as [(m & _ & ->)|(_ & ->)]; done.
Qed.

Lemma loop_result_eq {A} (r : PromiseState A) k k' t t' :
  k = k' -> t = t' ->
  (r, {| rounds := k; trace := t |}) = (r, {| rounds := k'; trace := t' |}).
Proof. by intros -> ->. Qed.

Lemma monitor_from_S fuel attempt :
  monitor_from world (S fuel) domain recordType intervalSeconds maxAttempts attempt
  = if (attempt <=? maxAttempts)%Z then
      report <~ checkPropagation world domain recordType ;;
      if PrimFloat.eqb (percentage report) 100%float then ret (Some true)
      else
        _ <~ (if (attempt <? maxAttempts)%Z
              then setTimeout (intervalSeconds * 1000)
              else ret tt) ;;
        monitor_from world fuel domain recordType intervalSeconds maxAttempts
          (attempt + 1)
    else ret (Some false).
Proof. reflexivity. Qed.

Lemma first_stop_now k n : stops k = true -> first_stop k (S n) = Some 0.
Proof. intros H. simpl. by rewrite H. Qed.

Lemma first_stop_later k n :
  stops k = false -> first_stop k (S n) = S <$> first_stop (S k) n.
Proof. intros H. simpl. by rewrite H. Qed.

Lemma rounds_used_pos k n : rounds_used k (S n) <> 0.
Proof. unfold rounds_used. by destruct (first_stop k (S n)). Qed.

Lemma rounds_used_later k n :
  stops k = false -> rounds_used k (S n) = S (rounds_used (S k) n).
Proof.
  intros H. unfold rounds_used. rewrite first_stop_later by done.
  by destruct (first_stop (S k) n).
Qed.

Lemma loop_result_later k n :
  stops k = false -> loop_result k (S n) = loop_result (S k) n.
Proof.
  intros H. unfold loop_result. rewrite first_stop_later by done.
  destruct (first_stop (S k) n) as [j|]; simpl; [|done].
  by rewrite Nat.add_succ_r.
Qed.

(** The loop, from any iteration on: its result and the state it leaves. *)
Lemma monitor_from_run fuel : forall attempt st,
  Z.to_nat (maxAttempts - attempt + 1) < fuel ->
  let n := Z.to_nat (maxAttempts - attempt + 1) in
  monitor_from world fuel domain recordType intervalSeconds maxAttempts attempt st
  = (loop_result (rounds st) n,
     {| rounds := rounds st + rounds_used (rounds st) n;
        trace := trace st ++ rounds_trace (rounds st) (rounds_used (rounds st) n) |}).
Proof.
  induction fuel as [|fuel IH]; intros attempt st Hfuel n; [lia|].
  rewrite monitor_from_S. destruct (Z.leb_spec attempt maxAttempts) as [Hle|Hgt].
  - assert (Hn : n = S (Z.to_nat (maxAttempts - (attempt + 1) + 1))) by (unfold n; lia).
    pose proof (IH (attempt + 1)%Z) as IH'. cbv zeta in IH'.
    revert IH' Hn. generalize (Z.to_nat (maxAttempts - (attempt + 1) + 1)).
    intros n' IH' Hn. rewrite Hn. unfold n in Hn. clear n IH.
    unfold bind at 1. rewrite checkPropagation_frame.
    assert (Hstop : stops (rounds st)
                    = match (round_run (rounds st)).1 with
                      | Fulfilled rep => is_full (percentage rep)
                      | _ => true
                      end) by done.
    destruct ((round_run (rounds st)).1) as [rep|e|] eqn:Hrun.
    + change (PrimFloat.eqb ?x 100%float) with (is_full x). rewrite <- Hstop.
      destruct (stops (rounds st)) eqn:Hs.
      * unfold loop_result, rounds_used. rewrite first_stop_now by done.
        rewrite Nat.add_0_r, Hrun. unfold ret.
        apply loop_result_eq; [lia|]. simpl. by rewrite app_nil_r.
      * rewrite loop_result_later, rounds_used_later by done.
        unfold bind. destruct (Z.ltb_spec attempt maxAttempts) as [Hlt|Hge].
        -- unfold setTimeout, emit. rewrite IH' by lia. simpl rounds. simpl trace.
           destruct n' as [|n']; [lia|].
           destruct (rounds_used (S (rounds st)) (S n')) as [|u] eqn:Hu.
           { by apply rounds_used_pos in Hu. }
           apply loop_result_eq; [lia|]. simpl. by rewrite <- !app_assoc.
        -- unfold ret. rewrite IH' by lia. simpl rounds. simpl trace.
           assert (n' = 0) as -> by lia. unfold rounds_used. cbn.
           apply loop_result_eq; [lia|]. by rewrite !app_nil_r.
    + unfold loop_result, rounds_used. rewrite first_stop_now by done.
      rewrite Nat.add_0_r, Hrun.
      apply loop_result_eq; [lia|]. simpl. by rewrite app_nil_r.
    + unfold loop_result, rounds_used. rewrite first_stop_now by done.
      rewrite Nat.add_0_r, Hrun.
      apply loop_result_eq; [lia|]. simpl. by rewrite app_nil_r.
  - assert (n = 0) as -> by (unfold n; lia). unfold ret, rounds_used, loop_result.
    cbn. destruct st as [k t]. apply loop_result_eq; [simpl; lia|].
    simpl. by rewrite app_nil_r.
Qed.

(** [monitorPropagation] has fuel enough: it runs the whole loop. *)
Lemma monitorPropagation_run :
  monitorPropagation world domain recordType intervalSeconds maxAttempts start
  = (loop_result 0 (Z.to_nat maxAttempts),
     {| rounds := rounds_used 0 (Z.to_nat maxAttempts);
        trace := rounds_trace 0 (rounds_used 0 (Z.to_nat maxAttempts)) |}).
Proof.
  unfold monitorPropagation. rewrite monitor_from_run by lia.
  replace (Z.to_nat (maxAttempts - 1 + 1)) with (Z.to_nat maxAttempts) by lia.
  done.
Qed.


(** **** What the first stop is *)

Lemma first_stop_Some n : forall k j,
  first_stop k n = Some j ->
  j < n /\ stops (k + j) = true /\ forall i, i < j -> stops (k + i) = false.
Proof.
  induction n as [|n IH]; intros k j Hj; [done|]. simpl in Hj.
  destruct (stops k) eqn:Hs.
  - injection Hj as <-. rewrite Nat.add_0_r. split; [lia|]. split; [done|].
    intros i Hi. lia.
  - destruct (first_stop (S k) n) as [j'|] eqn:Hj'; [|done].
    injection Hj as <-. destruct (IH _ _ Hj') as (Hlt & Hstop & Hbefore).
    split; [lia|]. split; [by rewrite Nat.add_succ_r|].
    intros [|i] Hi; [by rewrite Nat.add_0_r|].
    rewrite Nat.add_succ_r. apply (Hbefore i). lia.
Qed.

Lemma first_stop_None n : forall k,
  first_stop k n = None -> forall i, i < n -> stops (k + i) = false.
Proof.
  induction n as [|n IH]; intros k Hnone i Hi; [lia|]. simpl in Hnone.
  destruct (stops k) eqn:Hs; [done|].
  destruct (first_stop (S k) n) eqn:Hn; [done|].
  destruct i as [|i]; [by rewrite Nat.add_0_r|].
  rewrite Nat.add_succ_r. apply (IH (S k)); [done|lia].
Qed.

Lemma first_stop_at n : forall k j,
  j < n -> stops (k + j) = true -> (forall i, i < j -> stops (k + i) = false) ->
  first_stop k n = Some j.
Proof.
  induction n as [|n IH]; intros k j Hj Hstop Hbefore; [lia|]. simpl.
  destruct j as [|j].
  - rewrite Nat.add_0_r in Hstop. by rewrite Hstop.
  - assert (Hk : stops k = false).
    { rewrite <- (Nat.add_0_r k). apply Hbefore. lia. }
    rewrite Hk, (IH (S k) j); [done|lia| |].
    + by rewrite Nat.add_succ_r in Hstop.
    + intros i Hi. specialize (Hbefore (S i)). rewrite Nat.add_succ_r in Hbefore.
      apply Hbefore. lia.
Qed.

Lemma first_stop_never n k :
  (forall i, i < n -> stops (k + i) = false) -> first_stop k n = None.
Proof.
  intros Hall. destruct (first_stop k n) as [j|] eqn:Hj; [|done].
  apply first_stop_Some in Hj as (Hlt & Hstop & _).
  by rewrite Hall in Hstop.
Qed.

Lemma first_stop_before n k i :
  i < n -> stops (k + i) = true -> exists j, first_stop k n = Some j /\ j <= i.
Proof.
  intros Hi Hstop. destruct (first_stop k n) as [j|] eqn:Hj.
  - exists j. split; [done|]. apply first_stop_Some in Hj as (_ & _ & Hbefore).
    destruct (decide (j <= i)); [done|].
    rewrite Hbefore in Hstop by lia. done.
  - by rewrite (first_stop_None _ _ Hj i) in Hstop.
Qed.

(** **** Rounds that report *)

Lemma reports_full_stops k : reports is_full k = true -> stops k = true.
Proof. unfold reports, stops. by destruct (round_run k).1. Qed.

Lemma reports_fulfilled P k :
  reports P k = true -> exists rep, (round_run k).1 = Fulfilled rep.
Proof. unfold reports. destruct (round_run k).1; eauto; done. Qed.

(** Whether a round returns a report does not depend on the round. *)
Lemma round_fulfilled_all k rep j :
  (round_run k).1 = Fulfilled rep -> exists rep', (round_run j).1 = Fulfilled rep'.
Proof.
  intros Hk.
  destruct (round_run_cases k) as [(m & Hm & _)|(_ & Hrej)];
    [|by rewrite Hrej in Hk].
  destruct (round_run_cases j) as [(m' & _ & ->)|(Hm' & _)]; [eauto|].
  by rewrite Hm in Hm'.
Qed.

Lemma stops_reports k rep :
  (round_run k).1 = Fulfilled rep -> stops k = reports is_full k.
Proof. intros H. unfold stops, reports. by rewrite H. Qed.

(** The seven percentages a report over six targets can carry. *)
Lemma below_is_not_full_6 p :
  p <= 6 -> is_below (percentage_of p 6) = true -> is_full (percentage_of p 6) = false.
Proof.
  intros Hp. do 7 (destruct p as [|p]; [vm_compute; done|]). lia.
Qed.

Lemma reports_below_goes_on k : reports is_below k = true -> stops k = false.
Proof.
  unfold reports, stops.
  destruct (round_run_cases k) as [(m & _ & Hrun)|(_ & Hrun)];
    cbv zeta in Hrun; rewrite Hrun; [|done].
  generalize (round_results_length (world k) DNS_SERVERS domain m).
  generalize (round_results (world k) DNS_SERVERS domain m).
  intros outcomes Hlen. change (length DNS_SERVERS) with 6 in Hlen.
  pose proof (filter_length_le success outcomes) as Hle.
  unfold report_of. cbn [fst percentage]. rewrite Hlen in *.
  by apply below_is_not_full_6.
Qed.

(** **** The trace of the rounds *)

Lemma fanouts_app tr1 tr2 : fanouts (tr1 ++ tr2) = fanouts tr1 + fanouts tr2.
Proof. unfold fanouts. by rewrite List.filter_app, length_app. Qed.

Lemma waits_app tr1 tr2 : waits (tr1 ++ tr2) = waits tr1 + waits tr2.
Proof. unfold waits. by rewrite List.filter_app, length_app. Qed.

Lemma rounds_trace_counts n : forall k,
  fanouts (rounds_trace k n) = n /\ waits (rounds_trace k n) = Nat.pred n.
Proof.
  induction n as [|n IH]; intros k; [done|].
  destruct (round_trace_counts k) as [Hf Hw].
  change (rounds_trace k (S n))
    with (round_trace k ++
          match n with
          | O => []
          | S _ => EvTimer (intervalSeconds * 1000) :: rounds_trace (S k) n
          end).
  rewrite fanouts_app, waits_app, Hf, Hw.
  destruct n as [|n]; [done|]. destruct (IH (S k)) as [Hf' Hw'].
  change (fanouts (?e :: ?tr)) with (fanouts ([e] ++ tr)).
  change (waits (?e :: ?tr)) with (waits ([e] ++ tr)).
  rewrite fanouts_app, waits_app, Hf', Hw'. simpl. split; lia.
Qed.

Lemma round_trace_no_timer k ms : Forall (timer_of ms) (round_trace k).
Proof.
  unfold round_trace.
  destruct (round_run_cases k) as [(m & _ & ->)|(_ & ->)]; simpl;
    repeat (apply List.Forall_cons; [by intros ?|]); apply List.Forall_nil.
Qed.

Lemma rounds_trace_timers n : forall k,
  Forall (timer_of (intervalSeconds * 1000)) (rounds_trace k n).
Proof.
  induction n as [|n IH]; intros k; [apply List.Forall_nil|].
  change (rounds_trace k (S n))
    with (round_trace k ++
          match n with
          | O => []
          | S _ => EvTimer (intervalSeconds * 1000) :: rounds_trace (S k) n
          end).
  apply Forall_app. split; [apply round_trace_no_timer|].
  destruct n as [|n]; [apply List.Forall_nil|].
  apply List.Forall_cons; [by intros ?|apply IH].
Qed.

(** The last event of the rounds is the last event of the last round:
    never a timer. *)
Lemma round_trace_last k :
  exists e, last (round_trace k) = Some e /\ is_timer e = false.
Proof.
  unfold round_trace.
  destruct (round_run_cases k) as [(m & _ & ->)|(_ & ->)]; simpl; eauto.
Qed.

Lemma rounds_trace_last n : forall k,
  exists e, last (rounds_trace k (S n)) = Some e /\ is_timer e = false.
Proof.
  induction n as [|n IH]; intros k.
  - simpl. rewrite app_nil_r. apply round_trace_last.
  - change (rounds_trace k (S (S n)))
      with (round_trace k ++ EvTimer (intervalSeconds * 1000)
                               :: rounds_trace (S k) (S n)).
    destruct (IH (S k)) as (e & He & Ht). exists e. split; [|done].
    rewrite last_app, last_cons, He. done.
Qed.

Lemma rounds_used_le k n : rounds_used k n <= n.
Proof.
  unfold rounds_used. destruct (first_stop k n) as [j|] eqn:Hj; [|done].
  apply first_stop_Some in Hj. lia.
Qed.

Lemma rounds_used_one k : rounds_used k 1 = 1.
Proof. unfold rounds_used. simpl. by destruct (stops k). Qed.


(** C3. The poll loop returns [true] exactly when one of the first
    [maxAttempts] rounds reports 100; it then has run the rounds up to the
    first such round and no fan-out after it (one fan-out when every round
    would report 100).  When every round reports less than 100 it runs
    [maxAttempts] rounds and returns [false].  The rounds follow one another
    in the trace: each round's events, a timer, the next round's events.
    The model of the loop does not run out of fuel. *)
Theorem poll_loop_verdict :
  let run := monitorPropagation world domain recordType
               intervalSeconds maxAttempts start in
  let N := Z.to_nat maxAttempts in
  run.1 <> Fulfilled None /\
  (run.1 = Fulfilled (Some true) <-> exists k, k < N /\ reports is_full k = true) /\
  (forall k, k < N -> reports is_full k = true ->
     (forall j, j < k -> reports is_full j = false) ->
     run.1 = Fulfilled (Some true) /\
     rounds run.2 = S k /\ fanouts (trace run.2) = S k) /\
  ((forall k, reports is_full k = true) -> 0 < N ->
     run.1 = Fulfilled (Some true) /\
     rounds run.2 = 1 /\ fanouts (trace run.2) = 1) /\
  ((forall k, k < N -> reports is_below k = true) ->
     run.1 = Fulfilled (Some false) /\
     rounds run.2 = N /\ fanouts (trace run.2) = N) /\
  trace run.2 = rounds_trace 0 (rounds run.2).
Proof.
  intros run N. unfold run. rewrite monitorPropagation_run. fold N.
  cbn [fst snd rounds trace].
  assert (Hfirst : forall k, k < N -> reports is_full k = true ->
            (forall j, j < k -> reports is_full j = false) ->
            loop_result 0 N = Fulfilled (Some true) /\
            rounds_used 0 N = S k /\ fanouts (rounds_trace 0 (rounds_used 0 N)) = S k).
  { intros k Hk Hfull Hbefore.
    destruct (reports_fulfilled _ _ Hfull) as [rep Hrep].
    assert (Hstop : first_stop 0 N = Some k).
    { apply first_stop_at; [done|by apply reports_full_stops|].
      intros j Hj. destruct (round_fulfilled_all k rep j Hrep) as [rep' Hrep'].
      change (0 + j) with j. rewrite (stops_reports _ _ Hrep'). by apply Hbefore. }
    unfold loop_result, rounds_used. rewrite Hstop.
    change (0 + k) with k. rewrite Hrep.
    split; [done|]. split; [done|]. apply rounds_trace_counts. }
  split; [|split; [|split; [|split; [|split]]]].
  - unfold loop_result. destruct (first_stop 0 N) as [j|]; [|done].
    by destruct (round_run (0 + j)).1.
  - split.
    + unfold loop_result. destruct (first_stop 0 N) as [j|] eqn:Hj; [|done].
      apply first_stop_Some in Hj as (Hlt & Hstop & _).
      change (0 + j) with j in *.
      destruct (round_run j).1 as [rep| |] eqn:Hrep; try done. intros _.
      exists j. split; [done|]. by rewrite (stops_reports _ _ Hrep) in Hstop.
    + intros (k & Hk & Hfull).
      destruct (reports_fulfilled _ _ Hfull) as [rep Hrep].
      destruct (first_stop_before N 0 k Hk (reports_full_stops _ Hfull))
        as (j & Hj & _).
      unfold loop_result. rewrite Hj. change (0 + j) with j.
      by destruct (round_fulfilled_all k rep j Hrep) as [rep' ->].
  - exact Hfirst.
  - intros Hall HN. apply (Hfirst 0); [done|apply Hall|]. intros j Hj. lia.
  - intros Hall.
    assert (Hnone : first_stop 0 N = None).
    { apply first_stop_never. intros i Hi. apply reports_below_goes_on.
      by apply Hall. }
    unfold loop_result, rounds_used. rewrite Hnone.
    split; [done|]. split; [done|]. apply rounds_trace_counts.
  - done.
Qed.

(** C6. In the trace of a run of the poll loop the rounds are separated by
    single timers of [intervalSeconds * 1000] milliseconds, and no timer
    follows the last round: a run of [k >= 1] rounds arms [k - 1] timers,
    all of that same duration, and with [maxAttempts = 1] it runs one round
    and arms none.  (A run of no round, [maxAttempts <= 0], arms none.) *)
Theorem waits_between_rounds :
  let run := monitorPropagation world domain recordType
               intervalSeconds maxAttempts start in
  let tr := trace run.2 in
  tr = rounds_trace 0 (rounds run.2) /\
  rounds run.2 <= Z.to_nat maxAttempts /\
  fanouts tr = rounds run.2 /\
  (0 < rounds run.2 -> waits tr + 1 = rounds run.2) /\
  (rounds run.2 = 0 -> tr = []) /\
  Forall (timer_of (intervalSeconds * 1000)) tr /\
  (forall e, last tr = Some e -> is_timer e = false) /\
  (maxAttempts = 1%Z -> rounds run.2 = 1 /\ waits tr = 0 /\ tr = round_trace 0).
Proof.
  intros run tr. unfold tr, run. rewrite monitorPropagation_run.
  cbn [fst snd rounds trace].
  destruct (rounds_trace_counts (rounds_used 0 (Z.to_nat maxAttempts)) 0)
    as [Hf Hw].
  split; [done|]. split; [apply rounds_used_le|]. split; [done|].
  split; [lia|]. split; [by intros ->|]. split; [apply rounds_trace_timers|].
  split.
  - intros e. destruct (rounds_used 0 (Z.to_nat maxAttempts)) as [|u]; [done|].
    destruct (rounds_trace_last u 0) as (e' & -> & He'). by intros [= <-].
  - intros ->. change (Z.to_nat 1) with 1 in *. rewrite rounds_used_one in *.
    split; [done|]. split; [done|]. simpl. by rewrite app_nil_r.
Qed.

End Poll.

Lemma poll_loop_verdict_witness :
  2 < Z.to_nat 20 /\
  reports late_world "example.org" "A" is_full 2 = true /\
  (forall j, j < 2 -> reports late_world "example.org" "A" is_full j = false) /\
  (monitorPropagation late_world "example.org" "A" 30 20 start).1
  = Fulfilled (Some true) /\
  rounds (monitorPropagation late_world "example.org" "A" 30 20 start).2 = 3 /\
  fanouts (trace (monitorPropagation late_world "example.org" "A" 30 20 start).2) = 3.
Proof.
  assert (Hbefore : forall j, j < 2 ->
            reports late_world "example.org" "A" is_full j = false).
  { intros [|[|j]] Hj; [vm_compute; reflexivity|vm_compute; reflexivity|lia]. }
  split; [vm_compute; lia|]. split; [vm_compute; reflexivity|].
  split; [exact Hbefore|].
  destruct (poll_loop_verdict late_world "example.org" "A" 30 20)
    as (_ & _ & Hfirst & _).
  apply (Hfirst 2); [vm_compute; lia|vm_compute; reflexivity|exact Hbefore].
Defined.

Lemma waits_between_rounds_witness :
  rounds (monitorPropagation Sample.world "example.org" "A" 30 1 start).2 = 1 /\
  waits (trace (monitorPropagation Sample.world "example.org" "A" 30 1 start).2) = 0 /\
  trace (monitorPropagation Sample.world "example.org" "A" 30 1 start).2
  = round_trace Sample.world "example.org" "A" 0.
Proof.
  destruct (waits_between_rounds Sample.world "example.org" "A" 30 1)
    as (_ & _ & _ & _ & _ & _ & _ & Hone).
  apply Hone. reflexivity.
Defined.

(** *** The value of a successful outcome *)

Lemma quote_char_json c : quote_char c = json_char c.
Proof. destruct c as [[] [] [] [] [] [] [] []]; vm_compute; reflexivity. Qed.

Lemma append_nil (s : string) : (s ++ "")%string = s.
Proof.
  induction s as [|c s IH]; [done|].
  change (String c (s ++ "") = String c s). by rewrite IH.
Qed.

Lemma concat_nil_cons (x : string) (l : list string) :
  String.concat "" (x :: l) = (x ++ String.concat "" l)%string.
Proof. destruct l; [by rewrite append_nil|reflexivity]. Qed.

Lemma quote_body_json s :
  quote_body s = String.concat "" (json_char <$> list_ascii_of_string s).
Proof.
  induction s as [|c s IH]; [done|].
  cbn [quote_body list_ascii_of_string]. rewrite fmap_cons, concat_nil_cons.
  by rewrite quote_char_json, IH.
Qed.

Lemma QuoteJSONString_json s : QuoteJSONString s = json_string s.
Proof. unfold QuoteJSONString, json_string. by rewrite quote_body_json. Qed.

Lemma serialize_json_text : forall v,
  SerializeJSONProperty v
  = match v with
    | JUndefined => None
    | _ => Some (json_text v)
    end.
Proof.
  fix IH 1. intros [| |b|n|s|items|fields].
  - reflexivity.
  - reflexivity.
  - by destruct b.
  - reflexivity.
  - cbn [SerializeJSONProperty json_text]. by rewrite QuoteJSONString_json.
  - cbn [SerializeJSONProperty json_text].
    assert (List.map (fun e => match SerializeJSONProperty e with
                               | Some t => t
                               | None => "null"
                               end) items
            = List.map json_text items) as ->; [|done].
    induction items as [|e items IHitems]; [done|].
    cbn [List.map]. rewrite IHitems, (IH e). by destruct e.
  - cbn [SerializeJSONProperty json_text].
    assert (List.flat_map
              (fun kv => match SerializeJSONProperty (snd kv) with
                         | Some t => [(QuoteJSONString (fst kv) ++ ":" ++ t)%string]
                         | None => []
                         end) fields
            = List.flat_map
                (fun kv => match snd kv with
                           | JUndefined => []
                           | _ => [(json_string (fst kv) ++ ":"
                                    ++ json_text (snd kv))%string]
                           end) fields) as ->; [|done].
    induction fields as [|[k e] fields IHfields]; [done|].
    cbn [List.flat_map fst snd]. rewrite IHfields, (IH e), QuoteJSONString_json.
    by destruct e.
Qed.

Lemma element_text_join r :
  join_element (if typeof_object r then JSON_stringify r else r) = element_text r.
Proof.
  destruct r as [| |b|n|s|items|fields]; try reflexivity.
  - cbn [typeof_object]. unfold JSON_stringify.
    by rewrite (serialize_json_text (JArr items)).
  - cbn [typeof_object]. unfold JSON_stringify.
    by rewrite (serialize_json_text (JObj fields)).
Qed.

Lemma json_char_plain c : plain_char c = true -> json_char c = String c "".
Proof. destruct c as [[] [] [] [] [] [] [] []]; vm_compute; done. Qed.

Lemma json_string_plain s : plain_text s = true -> json_string s = quoted s.
Proof.
  intros Hs. unfold json_string, quoted. do 2 f_equal. f_equal.
  induction s as [|c s IH]; [done|].
  cbn [plain_text] in Hs. apply andb_true_iff in Hs as [Hc Hs].
  cbn [list_ascii_of_string]. rewrite fmap_cons, concat_nil_cons.
  by rewrite (json_char_plain c Hc), (IH Hs).
Qed.

Lemma mx_element_text exchange priority :
  plain_text exchange = true ->
  element_text (mx_entry exchange priority) = mx_json exchange priority.
Proof.
  intros Hs. unfold mx_entry, mx_json.
  cbn [element_text json_text List.flat_map fst snd app String.concat].
  rewrite (json_string_plain exchange Hs).
  rewrite !(json_string_plain _ (eq_refl : plain_text "exchange" = true)).
  rewrite !(json_string_plain _ (eq_refl : plain_text "priority" = true)).
  reflexivity.
Qed.

Lemma map_ext_Forall {A B} (P : A -> Prop) (f g : A -> B) l :
  Forall P l -> (forall x, P x -> f x = g x) -> f <$> l = g <$> l.
Proof.
  intros Hl Hfg. induction Hl as [|x l Hx _ IH]; [done|].
  by rewrite !fmap_cons, (Hfg x Hx), IH.
Qed.

Lemma txt_element_text chunks :
  Forall (fun c => plain_text c = true) chunks ->
  element_text (txt_of chunks) = txt_json chunks.
Proof.
  intros Hall. unfold txt_of, txt_json. cbn [element_text json_text].
  change (List.map json_text (JStr <$> chunks))
    with (json_text <$> (JStr <$> chunks)).
  rewrite <- list_fmap_compose. do 2 f_equal. f_equal.
  apply (map_ext_Forall _ _ _ _ Hall). intros c Hc. by apply json_string_plain.
Qed.

(** C7. The value of a successful outcome is [format_value] of the result.
    A result that is not a list is kept as it is.  A list is joined into
    one string with a comma and a space between its elements: a plain
    string element goes in unchanged, a structured element as its JSON
    text.  So a list of names is the names joined; a list of MX entries is
    the joined objects, each written with its exchange between quotation
    marks and its priority in decimal; a list of TXT answers is the joined
    arrays of quoted chunks. *)
Theorem value_formatting :
  (forall result, Array_isArray result = false -> format_value result = result) /\
  (forall items,
     format_value (JArr items) = JStr (String.concat ", " (element_text <$> items))) /\
  (forall names : list string,
     format_value (JArr (JStr <$> names)) = JStr (String.concat ", " names)) /\
  (forall entries : list (string * Z),
     Forall (fun e => plain_text e.1 = true) entries ->
     format_value (JArr (mx_of <$> entries))
     = JStr (String.concat ", " ((fun e => mx_json e.1 e.2) <$> entries))) /\
  (forall answers : list (list string),
     Forall (Forall (fun c => plain_text c = true)) answers ->
     format_value (JArr (txt_of <$> answers))
     = JStr (String.concat ", " (txt_json <$> answers))) /\
  (forall net domain recordType m s result,
     resolveMethod recordType = OwnMethod m ->
     answer (net (query_of domain m s)) = Resolved result ->
     settle (checkDNSServer net domain recordType s)
     = Fulfilled (Success (name s) (format_value result))).
Proof.
  assert (Hitems : forall items,
            format_value (JArr items)
            = JStr (String.concat ", " (element_text <$> items))).
  { intros items. unfold format_value, Array_join. do 2 f_equal.
    rewrite List.map_map. induction items as [|r items IH]; [done|].
    cbn [List.map]. by rewrite fmap_cons, element_text_join, IH. }
  split; [by intros []|]. split; [exact Hitems|]. split; [|split; [|split]].
  - intros names. rewrite Hitems. do 2 f_equal.
    induction names as [|n names IH]; [done|]. by rewrite !fmap_cons, IH.
  - intros entries Hall. rewrite Hitems, <- list_fmap_compose. do 2 f_equal.
    apply (map_ext_Forall _ _ _ _ Hall). intros [e p] He. by apply mx_element_text.
  - intros answers Hall. rewrite Hitems, <- list_fmap_compose. do 2 f_equal.
    apply (map_ext_Forall _ _ _ _ Hall). intros chunks Hc. by apply txt_element_text.
  - intros net domain recordType m s result Hm Hres.
    rewrite (checkDNSServer_selected _ _ _ m) by done. simpl. by rewrite Hres.
Qed.

Example mx_value :
  format_value (JArr [JStr "ns1.example.org"; mx_entry "mx1.example.org" 10;
                      txt_of ["v=spf1 "; "-all"]])
  = JStr ("ns1.example.org, {" ++ quote_mark ++ "exchange" ++ quote_mark ++ ":"
          ++ quote_mark ++ "mx1.example.org" ++ quote_mark ++ ","
          ++ quote_mark ++ "priority" ++ quote_mark ++ ":10}, ["
          ++ quote_mark ++ "v=spf1 " ++ quote_mark ++ ","
          ++ quote_mark ++ "-all" ++ quote_mark ++ "]")%string.
Proof. vm_compute. reflexivity. Qed.

(** A quotation mark and a line feed inside a TXT chunk are escaped. *)
Example escaped_chunk :
  format_value (JArr [txt_of [String "a" (String "034" (String "010" "b"))]])
  = JStr ("[" ++ quote_mark ++ "a\" ++ quote_mark ++ "\nb" ++ quote_mark ++ "]")%string.
Proof. vm_compute. reflexivity. Qed.

Lemma value_formatting_witness :
  Forall (fun e : string * Z => plain_text e.1 = true)
    [("mx1.example.org", 10%Z); ("mx2.example.org", 20%Z)] /\
  format_value (JArr [mx_entry "mx1.example.org" 10; mx_entry "mx2.example.org" 20])
  = JStr (String.concat ", " [mx_json "mx1.example.org" 10; mx_json "mx2.example.org" 20]).
Proof.
  assert (H : Forall (fun e : string * Z => plain_text e.1 = true)
                [("mx1.example.org", 10%Z); ("mx2.example.org", 20%Z)]).
  { repeat (apply List.Forall_cons; [reflexivity|]). apply List.Forall_nil. }
  split; [exact H|].
  destruct value_formatting as (_ & _ & _ & Hmx & _).
  exact (Hmx _ H).
Defined.

(** *** The command line *)

Lemma upper_char_not_lower c : is_lower (upper_char c) = false.
Proof. destruct c as [[] [] [] [] [] [] [] []]; vm_compute; reflexivity. Qed.


Lemma toUpperCase_no_lower s : has_lower (toUpperCase s) = false.
Proof.
  induction s as [|c s IH]; [done|]. simpl.
  by rewrite upper_char_not_lower, IH.
Qed.


(** Every member inherited from [Object.prototype] has a lower-case letter
    in its name. *)
Lemma prototype_keys_lower :
  Forall (fun key => has_lower key = true) Object_prototype_keys.
Proof.
  repeat (apply List.Forall_cons; [vm_compute; reflexivity|]).
  apply List.Forall_nil.
Qed.

Lemma upper_not_inherited t : toUpperCase t ∉ Object_prototype_keys.
Proof.
  intros Hin.
  pose proof (proj1 (Forall_forall _ _) prototype_keys_lower _ Hin) as Hlow.
  cbv beta in Hlow. by rewrite toUpperCase_no_lower in Hlow.
Qed.

Lemma arg_recordType_cases args :
  arg_recordType args = "A" \/ exists t, arg_recordType args = toUpperCase t.
Proof.
  unfold arg_recordType. destruct (args !! 1) as [t|]; [|by left].
  destruct (String.eqb _ _); [by left|right; eauto].
Qed.

(** The record kind that [main] passes on always selects a method. *)
Lemma arg_recordType_selected args :
  exists m, resolveMethod (arg_recordType args) = OwnMethod m.
Proof.
  destruct (resolveMethod_cases (arg_recordType args)) as [?|[Hin _]]; [done|].
  destruct (arg_recordType_cases args) as [HA|[t Ht]].
  - rewrite HA in Hin.
    by pose proof (proj1 (Forall_forall _ _) prototype_keys_lower _ Hin).
  - rewrite Ht in Hin. by apply upper_not_inherited in Hin.
Qed.




(** *** Kinds outside the table *)

Lemma table_lookup kind :
  resolveMethod_table !! kind
  = snd <$> List.find (fun km => String.eqb km.1 kind) kind_methods.
Proof.
  unfold resolveMethod_table, kind_methods. cbn [List.find fst].
  repeat match goal with
         | |- context [String.eqb ?k kind] =>
             destruct (String.eqb_spec k kind) as [<-|?];
             [vm_compute; reflexivity|rewrite lookup_insert_ne by done]
         end.
  done.
Qed.


Lemma method_of_unsupported kind : kind ∉ supported_kinds -> method_of kind = resolve4.
Proof.
  unfold supported_kinds, method_of, kind_methods. rewrite !not_elem_of_cons.
  intros (H1 & H2 & H3 & H4 & H5 & H6 & _). cbn [List.find fst].
  repeat match goal with
         | |- context [String.eqb ?k kind] =>
             destruct (String.eqb_spec k kind) as [Heq|_]; [by symmetry in Heq|]
         end.
  done.
Qed.

(** A kind without a lower-case letter selects its method, or [resolve4]. *)
Lemma resolveMethod_upper kind :
  has_lower kind = false -> resolveMethod kind = OwnMethod (method_of kind).
Proof.
  intros Hlow. unfold resolveMethod, table_get, method_of. rewrite table_lookup.
  destruct (List.find _ kind_methods) as [km|]; [done|]. cbn [fmap option_fmap option_map].
  rewrite decide_False; [done|]. intros Hin.
  pose proof (proj1 (Forall_forall _ _) prototype_keys_lower _ Hin) as Hl.
  cbv beta in Hl. congruence.
Qed.

Lemma arg_recordType_upper_kind args : has_lower (arg_recordType args) = false.
Proof.
  destruct (arg_recordType_cases args) as [->|[t ->]]; [done|apply toUpperCase_no_lower].
Qed.

Section Fallback.
Context (world : nat -> Network).

(** C4. A record kind outside the six supported ones, [SRV] for one, is
    probed with the A-record operation: the probe raises nothing, settles
    with the outcome of [resolve4], and is the very probe of kind A; the
    fan-out over the targets settles with the report of the [resolve4]
    probes, as it does for kind A.  A supported kind is probed with its own
    operation.  The kind is taken without a lower-case letter, which is how
    [main], the one caller of the chain, passes every kind on: it
    upper-cases its argument, and the script exports nothing; so the
    probe of whatever kind [main] passes on, if not a supported one, is the
    probe of kind A. *)
Theorem unsupported_kind_falls_back (net : Query -> Reply) domain recordType s :
  has_lower recordType = false ->
  recordType ∉ supported_kinds ->
  settle (checkDNSServer net domain recordType s)
  = Fulfilled (probe_outcome s (answer (net (query_of domain resolve4 s)))) /\
  checkDNSServer net domain recordType s = checkDNSServer net domain "A" s /\
  (forall st,
     (checkPropagation world domain recordType st).1
     = Fulfilled (report_of (round_results (world (rounds st)) DNS_SERVERS domain resolve4)) /\
     (checkPropagation world domain recordType st).1
     = (checkPropagation world domain "A" st).1) /\
  (forall args,
     has_lower (arg_recordType args) = false /\
     (arg_recordType args ∉ supported_kinds ->
      checkDNSServer net domain (arg_recordType args) s
      = checkDNSServer net domain "A" s)) /\
  (forall kind m,
     (kind, m) ∈ kind_methods ->
     settle (checkDNSServer net domain kind s)
     = Fulfilled (probe_outcome s (answer (net (query_of domain m s))))).
Proof.
  intros Hlow Hout.
  assert (resolveMethod recordType = OwnMethod resolve4) as Hm.
  { by rewrite (resolveMethod_upper _ Hlow), (method_of_unsupported _ Hout). }
  assert (resolveMethod "A" = OwnMethod resolve4) as HA by (vm_compute; reflexivity).
  split; [by rewrite (checkDNSServer_selected _ _ _ resolve4)|].
  split; [by rewrite !(checkDNSServer_selected _ _ _ resolve4)|].
  split; [|split].
  - intros st. unfold checkPropagation.
    rewrite !(checkPropagationOn_fulfilled world DNS_SERVERS domain _ resolve4) by done.
    done.
  - intros args. split; [apply arg_recordType_upper_kind|]. intros Hargs.
    assert (resolveMethod (arg_recordType args) = OwnMethod resolve4) as Hm'.
    { by rewrite (resolveMethod_upper _ (arg_recordType_upper_kind args)),
        (method_of_unsupported _ Hargs). }
    by rewrite !(checkDNSServer_selected _ _ _ resolve4).
  - intros kind m Hin.
    assert (resolveMethod kind = OwnMethod m) as Hk.
    { unfold kind_methods in Hin. rewrite !elem_of_cons, elem_of_nil in Hin.
      destruct Hin as [[= -> ->]|[[= -> ->]|[[= -> ->]|[[= -> ->]|[[= -> ->]|[[= -> ->]|[]]]]]]];
        vm_compute; reflexivity. }
    by rewrite (checkDNSServer_selected _ _ _ m).
Qed.

End Fallback.

Lemma unsupported_kind_falls_back_witness :
  has_lower "SRV" = false /\ ("SRV" ∉ supported_kinds) /\
  settle (checkDNSServer (Sample.net 0) "example.org" "SRV" Sample.google)
  = Fulfilled (Success "Google" (JStr "93.184.216.34")) /\
  checkDNSServer (Sample.net 0) "example.org" "SRV" Sample.google
  = checkDNSServer (Sample.net 0) "example.org" "A" Sample.google.
Proof.
  assert (H1 : has_lower "SRV" = false) by reflexivity.
  assert (H2 : "SRV" ∉ supported_kinds).
  { apply (bool_decide_unpack _). vm_compute. exact I. }
  split; [exact H1|]. split; [exact H2|].
  destruct (unsupported_kind_falls_back Sample.world (Sample.net 0) "example.org" "SRV"
              Sample.google H1 H2) as (Hprobe & Hsame & _).
  split; [exact Hprobe|exact Hsame].
Defined.

(** *** Invocations *)

Section CommandLine.
Context (world : nat -> Network).

(** With a method selected the poll loop ends with a verdict. *)
Lemma loop_result_selected domain recordType m k n :
  resolveMethod recordType = OwnMethod m ->
  exists b, loop_result world domain recordType k n = Fulfilled (Some b).
Proof.
  intros Hm. unfold loop_result.
  destruct (first_stop _ _ _ k n) as [j|]; [|eauto].
  destruct (round_run_cases world domain recordType (k + j))
    as [(m' & _ & ->)|(Hm' & _)]; [simpl; eauto|].
  by rewrite Hm in Hm'.
Qed.

End CommandLine.

Section Invocation.
Context (world : nat -> Network).



End Invocation.


End PropagationFacts.

(** ** Facts about the RRSIG expiry test *)

Module DnssecFacts.
Import Dnssec DnssecSpec.
Local Open Scope list_scope.

Lemma same_class_kind c c' : same_class c c' -> kind c = kind c'.
Proof. intros [->|[-> ->]]; done. Qed.

Lemma same_class_kinds s s' :
  Forall2 same_class s s' -> kind <$> s = kind <$> s'.
Proof.
  induction 1 as [|c c' s s' Hc _ IH]; [done|].
  cbn. by rewrite (same_class_kind _ _ Hc), IH.
Qed.

Lemma same_class_refl s : Forall2 same_class s s.
Proof. induction s; constructor; [by left|done]. Qed.

Lemma same_class_digits inc inc' :
  length inc = length inc' -> Forall is_digit inc -> Forall is_digit inc' ->
  Forall2 same_class inc inc'.
Proof.
  intros Hlen Hd. revert inc' Hlen.
  induction Hd as [|c inc Hc _ IH]; intros [|c' inc'] Hlen Hd'; try done.
  apply Forall_cons in Hd' as [Hc' Hd']. constructor; [by right|].
  apply IH; [by injection Hlen|done].
Qed.

Lemma same_class_replace a inc inc' b :
  length inc = length inc' -> Forall is_digit inc -> Forall is_digit inc' ->
  Forall2 same_class (a ++ inc ++ b) (a ++ inc' ++ b).
Proof.
  intros. apply Forall2_app; [apply same_class_refl|].
  apply Forall2_app; [by apply same_class_digits|apply same_class_refl].
Qed.

(** A needle without digits is found in both or in neither. *)
Lemma starts_with_same_class needle : forall s s',
  Forall (fun c => kind c <> Digit) needle -> Forall2 same_class s s' ->
  starts_with needle s = starts_with needle s'.
Proof.
  induction needle as [|n needle IH]; intros s s' Hn Hs; [by destruct s, s'|].
  apply Forall_cons in Hn as [Hn Hneedle].
  destruct Hs as [|c c' s s' Hc Hs]; [done|]. simpl.
  rewrite (IH s s') by done. f_equal. apply bool_decide_ext.
  destruct Hc as [->|[Hc Hc']]; [done|]. split; intros ->; done.
Qed.

Lemma includes_same_class needle s s' :
  Forall (fun c => kind c <> Digit) needle -> Forall2 same_class s s' ->
  includes needle s = includes needle s'.
Proof.
  intros Hn Hs. induction Hs as [|c c' s s' Hc Hs IH].
  - done.
  - cbn [includes]. rewrite IH.
    by rewrite (starts_with_same_class needle (c :: s) (c' :: s'))
      by (done || by constructor).
Qed.

Lemma slice_app_l from to (a rest : list ascii) :
  to <= length a -> slice from to (a ++ rest) = slice from to a.
Proof.
  intros Hto. unfold slice. rewrite drop_app.
  rewrite take_app. replace (to - from - length (drop from a)) with 0.
  - by rewrite take_0, app_nil_r.
  - rewrite length_drop. lia.
Qed.

Lemma slice_middle (a inc b : list ascii) :
  slice (length a) (length a + length inc) (a ++ inc ++ b) = inc.
Proof.
  unfold slice. rewrite drop_app_length.
  replace (length a + length inc - length a) with (length inc) by lia.
  by rewrite take_app_length.
Qed.


Lemma RRSIG_no_digit : Forall (fun c => kind c <> Digit) RRSIG.
Proof. repeat (apply List.Forall_cons; [by vm_compute|]). apply List.Forall_nil. Qed.

(** The match of a text, unfolded. *)
Lemma regex_match_Some text m :
  regex_match text = Some m ->
  exec_from 0 (kind <$> text) = Some (index m, spans m) /\
  capture1 m = slice (index m) (index m + 14) text /\
  capture2 m = slice (index m + 14 + gap1 (spans m))
                 (index m + 14 + gap1 (spans m) + 14) text.
Proof.
  unfold regex_match. destruct (exec_from 0 (kind <$> text)) as [[i sp]|]; [|done].
  by intros [= <-].
Qed.

(** A signature whose inception is still to come passes the test. *)
Example not_yet_valid_passes :
  signatures_valid_test Sample.utc "example.org"
    (string_of_list_ascii
       (Sample.before_inception ++ Sample.late_inception ++ Sample.after_inception))
    Sample.june_2024 = Passed /\
  expDate Sample.utc Sample.late_inception = Some 1893455999000%Z /\
  (Sample.june_2024 < 1893455999000)%Z.
Proof. repeat split; vm_compute; reflexivity. Qed.

(** The same answer at the same moment passes on a host at UTC and fails
    on a host two hours east of it. *)
Example verdict_depends_on_host_zone :
  signatures_valid_test Sample.utc "example.org"
    (string_of_list_ascii Sample.answer) Sample.now = Passed /\
  signatures_valid_test Sample.east2 "example.org"
    (string_of_list_ascii Sample.answer) Sample.now = Failed.
Proof. split; vm_compute; reflexivity. Qed.

End DnssecFacts.

(** ** Facts about the printed report and the runs of the checker *)

Module PresentationFacts.
Import Js JsText Propagation PropagationSpec Presentation PresentationSpec PropagationFacts.
Local Open Scope list_scope.

(** *** Full reports and the closing message *)

Lemma checked_upto (f : nat * nat -> bool) n p t :
  forallb f (pairs_upto n) = true -> 0 < t <= n -> p <= t -> f (p, t) = true.
Proof.
  intros Hall Ht Hp. rewrite forallb_forall in Hall.
  apply Hall, list_elem_of_In, elem_of_pairs_upto; done.
Qed.

Lemma full_upto n p t :
  full_checked n = true -> 0 < t <= n -> p <= t ->
  is_full (percentage_of p t) = (p =? t)%nat.
Proof.
  intros Hall Ht Hp. apply Bool.eqb_prop.
  exact (checked_upto full_at n p t Hall Ht Hp).
Qed.

Lemma advice_upto n p t :
  advice_checked n = true -> 0 < t <= n -> p <= t ->
  advice (percentage_of p t) = advice_for p t.
Proof.
  intros Hall Ht Hp.
  pose proof (checked_upto advice_at n p t Hall Ht Hp) as Hc.
  unfold advice_at in Hc. by apply bool_decide_eq_true in Hc.
Qed.

Lemma full_checked_199 : full_checked 199 = true.
Proof. vm_compute. reflexivity. Qed.

Lemma advice_checked_99 : advice_checked 99 = true.
Proof. vm_compute. reflexivity. Qed.

Lemma filter_all_length {A} (f : A -> bool) (l : list A) :
  length (List.filter f l) = length l <-> Forall (fun x => f x = true) l.
Proof.
  split.
  - induction l as [|x l IH]; simpl; intros H; [constructor|].
    pose proof (filter_length_le f l) as Hle.
    destruct (f x) eqn:Hx; simpl in H; [|lia].
    constructor; [done|]. apply IH. lia.
  - intros H. by rewrite filter_every.
Qed.

Section FullReports.
Context (world : nat -> Network).

Lemma report_full_iff outcomes :
  0 < length outcomes < 200 ->
  is_full (percentage (report_of outcomes)) = true <-> all_succeed outcomes.
Proof.
  intros Hlen. unfold all_succeed. rewrite <- filter_all_length. simpl.
  pose proof (filter_length_le success outcomes) as Hle.
  rewrite (full_upto 199 _ _ full_checked_199
             (ltac:(lia) : 0 < length outcomes <= 199) Hle).
  apply Nat.eqb_eq.
Qed.

(** X2. A report says 100 only when every probe succeeded.  For a target
    list of fewer than 200 entries the percentage of the report is 100
    exactly when every outcome is a success, that is, when [propagated]
    equals [total].  The bound is needed: 199 successes out of 200 round to
    100. *)
Theorem full_percentage_means_all_succeeded servers domain recordType st rep st' :
  servers <> [] -> length servers < 200 ->
  checkPropagationOn world servers domain recordType st = (Fulfilled rep, st') ->
  (is_full (percentage rep) = true <-> all_succeed (results rep)) /\
  (is_full (percentage rep) = true <-> propagated rep = total rep) /\
  is_full (percentage_of 199 200) = true.
Proof.
  intros Hne Hlen Hrun.
  destruct (checkPropagationOn_returns world _ _ _ _ _ _ Hne Hrun) as (m & _ & ->).
  assert (0 < length (round_results (world (rounds st)) servers domain m) < 200) as Hl.
  { rewrite round_results_length. destruct servers; [done|simpl in *; lia]. }
  split; [by apply report_full_iff|]. split; [|vm_compute; reflexivity].
  rewrite (report_full_iff _ Hl). unfold all_succeed.
  rewrite <- filter_all_length. done.
Qed.

(** X4. The closing message follows the counts.  For a target list of
    fewer than 100 entries: fully propagated exactly when every probe
    succeeded, partially propagated exactly when at least half of them but
    not all did, and not yet propagated exactly when fewer than half did.
    With no target the percentage is NaN and the message is not yet
    propagated.  Beyond the bound rounding shows: 99 of 200 is less than
    half and gets the message of a partial propagation. *)
Theorem advice_follows_the_counts servers domain recordType st rep st' :
  servers <> [] -> length servers < 100 ->
  checkPropagationOn world servers domain recordType st = (Fulfilled rep, st') ->
  (advice (percentage rep) = FullyPropagated <-> propagated rep = total rep) /\
  (advice (percentage rep) = PartiallyPropagated
   <-> propagated rep < total rep <= 2 * propagated rep) /\
  (advice (percentage rep) = NotYetPropagated <-> 2 * propagated rep < total rep) /\
  advice (percentage_of 0 0) = NotYetPropagated /\
  advice (percentage_of 99 200) = PartiallyPropagated.
Proof.
  intros Hne Hlen Hrun.
  destruct (checkPropagationOn_returns world _ _ _ _ _ _ Hne Hrun) as (m & _ & ->).
  set (outcomes := round_results (world (rounds st)) servers domain m).
  assert (0 < length outcomes <= 99) as Hl.
  { unfold outcomes. rewrite round_results_length.
    destruct servers; [done|simpl in *; lia]. }
  pose proof (filter_length_le success outcomes) as Hle.
  cbn [percentage propagated total report_of].
  rewrite (advice_upto 99 _ _ advice_checked_99 Hl Hle).
  unfold advice_for.
  destruct (Nat.eqb_spec (length (List.filter success outcomes)) (length outcomes));
    [|destruct (Nat.leb_spec (length outcomes)
                  (2 * length (List.filter success outcomes)))];
    (do 3 (split; [split; [try done; lia | try done; lia]|]));
    split; vm_compute; reflexivity.
Qed.

End FullReports.

(** *** Runs of the poll loop *)

Section PollRuns.
Context (world : nat -> Network) (domain recordType : string).
Context (intervalSeconds maxAttempts : Z).

Local Abbreviation round_run := (PropagationSpec.round_run world domain recordType).
Local Abbreviation stops := (PropagationSpec.stops world domain recordType).
Local Abbreviation first_stop := (PropagationSpec.first_stop world domain recordType).
Local Abbreviation rounds_used := (PropagationSpec.rounds_used world domain recordType).
Local Abbreviation loop_result := (PropagationSpec.loop_result world domain recordType).
Local Abbreviation round_trace := (PropagationSpec.round_trace world domain recordType).
Local Abbreviation rounds_trace :=
  (PropagationSpec.rounds_trace world domain recordType intervalSeconds).

Lemma round_run_selected m k :
  resolveMethod recordType = OwnMethod m ->
  (round_run k).1
  = Fulfilled (report_of (round_results (world k) DNS_SERVERS domain m)).
Proof.
  intros Hm.
  destruct (round_run_cases world domain recordType k) as [(m' & Hm' & Hrun)|[Hinh _]].
  - assert (m' = m) as -> by congruence. cbv zeta in Hrun. by rewrite Hrun.
  - congruence.
Qed.

Lemma stops_iff_all_succeed m k :
  resolveMethod recordType = OwnMethod m ->
  stops k = true <-> all_succeed (round_results (world k) DNS_SERVERS domain m).
Proof.
  intros Hm. unfold PropagationSpec.stops. rewrite (round_run_selected m k Hm).
  apply report_full_iff. rewrite round_results_length.
  change (length DNS_SERVERS) with 6. lia.
Qed.

Lemma loop_result_true m k n :
  resolveMethod recordType = OwnMethod m ->
  loop_result k n = Fulfilled (Some true) <-> exists j, first_stop k n = Some j.
Proof.
  intros Hm. unfold PropagationSpec.loop_result.
  destruct (PropagationSpec.first_stop world domain recordType k n) as [j|].
  - rewrite (round_run_selected m _ Hm). split; [eauto|done].
  - split; [done|]. by intros [j ?].
Qed.

Lemma loop_result_false m k n :
  resolveMethod recordType = OwnMethod m ->
  loop_result k n = Fulfilled (Some false) <-> first_stop k n = None.
Proof.
  intros Hm. unfold PropagationSpec.loop_result.
  destruct (PropagationSpec.first_stop world domain recordType k n) as [j|].
  - rewrite (round_run_selected m _ Hm). split; done.
  - split; done.
Qed.

(** X3. The poll loop returns [true] exactly when, in one of its rounds,
    all six servers answered; it returns [false] exactly when in each of the
    [maxAttempts] rounds some server failed; and it stops with the first
    round in which all answered.  Stated for a record kind that selects a
    resolver method. *)
Theorem poll_converges_when_all_targets_answer m :
  resolveMethod recordType = OwnMethod m ->
  let run := monitorPropagation world domain recordType
               intervalSeconds maxAttempts start in
  let N := Z.to_nat maxAttempts in
  let answered k := all_succeed (round_results (world k) DNS_SERVERS domain m) in
  (run.1 = Fulfilled (Some true) <-> exists k, k < N /\ answered k) /\
  (run.1 = Fulfilled (Some false) <-> forall k, k < N -> ~ answered k) /\
  (forall k, k < N -> answered k -> (forall j, j < k -> ~ answered j) ->
     rounds run.2 = S k).
Proof.
  intros Hm run N answered. subst run.
  rewrite (monitorPropagation_run world domain recordType intervalSeconds maxAttempts).
  cbn [fst snd rounds]. fold N.
  assert (forall k, stops k = true <-> answered k) as Hstop
    by (intros k; by apply stops_iff_all_succeed).
  assert (forall k, stops k = false <-> ~ answered k) as Hgo.
  { intros k. rewrite <- Hstop. destruct (stops k); split; done. }
  split; [|split].
  - rewrite (loop_result_true m _ _ Hm). split.
    + intros [j Hj].
      destruct (first_stop_Some world domain recordType _ _ _ Hj) as (Hlt & Hs & _).
      exists j. split; [done|]. by apply Hstop.
    + intros (k & Hk & Ha). apply Hstop in Ha.
      destruct (first_stop_before world domain recordType N 0 k Hk Ha) as (j & Hj & _).
      eauto.
  - rewrite (loop_result_false m _ _ Hm). split.
    + intros Hnone k Hk. apply Hgo.
      exact (first_stop_None world domain recordType _ _ Hnone k Hk).
    + intros Hall. apply first_stop_never. intros i Hi. apply Hgo. by apply Hall.
  - intros k Hk Ha Hbefore. unfold PropagationSpec.rounds_used.
    rewrite (first_stop_at world domain recordType N 0 k Hk); [done|by apply Hstop|].
    intros i Hi. apply Hgo. by apply Hbefore.
Qed.

Lemma delay_timer_of ms e : timer_of ms e -> is_timer e = true -> delay e = ms.
Proof. intros H He. by rewrite (H He). Qed.

Lemma total_wait_app tr1 tr2 :
  total_wait (tr1 ++ tr2) = (total_wait tr1 + total_wait tr2)%Z.
Proof. induction tr1 as [|e tr1 IH]; simpl; [done|]. rewrite IH. lia. Qed.

Lemma total_wait_round k : total_wait (round_trace k) = 0%Z.
Proof.
  unfold PropagationSpec.round_trace.
  destruct (round_run_cases world domain recordType k) as [(m & _ & Hrun)|[_ Hrun]];
    cbv zeta in Hrun; rewrite Hrun; reflexivity.
Qed.

Lemma total_wait_rounds n : forall k,
  total_wait (rounds_trace k n) = (Z.of_nat (Nat.pred n) * (intervalSeconds * 1000))%Z.
Proof.
  induction n as [|n IH]; intros k; [done|].
  cbn [PropagationSpec.rounds_trace]. rewrite total_wait_app, total_wait_round.
  destruct n as [|n]; [done|].
  cbn [total_wait foldr delay]. fold (total_wait (rounds_trace (S k) (S n))).
  rewrite IH. cbn [Nat.pred]. lia.
Qed.

(** X1. The time a run of the poll loop spends waiting.  The delays of the
    timers of a run add up to [intervalSeconds * 1000] milliseconds for each
    round but the last one it ran.  With a non-negative interval this is at
    most [maxAttempts - 1] intervals, and a run that gives up, returning
    [false], has waited exactly that long. *)
Theorem poll_total_wait :
  let run := monitorPropagation world domain recordType
               intervalSeconds maxAttempts start in
  let waited := total_wait (trace run.2) in
  waited = (Z.of_nat (Nat.pred (rounds run.2)) * (intervalSeconds * 1000))%Z /\
  (0 <= intervalSeconds ->
   0 <= waited <= Z.max 0 (maxAttempts - 1) * (intervalSeconds * 1000))%Z /\
  (run.1 = Fulfilled (Some false) ->
   waited = (Z.max 0 (maxAttempts - 1) * (intervalSeconds * 1000))%Z).
Proof.
  intros run waited. subst waited run.
  rewrite (monitorPropagation_run world domain recordType intervalSeconds maxAttempts).
  cbn [fst snd rounds trace]. rewrite total_wait_rounds.
  pose proof (rounds_used_le world domain recordType 0 (Z.to_nat maxAttempts)) as Hle.
  split; [done|split].
  - intros Hi. split; [nia|].
    apply Z.mul_le_mono_nonneg_r; lia.
  - unfold PropagationSpec.loop_result, PropagationSpec.rounds_used.
    destruct (PropagationSpec.first_stop world domain recordType 0 (Z.to_nat maxAttempts))
      as [j|].
    + destruct (PropagationSpec.round_run world domain recordType (0 + j)).1; done.
    + intros _. f_equal. lia.
Qed.

Lemma round_trace_checks k :
  Forall (fun e => is_check e = true -> e = EvCheck domain recordType) (round_trace k).
Proof.
  unfold PropagationSpec.round_trace.
  destruct (round_run_cases world domain recordType k) as [(m & _ & Hrun)|[_ Hrun]];
    cbv zeta in Hrun; rewrite Hrun; cbn [snd trace];
    repeat (apply List.Forall_cons; [done|]); apply List.Forall_nil.
Qed.

Lemma rounds_trace_checks n : forall k,
  Forall (fun e => is_check e = true -> e = EvCheck domain recordType) (rounds_trace k n).
Proof.
  induction n as [|n IH]; intros k; [apply List.Forall_nil|].
  cbn [PropagationSpec.rounds_trace]. apply Forall_app. split; [apply round_trace_checks|].
  destruct n as [|n]; [apply List.Forall_nil|].
  apply List.Forall_cons; [done|apply IH].
Qed.

End PollRuns.

(** *** Runs from the command line *)

Section CommandLineRuns.
Context (world : nat -> Network).

Lemma main_run args :
  main world args start
  = (Fulfilled (Some tt),
     if arg_monitor args then
       let n := PropagationSpec.rounds_used world (arg_domain args)
                  (arg_recordType args) 0 20 in
       {| rounds := n;
          trace := PropagationSpec.rounds_trace world (arg_domain args)
                     (arg_recordType args) 30 0 n |}
     else
       {| rounds := 1;
          trace := PropagationSpec.round_trace world (arg_domain args)
                     (arg_recordType args) 0 |}).
Proof.
  unfold main. destruct (arg_recordType_selected args) as [m Hm].
  destruct (arg_monitor args).
  - unfold bind at 1.
    rewrite (monitorPropagation_run world (arg_domain args) (arg_recordType args) 30 20).
    destruct (loop_result_selected world (arg_domain args) (arg_recordType args) m
                0 (Z.to_nat 20) Hm) as [b ->].
    reflexivity.
  - unfold bind at 1.
    rewrite (checkPropagation_frame world (arg_domain args) (arg_recordType args)).
    rewrite (round_run_selected world _ _ m 0 Hm). reflexivity.
Qed.

(** X6. What a run from the command line does to the network and the
    clock.  Without [--monitor] there is one fan-out and no timer.  With it
    there are between one and twenty fan-outs and one timer fewer, each of
    30000 ms, so at most 570 seconds of waiting.  Every fan-out of the run
    is for the domain and the record kind of the arguments, and the rounds
    counted are the fan-outs begun. *)
Theorem main_run_bounds args :
  let run := main world args start in
  let tr := trace run.2 in
  (arg_monitor args = false -> fanouts tr = 1 /\ waits tr = 0) /\
  (arg_monitor args = true ->
   1 <= fanouts tr <= 20 /\ waits tr + 1 = fanouts tr /\
   Forall (timer_of 30000) tr /\ (0 <= total_wait tr <= 570000)%Z) /\
  rounds run.2 = fanouts tr /\
  Forall (fun e => is_check e = true ->
                   e = EvCheck (arg_domain args) (arg_recordType args)) tr.
Proof.
  intros run tr. subst tr run. rewrite main_run.
  destruct (arg_monitor args) eqn:Hmon; cbv zeta; cbn [snd trace rounds].
  - set (n := PropagationSpec.rounds_used world (arg_domain args) (arg_recordType args) 0 20).
    pose proof (rounds_used_le world (arg_domain args) (arg_recordType args) 0 20) as Hle.
    pose proof (rounds_used_pos world (arg_domain args) (arg_recordType args) 0 19) as Hpos.
    fold n in Hle, Hpos.
    destruct (rounds_trace_counts world (arg_domain args) (arg_recordType args) 30 n 0)
      as [Hf Hw].
    rewrite Hf, Hw.
    split; [done|]. split; [|split; [done|apply rounds_trace_checks]].
    intros _. split; [lia|]. split; [lia|]. split.
    + apply (rounds_trace_timers world (arg_domain args) (arg_recordType args) 30).
    + rewrite total_wait_rounds. lia.
  - destruct (round_trace_counts world (arg_domain args) (arg_recordType args) 0)
      as [Hf Hw].
    rewrite Hf, Hw.
    split; [done|]. split; [done|]. split; [done|apply round_trace_checks].
Qed.

End CommandLineRuns.

(** *** The name column *)

Lemma length_append (a b : string) :
  String.length (a ++ b) = String.length a + String.length b.
Proof. induction a as [|c a IH]; simpl; [done|]. by rewrite IH. Qed.

Lemma length_spaces n : String.length (spaces n) = n.
Proof. induction n as [|n IH]; simpl; [done|]. by rewrite IH. Qed.

Lemma result_line_column width o :
  column (result_line width o) = name_column width (server o).
Proof. by destruct o. Qed.

(** X5. The names of the report are set in one column.  The name of the
    target of each line is followed by spaces up to the length of the
    longest name of the list plus two: all name columns have that same
    width, every name is followed by at least two spaces, and the mark of
    the line says whether the probe succeeded. *)
Theorem name_columns_align servers (net : Network) domain m i s :
  servers !! i = Some s ->
  exists w line,
    maxNameLength servers = Some w /\
    result_lines servers (round_results net servers domain m) !! i = Some line /\
    String.length (name s) <= w /\
    column line = (name s ++ spaces (w + 2 - String.length (name s)))%string /\
    String.length (column line) = w + 2 /\
    ok line = success (probe_outcome s (answer (net i (query_of domain m s)))) /\
    exists t, t ∈ servers /\ String.length (name t) = w.
Proof.
  intros Hs.
  set (lengths := List.map (fun s => String.length (name s)) servers).
  assert (String.length (name s) ∈ lengths) as Hin.
  { apply (list_elem_of_fmap_2 (fun s => String.length (name s)) servers s),
      (list_elem_of_lookup_2 _ i), Hs. }
  assert (maxNameLength servers = Some (max_list lengths)) as Hmax.
  { unfold maxNameLength, Math_max. fold lengths.
    destruct lengths; [by apply elem_of_nil in Hin|done]. }
  pose proof (max_list_elem_of_le _ _ Hin) as Hle.
  exists (max_list lengths), (result_line (Some (max_list lengths))
            (probe_outcome s (answer (net i (query_of domain m s))))).
  split; [done|]. split.
  { unfold result_lines. rewrite Hmax.
    change (List.map ?f ?l) with (f <$> l). rewrite list_lookup_fmap.
    by rewrite (round_results_lookup _ _ _ _ _ _ Hs). }
  split; [done|]. rewrite result_line_column, probe_outcome_server.
  split; [done|]. split.
  { cbn [name_column]. unfold padEnd. rewrite length_append, length_spaces. lia. }
  split; [by destruct (answer _)|].
  assert (lengths <> []) as Hne by (intros E; rewrite E in Hin; by apply elem_of_nil in Hin).
  pose proof (max_list_elem_of _ Hne) as Hm.
  apply list_elem_of_fmap in Hm as (t & Ht & Hin'). eauto.
Qed.

Example sample_lines :
  result_lines DNS_SERVERS Sample.outcomes
  = [ {| ok := true; column := "Google                "; detail := "93.184.216.34" |};
      {| ok := false; column := "Google Secondary      "; detail := "ENOTFOUND" |};
      {| ok := false; column := "Cloudflare            "; detail := "ENOTFOUND" |};
      {| ok := false; column := "Cloudflare Secondary  "; detail := "ENOTFOUND" |};
      {| ok := false; column := "OpenDNS               "; detail := "ENOTFOUND" |};
      {| ok := false; column := "Quad9                 "; detail := "ENOTFOUND" |} ].
Proof. vm_compute. reflexivity. Qed.

Lemma name_columns_align_witness :
  DNS_SERVERS !! 4 = Some {| name := "OpenDNS"; ip := "208.67.222.222" |} /\
  exists w line,
    maxNameLength DNS_SERVERS = Some w /\
    result_lines DNS_SERVERS
      (round_results Sample.net DNS_SERVERS "example.org" resolve4) !! 4 = Some line /\
    String.length (column line) = w + 2.
Proof.
  assert (H : DNS_SERVERS !! 4 = Some {| name := "OpenDNS"; ip := "208.67.222.222" |})
    by reflexivity.
  split; [exact H|].
  destruct (name_columns_align DNS_SERVERS Sample.net "example.org" resolve4 4 _ H)
    as (w & line & Hw & Hline & _ & _ & Hlen & _).
  exists w, line. split; [exact Hw|]. split; [exact Hline|exact Hlen].
Defined.

Lemma full_percentage_means_all_succeeded_witness :
  DNS_SERVERS <> [] /\ length DNS_SERVERS < 200 /\
  checkPropagationOn Sample.world DNS_SERVERS "example.org" "A" start
  = (Fulfilled Sample.report, Sample.after_one_round) /\
  (is_full (percentage Sample.report) = true <-> all_succeed (results Sample.report)).
Proof.
  assert (H1 : DNS_SERVERS <> []) by done.
  assert (H2 : length DNS_SERVERS < 200) by (simpl; lia).
  assert (H3 : checkPropagationOn Sample.world DNS_SERVERS "example.org" "A" start
               = (Fulfilled Sample.report, Sample.after_one_round))
    by (vm_compute; reflexivity).
  split; [exact H1|]. split; [exact H2|]. split; [exact H3|].
  exact (proj1 (full_percentage_means_all_succeeded Sample.world DNS_SERVERS
                  "example.org" "A" start Sample.report Sample.after_one_round
                  H1 H2 H3)).
Defined.

Lemma advice_follows_the_counts_witness :
  DNS_SERVERS <> [] /\ length DNS_SERVERS < 100 /\
  checkPropagationOn Sample.world DNS_SERVERS "example.org" "A" start
  = (Fulfilled Sample.report, Sample.after_one_round) /\
  (advice (percentage Sample.report) = NotYetPropagated
   <-> 2 * propagated Sample.report < total Sample.report).
Proof.
  assert (H1 : DNS_SERVERS <> []) by done.
  assert (H2 : length DNS_SERVERS < 100) by (simpl; lia).
  assert (H3 : checkPropagationOn Sample.world DNS_SERVERS "example.org" "A" start
               = (Fulfilled Sample.report, Sample.after_one_round))
    by (vm_compute; reflexivity).
  split; [exact H1|]. split; [exact H2|]. split; [exact H3|].
  destruct (advice_follows_the_counts Sample.world DNS_SERVERS
              "example.org" "A" start Sample.report Sample.after_one_round
              H1 H2 H3) as (_ & _ & Hnot & _).
  exact Hnot.
Defined.

Lemma poll_converges_when_all_targets_answer_witness :
  resolveMethod "A" = OwnMethod resolve4 /\
  all_succeed (round_results (late_world 2) DNS_SERVERS "example.org" resolve4) /\
  (monitorPropagation late_world "example.org" "A" 30 20 start).1
  = Fulfilled (Some true) /\
  rounds (monitorPropagation late_world "example.org" "A" 30 20 start).2 = 3.
Proof.
  assert (Hm : resolveMethod "A" = OwnMethod resolve4) by (vm_compute; reflexivity).
  assert (Ha : all_succeed (round_results (late_world 2) DNS_SERVERS
                              "example.org" resolve4)).
  { unfold all_succeed. apply (bool_decide_unpack _). vm_compute. exact I. }
  destruct (poll_converges_when_all_targets_answer late_world "example.org" "A"
              30 20 resolve4 Hm) as (Htrue & _ & Hfirst).
  split; [exact Hm|]. split; [exact Ha|]. split.
  - apply Htrue. exists 2. split; [vm_compute; lia|exact Ha].
  - apply (Hfirst 2); [vm_compute; lia|exact Ha|].
    intros j Hj. unfold all_succeed.
    destruct j as [|[|j]]; [| |lia]; apply (bool_decide_unpack _); vm_compute; exact I.
Defined.

End PresentationFacts.

(** ** Facts about verify-dns.js *)

Module VerifyDnsFacts.
Import Js JsText VerifyDns VerifyDnsSpec.
Local Open Scope list_scope.

Section Script.
Context (dns : Dns).

Lemma checkRecord_run type resolver domain st :
  let lookup := {| l_resolver := resolver; l_domain := domain |} in
  let settled := dns (length (lookups st)) lookup in
  checkRecord dns type resolver domain st
  = (record_result type settled,
     {| lookups := lookups st ++ [lookup];
        console := console st ++ [record_line type settled] |}).
Proof.
  intros lookup settled. unfold checkRecord, bind, resolve. fold lookup. fold settled.
  unfold record_result, record_line.
  destruct settled as [result|error]; [reflexivity|].
  destruct (no_record error); reflexivity.
Qed.

Lemma checkRecord_at type resolver domain n ls out :
  length ls = n ->
  checkRecord dns type resolver domain {| lookups := ls; console := out |}
  = (record_result type (dns n {| l_resolver := resolver; l_domain := domain |}),
     {| lookups := ls ++ [{| l_resolver := resolver; l_domain := domain |}];
        console := out ++ [record_line type
                             (dns n {| l_resolver := resolver; l_domain := domain |})] |}).
Proof. intros <-. apply checkRecord_run. Qed.

Lemma verifyDNS_run domain st :
  let n := length (lookups st) in
  let results := imap (fun i check => record_result check.1 (settled_at dns n domain i check))
                   checks in
  verifyDNS dns domain st
  = (results,
     {| lookups := lookups st ++ (lookup_of domain <$> checks);
        console :=
          console st ++ [LineTitle domain; LineRule]
          ++ imap (fun i check => record_line check.1 (settled_at dns n domain i check))
               checks
          ++ [LineRule; LineResults (length (List.filter success results)) 7] |}).
Proof.
  intros n results. destruct st as [ls out]. simpl in n.
  unfold verifyDNS, bind at 1 2, console_log. cbn [lookups console].
  unfold bind at 1. rewrite (checkRecord_at _ _ _ (n + 0)); [|subst n; lia].
  unfold bind at 1. rewrite (checkRecord_at _ _ _ (n + 1)); [|rewrite length_app; simpl; lia].
  unfold bind at 1. rewrite (checkRecord_at _ _ _ (n + 2)); [|rewrite !length_app; simpl; lia].
  unfold bind at 1. rewrite (checkRecord_at _ _ _ (n + 3)); [|rewrite !length_app; simpl; lia].
  unfold bind at 1. rewrite (checkRecord_at _ _ _ (n + 4)); [|rewrite !length_app; simpl; lia].
  unfold bind at 1. rewrite (checkRecord_at _ _ _ (n + 5)); [|rewrite !length_app; simpl; lia].
  unfold bind at 1. rewrite (checkRecord_at _ _ _ (n + 6)); [|rewrite !length_app; simpl; lia].
  unfold bind, console_log, ret. cbn [lookups console].
  rewrite <- !app_assoc. reflexivity.
Qed.

Lemma record_result_type t settled : type (record_result t settled) = t.
Proof. by destruct settled. Qed.

Lemma record_result_success t settled :
  success (record_result t settled) = true <-> resolved settled.
Proof.
  destruct settled as [result|error]; simpl; split; try done.
  - intros _. by exists result.
  - by intros [result ?].
Qed.

(** X7. [verifyDNS] makes the seven lookups A, AAAA, CNAME, MX, TXT, NS
    and SOA for the domain, in this order and one after the other, whatever
    the earlier ones gave: the result at each place is the one of its own
    lookup, a success exactly when that lookup resolved, and the last line
    printed counts the successes out of seven. *)
Theorem verifyDNS_checks_all_seven domain st :
  let run := verifyDNS dns domain st in
  let n := length (lookups st) in
  lookups run.2 = lookups st ++ (lookup_of domain <$> checks) /\
  type <$> run.1 = fst <$> checks /\
  (forall i check, checks !! i = Some check ->
     exists r, run.1 !! i = Some r /\
       r = record_result check.1 (settled_at dns n domain i check) /\
       (success r = true <-> resolved (settled_at dns n domain i check))) /\
  last (console run.2)
  = Some (LineResults (length (List.filter success run.1)) (length checks)).
Proof.
  intros run n. subst run. rewrite verifyDNS_run. fold n. cbn [fst snd lookups console].
  split; [done|]. split; [|split].
  - apply list_eq. intros i. rewrite !list_lookup_fmap, list_lookup_imap.
    destruct (checks !! i) as [check|]; [|done]. simpl. by rewrite record_result_type.
  - intros i check Hi. eexists. split; [|split; [reflexivity|]].
    + rewrite list_lookup_imap, Hi. reflexivity.
    + apply record_result_success.
  - match goal with
    | |- last (?a ++ ?b ++ ?c ++ [?x; ?y]) = _ =>
        change (last (a ++ b ++ c ++ [x] ++ [y]) = Some y)
    end.
    rewrite !app_assoc. apply last_snoc.
Qed.

(** X8. A SOA record is printed as [[object Object]].  [resolveSoa]
    resolves with an object, not an array, so the line of the SOA check
    shows the conversion of the object by the template literal, while the
    result returned keeps the record. *)
Theorem soa_is_printed_as_object_Object domain st fields :
  dns (length (lookups st) + 6) {| l_resolver := resolveSoa; l_domain := domain |}
  = Propagation.Resolved (JObj fields) ->
  let run := verifyDNS dns domain st in
  run.1 !! 6 = Some (Found "SOA" (JObj fields)) /\
  console run.2 !! (length (console st) + 8)
  = Some (LineFound "  SOA   " "[object Object]").
Proof.
  intros Hsoa run. subst run. rewrite verifyDNS_run. cbn [fst snd console].
  split.
  - rewrite list_lookup_imap. cbn [checks lookup fmap option_fmap option_map list_lookup].
    unfold settled_at, lookup_of. cbn [fst snd]. by rewrite Hsoa.
  - rewrite lookup_app_r by lia.
    replace (length (console st) + 8 - length (console st)) with 8 by lia.
    cbn [app checks imap lookup list_lookup]. unfold compose, settled_at, lookup_of.
    cbn [fst snd]. by rewrite Hsoa.
Qed.

Lemma for_subdomains_run domain subdomains : forall st,
  for_subdomains dns domain subdomains st
  = (tt,
     {| lookups := lookups st ++ subdomain_lookups domain subdomains;
        console := console st
                   ++ subdomain_lines dns (length (lookups st)) domain subdomains |}).
Proof.
  induction subdomains as [|sub rest IH]; intros [ls out].
  - unfold subdomain_lookups. simpl. unfold ret. by rewrite !app_nil_r.
  - cbn [for_subdomains]. unfold bind at 1, console_log. cbn [lookups console].
    unfold bind at 1. rewrite (checkRecord_at _ _ _ (length ls)) by done.
    unfold bind at 1. rewrite (checkRecord_at _ _ _ (S (length ls)))
      by (rewrite length_app; simpl; lia).
    rewrite IH. cbn [lookups console subdomain_lines].
    rewrite !length_app. cbn [length].
    replace (length ls + 1 + 1) with (S (S (length ls))) by lia.
    unfold subdomain_lookups. cbn [mbind list_bind]. fold (subdomain_lookups domain rest).
    rewrite <- !app_assoc. reflexivity.
Qed.

Lemma subdomain_lookups_length domain subdomains :
  length (subdomain_lookups domain subdomains) = 2 * length subdomains.
Proof.
  unfold subdomain_lookups. induction subdomains as [|sub rest IH]; [done|].
  cbn [mbind list_bind]. rewrite length_app, IH. simpl. lia.
Qed.

Lemma subdomain_lines_length n domain subdomains :
  length (subdomain_lines dns n domain subdomains) = 3 * length subdomains.
Proof.
  revert n. induction subdomains as [|sub rest IH]; intros n; [done|].
  cbn [subdomain_lines]. rewrite length_app, IH. simpl. lia.
Qed.

(** X9. [verifySubdomains] makes two lookups for each subdomain, A then
    CNAME, for the name [sub.domain], in the order of the list; it prints a
    title and three lines for each subdomain. *)
Theorem verifySubdomains_lookups domain subdomains st :
  let run := verifySubdomains dns domain subdomains st in
  lookups run.2 = lookups st ++ subdomain_lookups domain subdomains /\
  length (lookups run.2) = length (lookups st) + 2 * length subdomains /\
  length (console run.2) = length (console st) + 1 + 3 * length subdomains /\
  (forall i sub, subdomains !! i = Some sub ->
     lookups run.2 !! (length (lookups st) + 2 * i)
     = Some {| l_resolver := resolve4; l_domain := (sub ++ "." ++ domain)%string |} /\
     lookups run.2 !! (length (lookups st) + 2 * i + 1)
     = Some {| l_resolver := resolveCname; l_domain := (sub ++ "." ++ domain)%string |}).
Proof.
  intros run. subst run. unfold verifySubdomains, bind, console_log.
  rewrite for_subdomains_run. cbn [fst snd lookups console].
  split; [done|]. split; [|split].
  - by rewrite length_app, subdomain_lookups_length.
  - rewrite !length_app, subdomain_lines_length. simpl. lia.
  - intros i sub Hi. rewrite !lookup_app_r by lia.
    replace (length (lookups st) + 2 * i - length (lookups st)) with (2 * i) by lia.
    replace (length (lookups st) + 2 * i + 1 - length (lookups st)) with (2 * i + 1) by lia.
    clear st. revert i Hi.
    induction subdomains as [|s rest IH]; intros i Hi; [done|].
    unfold subdomain_lookups. cbn [mbind list_bind]. fold (subdomain_lookups domain rest).
    destruct i as [|i].
    + injection Hi as ->. done.
    + replace (2 * S i) with (S (S (2 * i))) by lia. cbn [app lookup list_lookup Nat.add].
      apply IH, Hi.
Qed.

Lemma verifySubdomains_run domain subdomains st :
  lookups (verifySubdomains dns domain subdomains st).2
  = lookups st ++ subdomain_lookups domain subdomains.
Proof.
  unfold verifySubdomains, bind, console_log. by rewrite for_subdomains_run.
Qed.

(** X10. The lookups of a run of verify-dns.js from the command line: the
    seven of [verifyDNS] for the domain, followed, when [--subdomains] is
    among the arguments, by the six for www, mail and api: seven lookups or
    thirteen.  The domain is the first argument after the script, or
    example.com when there is none. *)
Theorem verify_main_lookups argv :
  let run := main dns argv start in
  let domain := CONFIG_domain argv in
  lookups run.2
  = (lookup_of domain <$> checks)
    ++ (if bool_decide ("--subdomains" ∈ argv)
        then subdomain_lookups domain default_subdomains else []) /\
  length (lookups run.2) = (if bool_decide ("--subdomains" ∈ argv) then 13 else 7) /\
  (argv !! 2 = None -> domain = "example.com") /\
  (forall d, argv !! 2 = Some d -> d <> "" -> domain = d).
Proof.
  intros run domain. subst run.
  assert (lookups (main dns argv start).2
          = (lookup_of domain <$> checks)
            ++ (if bool_decide ("--subdomains" ∈ argv)
                then subdomain_lookups domain default_subdomains else [])) as Hmain;
    [|rewrite Hmain; split; [done|]; split;
      [destruct (bool_decide ("--subdomains" ∈ argv)); reflexivity|
       subst domain; unfold CONFIG_domain; split;
       [by intros ->|intros d -> Hd; by rewrite (proj2 (String.eqb_neq _ _) Hd)]]].
  unfold main. fold domain.
  assert (lookups
            ((if String.eqb domain "example.com"
              then _ <-- console_log LineUsage ;; console_log LineExample
              else ret tt) start).2 = []) as Husage.
  { destruct (String.eqb domain "example.com"); reflexivity. }
  unfold bind at 1.
  destruct ((if String.eqb domain "example.com"
             then _ <-- console_log LineUsage ;; console_log LineExample
             else ret tt) start) as [u st1].
  cbn [snd] in Husage. unfold bind at 1.
  pose proof (verifyDNS_run domain st1) as Hrun. cbv zeta in Hrun.
  destruct (verifyDNS dns domain st1) as [results st2].
  injection Hrun as _ ->.
  assert (forall out,
            lookups
              ((if bool_decide ("--subdomains" ∈ argv)
                then verifySubdomains dns domain default_subdomains
                else ret tt)
                 {| lookups := lookups st1 ++ (lookup_of domain <$> checks);
                    console := out |}).2
            = (lookup_of domain <$> checks)
              ++ (if bool_decide ("--subdomains" ∈ argv)
                  then subdomain_lookups domain default_subdomains else [])) as Hl.
  { intros out. rewrite Husage. destruct (bool_decide ("--subdomains" ∈ argv)).
    - by rewrite verifySubdomains_run.
    - unfold ret. cbn [snd lookups]. by rewrite app_nil_r. }
  apply Hl.
Qed.

End Script.

Example sample_console :
  console (verifyDNS Sample.dns "example.org" start).2
  = [ LineTitle "example.org"; LineRule;
      LineFound "  A     " "93.184.216.34";
      LineNoRecord "  AAAA  ";
      LineNoRecord "  CNAME ";
      LineFound "  MX    "
        (PropagationSpec.mx_json "mx1.example.org" 10);
      LineFound "  TXT   " (String "[" (QuoteJSONString "v=spf1 -all" ++ "]"));
      LineFound "  NS    " "ns1.example.org, ns2.example.org";
      LineFound "  SOA   " "[object Object]";
      LineRule; LineResults 5 7 ].
Proof. vm_compute. reflexivity. Qed.

Lemma soa_is_printed_as_object_Object_witness :
  Sample.dns (length (lookups start) + 6)
    {| l_resolver := resolveSoa; l_domain := "example.org" |}
  = Propagation.Resolved (JObj Sample.soa_fields) /\
  (verifyDNS Sample.dns "example.org" start).1 !! 6
  = Some (Found "SOA" (JObj Sample.soa_fields)) /\
  console (verifyDNS Sample.dns "example.org" start).2 !! (length (console start) + 8)
  = Some (LineFound "  SOA   " "[object Object]").
Proof.
  assert (H : Sample.dns (length (lookups start) + 6)
                {| l_resolver := resolveSoa; l_domain := "example.org" |}
              = Propagation.Resolved (JObj Sample.soa_fields)) by reflexivity.
  split; [exact H|].
  exact (soa_is_printed_as_object_Object Sample.dns "example.org" start
           Sample.soa_fields H).
Defined.

End VerifyDnsFacts.

(** ** Facts about the other tests of the suite *)

Module SuiteFacts.
Import Js Dnssec JsText Suite SuiteSpec.
Local Open Scope list_scope.

(** *** Numbers printed and read back *)

Lemma of_uint_acc_value d : forall acc,
  Z.pos (Pos.of_uint_acc d acc) = uint_value (Z.pos acc) d.
Proof.
  induction d; intros acc; cbn [Pos.of_uint_acc uint_value];
    [done|rewrite IHd; f_equal; lia..].
Qed.

Lemma of_uint_value d : Z.of_N (Pos.of_uint d) = uint_value 0 d.
Proof.
  induction d; cbn [Pos.of_uint uint_value]; try done;
    cbn [Z.of_N]; rewrite of_uint_acc_value; f_equal.
Qed.

Lemma to_uint_value p : uint_value 0 (Pos.to_uint p) = Z.pos p.
Proof. by rewrite <- of_uint_value, DecimalPos.Unsigned.of_to. Qed.

Lemma digits_value_uint d : forall acc,
  digits_value 10 (Some acc) (NilEmpty.string_of_uint d) = Some (uint_value acc d).
Proof.
  induction d; intros acc; cbn [NilEmpty.string_of_uint uint_value]; [done|..];
    (cbn [digits_value]; apply IHd).
Qed.

Lemma parseInt_uint d :
  d <> Decimal.Nil ->
  parseInt (NilEmpty.string_of_uint d) = Some (uint_value 0 d).
Proof.
  intros Hd.
  assert (forall l acc,
            (fun v => 1 * v)%Z <$>
              digits_value 10 (Some acc) (NilEmpty.string_of_uint l)
            = Some (uint_value acc l)) as Hrest.
  { intros l acc. rewrite digits_value_uint.
    cbn [fmap option_fmap option_map]. f_equal. lia. }
  destruct d as [|l|l|l|l|l|l|l|l|l|l]; [done|..];
    try (cbn [NilEmpty.string_of_uint uint_value]; exact (Hrest l _)).
  destruct l as [|l|l|l|l|l|l|l|l|l|l]; [reflexivity|..];
    cbn [NilEmpty.string_of_uint uint_value]; exact (Hrest l _).
Qed.

Lemma Number_toString_uint n :
  (0 <= n)%Z ->
  exists d, d <> Decimal.Nil /\ Number_toString n = NilEmpty.string_of_uint d /\
            uint_value 0 d = n.
Proof.
  intros Hn. destruct n as [|p|p]; [|clear Hn|lia].
  - exists (Decimal.D0 Decimal.Nil). done.
  - exists (Pos.to_uint p). pose proof (to_uint_value p) as Hv.
    assert (Pos.to_uint p <> Decimal.Nil) as Hne by (intros E; by rewrite E in Hv).
    split; [done|]. split; [|done].
    unfold Number_toString. cbn [Z.to_int NilZero.string_of_int].
    unfold NilZero.string_of_uint. by destruct (Pos.to_uint p).
Qed.

Lemma parseInt_Number_toString n :
  (0 <= n)%Z -> parseInt (Number_toString n) = Some n.
Proof.
  intros Hn. destruct (Number_toString_uint n Hn) as (d & Hd & -> & <-).
  by apply parseInt_uint.
Qed.

(** *** The lines of a DNSKEY answer *)

Lemma split_uint d rest :
  split " " (NilEmpty.string_of_uint d ++ " " ++ rest)
  = NilEmpty.string_of_uint d :: split " " rest.
Proof.
  induction d; cbn [NilEmpty.string_of_uint]; [reflexivity|..];
    (change (String ?c ?s ++ ?r)%string with (String c (s ++ r));
     cbn [split Ascii.eqb Bool.eqb]; by rewrite IHd).
Qed.

Lemma split_nonempty sep s : split sep s <> [].
Proof.
  destruct s as [|c s]; [done|]. cbn [split].
  destruct (Ascii.eqb c sep); [done|]. by destruct (split sep s).
Qed.

Lemma key_line_fields f p a key :
  (0 <= f)%Z -> (0 <= p)%Z -> (0 <= a)%Z ->
  exists rest,
    split " " (key_line f p a key)
    = Number_toString f :: Number_toString p :: Number_toString a :: rest /\
    rest <> [].
Proof.
  intros Hf Hp Ha. unfold key_line.
  destruct (Number_toString_uint f Hf) as (df & _ & -> & _).
  destruct (Number_toString_uint p Hp) as (dp & _ & -> & _).
  destruct (Number_toString_uint a Ha) as (da & _ & -> & _).
  rewrite !split_uint. eexists. split; [reflexivity|apply split_nonempty].
Qed.

Lemma key_line_checks_known f p a key :
  (0 <= f)%Z -> (0 <= p)%Z -> (0 <= a)%Z ->
  key_line_checks (key_line f p a key) = true
  <-> (f = 256 \/ f = 257)%Z /\ p = 3%Z /\ a ∈ [5; 7; 8; 10; 13; 14; 15; 16]%Z.
Proof.
  intros Hf Hp Ha. unfold key_line_checks.
  destruct (key_line_fields f p a key Hf Hp Ha) as (rest & -> & Hrest).
  cbn [length lookup list_lookup default from_option id Nat.leb].
  rewrite !parseInt_Number_toString by done.
  unfold toContain, toBe. rewrite !andb_true_iff, !bool_decide_eq_true.
  change (fst <$> DNSSEC_ALGORITHMS) with [5; 7; 8; 10; 13; 14; 15; 16]%Z.
  rewrite !elem_of_cons, elem_of_nil.
  split.
  - intros [[Hflags Hproto] Halg]. split; [tauto|]. split; [congruence|done].
  - intros (Hflags & -> & Halg). split; [split; [tauto|done]|done].
Qed.

Lemma key_lines_Passed lines :
  key_lines lines = Passed <-> Forall (fun l => key_line_checks l = true) lines.
Proof.
  induction lines as [|l lines IH]; cbn [key_lines]; [by split|].
  rewrite Forall_cons. destruct (key_line_checks l); [|split; [done|by intros [? _]]].
  rewrite IH. tauto.
Qed.

Lemma key_lines_cases lines : key_lines lines = Passed \/ key_lines lines = Failed.
Proof.
  induction lines as [|l lines IH]; cbn [key_lines]; [by left|].
  destruct (key_line_checks l); [done|by right].
Qed.

Lemma has_char_app c a b : has_char c (a ++ b) = has_char c a || has_char c b.
Proof.
  induction a as [|x a IH]; [done|]. simpl. by rewrite IH, orb_assoc.
Qed.

Lemma has_char_uint d : has_char LF (NilEmpty.string_of_uint d) = false.
Proof. induction d; cbn [NilEmpty.string_of_uint has_char]; done. Qed.

Lemma has_char_Number_toString n :
  (0 <= n)%Z -> has_char LF (Number_toString n) = false.
Proof.
  intros Hn. destruct (Number_toString_uint n Hn) as (d & _ & -> & _).
  apply has_char_uint.
Qed.

Lemma line_of_one_line k : well_formed k -> has_char LF (line_of k) = false.
Proof.
  intros (Hf & Hp & Ha & Hkey). unfold line_of, key_line.
  rewrite !has_char_app, !has_char_Number_toString, Hkey by done. done.
Qed.

Lemma line_of_nonempty k : well_formed k -> exists c s, line_of k = String c s.
Proof.
  intros (Hf & _). unfold line_of, key_line.
  destruct (Number_toString_uint (flags k) Hf) as (d & Hd & -> & _).
  destruct d; [done|..]; cbn [NilEmpty.string_of_uint String.append]; eauto.
Qed.

Lemma split_app sep a rest :
  has_char sep a = false ->
  split sep (a ++ String sep rest) = a :: split sep rest.
Proof.
  induction a as [|x a IH]; simpl.
  - by rewrite Ascii.eqb_refl.
  - intros [Hx Ha]%orb_false_iff. by rewrite Hx, (IH Ha).
Qed.

Lemma split_whole sep a : has_char sep a = false -> split sep a = [a].
Proof.
  induction a as [|x a IH]; cbn [has_char split]; [done|].
  intros [Hx Ha]%orb_false_iff. by rewrite Hx, (IH Ha).
Qed.

Lemma split_concat sep lines :
  lines <> [] -> Forall (fun l => has_char sep l = false) lines ->
  split sep (String.concat (String sep "") lines) = lines.
Proof.
  induction lines as [|l lines IH]; [done|]. intros _ Hall.
  apply Forall_cons in Hall as [Hl Hall].
  destruct lines as [|l' lines]; [by apply split_whole|].
  cbn [String.concat]. change (String sep "" ++ ?r)%string with (String sep r).
  rewrite (split_app _ _ _ Hl). f_equal. by apply IH.
Qed.

Lemma Forall_iff_on {A} (P Q R : A -> Prop) l :
  Forall P l -> (forall x, P x -> (Q x <-> R x)) -> Forall Q l <-> Forall R l.
Proof.
  intros Hl Hiff. induction Hl as [|x l Hx _ IH]; [by split|].
  rewrite !Forall_cons, IH, (Hiff x Hx). done.
Qed.

(** X13. The verdict of the test [DNSKEY has valid algorithm] on an answer
    of key lines [flags protocol algorithm key]: it passes exactly when
    every key has flags 256 or 257, protocol 3 and an algorithm among 5, 7,
    8, 10, 13, 14, 15 and 16, and fails otherwise. *)
Theorem dnskey_test_verdict TEST_DOMAIN text keys :
  TEST_DOMAIN <> "example.com" -> keys <> [] -> Forall well_formed keys ->
  trim text = answer_of keys ->
  (dnskey_algorithm_test TEST_DOMAIN (Stdout text) = Passed <-> Forall accepted keys) /\
  (dnskey_algorithm_test TEST_DOMAIN (Stdout text) = Failed <-> ~ Forall accepted keys).
Proof.
  intros Hdom Hne Hwf Htrim. unfold dnskey_algorithm_test.
  rewrite (proj2 (String.eqb_neq _ _) Hdom). cbn [queryDNSSEC]. rewrite Htrim.
  assert (is_empty (answer_of keys) = false) as ->.
  { unfold answer_of. destruct keys as [|k keys]; [done|].
    apply Forall_cons in Hwf as [Hk _].
    destruct (line_of_nonempty k Hk) as (c & s & Hline).
    rewrite fmap_cons, Hline. cbn [String.concat]. by destruct (line_of <$> keys). }
  unfold answer_of. rewrite split_concat.
  2: { by destruct keys. }
  2: { apply Forall_fmap. eapply Forall_impl; [exact Hwf|]. apply line_of_one_line. }
  assert (key_lines (line_of <$> keys) = Passed <-> Forall accepted keys) as Hiff.
  { rewrite key_lines_Passed, Forall_fmap.
    apply (Forall_iff_on well_formed); [done|].
    intros k (Hf & Hp & Ha & _). by apply key_line_checks_known. }
  split; [done|]. rewrite <- Hiff.
  destruct (key_lines_cases (line_of <$> keys)) as [->| ->]; split; done.
Qed.

(** *** The presence tests *)

Lemma length_positive_nonempty text :
  is_empty text = false -> length_positive text = true.
Proof. by destruct text. Qed.

Lemma is_empty_false text : is_empty text = false <-> text <> "".
Proof. unfold is_empty. by rewrite String.eqb_neq. Qed.

Lemma is_empty_true text : is_empty text = true <-> text = "".
Proof. unfold is_empty. by rewrite String.eqb_eq. Qed.

Ltac witness_holds :=
  match goal with
  | |- _ /\ _ => split; witness_holds
  | |- _ \/ _ => first [left; witness_holds | right; witness_holds]
  | |- exists _ : string, Stdout ?a = Stdout _ /\ _ =>
      exists a; split; [reflexivity|witness_holds]
  | |- _ => first [assumption | reflexivity | done]
  end.

Ltac settle_verdicts :=
  repeat match goal with
         | |- _ /\ _ => split
         | |- _ <-> _ => split
         end;
  first [ done
        | intros _; witness_holds
        | let H := fresh in intros H; decompose [and or ex] H; congruence ].

(** X11. The three presence tests of the DNSSEC suite fail only when [dig]
    cannot be run.  Whatever [dig] writes, the tests DNSKEY record exists,
    RRSIG signatures are present and DNSSEC chain of trust pass or are
    skipped: the [expect] that ends each of them is behind a guard that has
    already skipped the test when it would not hold. *)
Theorem presence_tests_fail_only_when_dig_fails TEST_DOMAIN (dig1 dig2 : Exec) :
  (dnskey_exists_test TEST_DOMAIN dig1 = Failed
   <-> TEST_DOMAIN <> "example.com" /\ dig1 = ExecError) /\
  (rrsig_present_test TEST_DOMAIN dig1 dig2 = Failed
   <-> TEST_DOMAIN <> "example.com" /\
       (dig1 = ExecError \/
        exists a, dig1 = Stdout a /\ includes_RRSIG (trim a) = false /\
                  dig2 = ExecError)) /\
  (ds_record_test TEST_DOMAIN dig1 dig2 = Failed
   <-> TEST_DOMAIN <> "example.com" /\
       (dig1 = ExecError \/
        exists a, dig1 = Stdout a /\ trim a = "" /\ dig2 = ExecError)) /\
  (dnskey_exists_test TEST_DOMAIN dig1 = Passed
   <-> TEST_DOMAIN <> "example.com" /\ exists a, dig1 = Stdout a /\ trim a <> "") /\
  (rrsig_present_test TEST_DOMAIN dig1 dig2 = Passed
   <-> TEST_DOMAIN <> "example.com" /\
       exists a, dig1 = Stdout a /\
         (includes_RRSIG (trim a) = true \/
          exists b, dig2 = Stdout b /\ includes_RRSIG (trim b) = true)) /\
  (ds_record_test TEST_DOMAIN dig1 dig2 = Passed
   <-> TEST_DOMAIN <> "example.com" /\ exists a, dig1 = Stdout a /\ trim a <> "").
Proof.
  unfold dnskey_exists_test, rrsig_present_test, ds_record_test, queryDNSSECFull.
  destruct (String.eqb_spec TEST_DOMAIN "example.com") as [Hdom|Hdom];
    [settle_verdicts|].
  destruct dig1 as [a|], dig2 as [b|]; cbn [queryDNSSEC];
    try (destruct (is_empty (trim a)) eqn:Hempty;
         [apply is_empty_true in Hempty
         |rewrite (length_positive_nonempty _ Hempty);
          apply is_empty_false in Hempty]);
    try destruct (includes_RRSIG (trim a)) eqn:Hia;
    try destruct (includes_RRSIG (trim b)) eqn:Hib;
    cbn [negb]; settle_verdicts.
Qed.

(** *** The expression for IPv4 addresses *)

Lemma prefix_skip n : forall s, (prefix_of n s ++ skip n s)%string = s.
Proof.
  induction n as [|n IH]; intros [|c s]; try done.
  change (String c (prefix_of n s ++ skip n s) = String c s). by rewrite IH.
Qed.

Lemma append_empty s : (s ++ "")%string = s.
Proof.
  induction s as [|c s IH]; [done|].
  change (String c (s ++ "") = String c s). by rewrite IH.
Qed.

Lemma skip_app a rest : skip (String.length a) (a ++ rest) = rest.
Proof. induction a as [|c a IH]; simpl; [by destruct rest|done]. Qed.

Lemma digit_run_prefix s :
  all_decimal (prefix_of (digit_run s) s) = true /\
  String.length (prefix_of (digit_run s) s) = digit_run s.
Proof.
  induction s as [|c s [IH1 IH2]]; simpl; [done|].
  destruct (is_decimal c) eqn:Hc; simpl; [|done]. by rewrite Hc, IH1, IH2.
Qed.

Lemma digit_run_dot a rest :
  all_decimal a = true -> digit_run (a ++ "." ++ rest) = String.length a.
Proof.
  induction a as [|c a IH]; simpl; [done|].
  intros [Hc Ha]%andb_true_iff. by rewrite Hc, (IH Ha).
Qed.

Lemma digit_run_all a : all_decimal a = true -> digit_run a = String.length a.
Proof.
  induction a as [|c a IH]; simpl; [done|].
  intros [Hc Ha]%andb_true_iff. by rewrite Hc, (IH Ha).
Qed.

Lemma within_1_3 r : ((1 <=? r) && (r <=? 3))%nat = true <-> 1 <= r <= 3.
Proof. rewrite andb_true_iff, !Nat.leb_le. done. Qed.

Lemma group_dot_iff s rest :
  group_dot s = Some rest <-> exists a, group_text a /\ s = (a ++ "." ++ rest)%string.
Proof.
  unfold group_dot, group_text. split.
  - destruct (((1 <=? digit_run s) && (digit_run s <=? 3))%nat) eqn:Hr; [|done].
    apply within_1_3 in Hr. destruct (skip (digit_run s) s) as [|c rest'] eqn:Hskip; [done|].
    destruct (Ascii.eqb_spec c ".") as [->|Hc].
    + intros [= ->]. exists (prefix_of (digit_run s) s).
      destruct (digit_run_prefix s) as [Hall Hlen]. rewrite Hlen.
      split; [done|]. rewrite <- (prefix_skip (digit_run s) s) at 1. by rewrite Hskip.
    + intros H. exfalso. revert H.
      destruct c as [[] [] [] [] [] [] [] []]; done.
  - intros (a & [Hall Hlen] & ->). rewrite (digit_run_dot _ _ Hall).
    rewrite (proj2 (within_1_3 _) Hlen), skip_app. done.
Qed.

Lemma group_end_iff s : group_end s = true <-> group_text s.
Proof.
  unfold group_end, group_text. split.
  - intros [Hr Hskip]%andb_true_iff. apply within_1_3 in Hr.
    apply String.eqb_eq in Hskip.
    destruct (digit_run_prefix s) as [Hall Hlen].
    pose proof (prefix_skip (digit_run s) s) as Hs. rewrite Hskip in Hs.
    rewrite append_empty in Hs. rewrite Hs in Hall, Hlen. by rewrite Hlen.
  - intros [Hall Hlen]. rewrite (digit_run_all _ Hall).
    rewrite (proj2 (within_1_3 _) Hlen).
    pose proof (skip_app s "") as Hskip. rewrite append_empty in Hskip.
    by rewrite Hskip.
Qed.

Lemma ipv4Regex_test_iff ip :
  ipv4Regex_test ip = true
  <-> exists a b c d, group_text a /\ group_text b /\ group_text c /\ group_text d /\
                      ip = dotted a b c d.
Proof.
  unfold ipv4Regex_test, dotted. cbn [groups]. split.
  - destruct (group_dot ip) as [r1|] eqn:H1; [|done].
    destruct (group_dot r1) as [r2|] eqn:H2; [|done].
    destruct (group_dot r2) as [r3|] eqn:H3; [|done].
    apply group_dot_iff in H1 as (a & Ha & ->).
    apply group_dot_iff in H2 as (b & Hb & ->).
    apply group_dot_iff in H3 as (c & Hc & ->).
    intros Hd%group_end_iff. by exists a, b, c, r3.
  - intros (a & b & c & d & Ha & Hb & Hc & Hd & ->).
    rewrite (proj2 (group_dot_iff _ _) (ex_intro _ a (conj Ha eq_refl))).
    rewrite (proj2 (group_dot_iff _ _) (ex_intro _ b (conj Hb eq_refl))).
    rewrite (proj2 (group_dot_iff _ _) (ex_intro _ c (conj Hc eq_refl))).
    by apply group_end_iff.
Qed.

Lemma group_text_checked n k :
  group_text_upto n = true -> (0 <= k < Z.of_nat n)%Z -> group_text (Number_toString k).
Proof.
  intros Hall Hk. unfold group_text_upto in Hall. rewrite forallb_forall in Hall.
  specialize (Hall (Z.to_nat k)). rewrite Z2Nat.id in Hall by lia.
  cbv zeta in Hall. unfold group_text.
  rewrite !andb_true_iff, !Nat.leb_le in Hall.
  destruct Hall as [[? ?] ?]; [apply in_seq; lia|done].
Qed.

Lemma group_text_upto_1000 : group_text_upto 1000 = true.
Proof. vm_compute. reflexivity. Qed.

Lemma addresses_match_Passed addresses :
  addresses_match addresses = Passed
  <-> Forall (fun ip => ipv4Regex_test ip = true) addresses.
Proof.
  induction addresses as [|ip l IH]; cbn [addresses_match]; [by split|].
  rewrite Forall_cons. destruct (ipv4Regex_test ip); [|split; [done|by intros [? _]]].
  rewrite IH. tauto.
Qed.

(** X15. What the test [A record returns valid IPv4 format] accepts: an
    address matches the expression exactly when it is four groups of one to
    three decimal digits joined by dots.  So every four numbers below 1000
    printed in decimal match, octets or not; the test passes exactly when
    every address matches, and a rejected lookup skips it for ENODATA and
    ENOTFOUND and fails it otherwise. *)
Theorem ipv4_format_test_accepts :
  (forall ip,
     ipv4Regex_test ip = true
     <-> exists a b c d, group_text a /\ group_text b /\ group_text c /\ group_text d /\
                         ip = dotted a b c d) /\
  (forall o1 o2 o3 o4 : Z,
     (0 <= o1 < 1000)%Z -> (0 <= o2 < 1000)%Z ->
     (0 <= o3 < 1000)%Z -> (0 <= o4 < 1000)%Z ->
     ipv4Regex_test (dotted (Number_toString o1) (Number_toString o2)
                       (Number_toString o3) (Number_toString o4)) = true) /\
  (forall addresses,
     a_record_format_test (Addresses addresses) = Passed
     <-> Forall (fun ip => ipv4Regex_test ip = true) addresses) /\
  (forall error,
     a_record_format_test (Rejected error)
     = if VerifyDns.no_record error then Skipped else Failed).
Proof.
  split; [apply ipv4Regex_test_iff|]. split; [|split; [apply addresses_match_Passed|done]].
  intros o1 o2 o3 o4 H1 H2 H3 H4. apply ipv4Regex_test_iff.
  exists (Number_toString o1), (Number_toString o2),
    (Number_toString o3), (Number_toString o4).
  repeat (split; [by apply (group_text_checked 1000 _ group_text_upto_1000)|]).
  reflexivity.
Qed.

Example out_of_range_octets_match :
  ipv4Regex_test "999.999.999.999" = true /\
  ipv4Regex_test "93.184.216.34" = true /\
  ipv4Regex_test "1.2.3" = false /\
  ipv4Regex_test "1.2.3.4." = false /\
  ipv4Regex_test "1234.1.1.1" = false /\
  ipv4Regex_test "1.2.3.4 " = false.
Proof. vm_compute. repeat split; reflexivity. Qed.

Example unknown_algorithm_fails :
  dnskey_algorithm_test "example.org" (Stdout (Sample.stdout [Sample.ksk; Sample.md5_key]))
  = Failed.
Proof. vm_compute. reflexivity. Qed.

(** A line of fewer than three fields is not looked at. *)
Example short_lines_are_not_checked :
  dnskey_algorithm_test "example.org" (Stdout "no-keys-here") = Passed.
Proof. vm_compute. reflexivity. Qed.

Lemma dnskey_test_verdict_witness :
  "example.org" <> "example.com" /\ Sample.keys <> [] /\
  Forall well_formed Sample.keys /\
  trim (Sample.stdout Sample.keys) = answer_of Sample.keys /\
  Forall accepted Sample.keys /\
  dnskey_algorithm_test "example.org" (Stdout (Sample.stdout Sample.keys)) = Passed.
Proof.
  assert (H1 : "example.org" <> "example.com") by done.
  assert (H2 : Sample.keys <> []) by done.
  assert (H3 : Forall well_formed Sample.keys).
  { repeat (apply List.Forall_cons;
            [unfold well_formed; simpl; repeat split; try lia; vm_compute; reflexivity|]).
    apply List.Forall_nil. }
  assert (H4 : trim (Sample.stdout Sample.keys) = answer_of Sample.keys)
    by (vm_compute; reflexivity).
  assert (H5 : Forall accepted Sample.keys).
  { repeat (apply List.Forall_cons;
            [unfold accepted; simpl; split; [try (by left); by right|];
             split; [reflexivity|]; apply (bool_decide_unpack _); vm_compute; exact I|]).
    apply List.Forall_nil. }
  split; [exact H1|]. split; [exact H2|]. split; [exact H3|]. split; [exact H4|].
  split; [exact H5|].
  exact (proj2 (proj1 (dnskey_test_verdict "example.org" (Sample.stdout Sample.keys)
                         Sample.keys H1 H2 H3 H4)) H5).
Defined.

End SuiteFacts.

(** ** Facts about the date of the expiry test *)

Module ExpiryFacts.
Import Dnssec DnssecSpec DnssecFacts.
Local Open Scope list_scope.
Local Open Scope Z_scope.

(** *** The date of a captured expiration *)

Lemma digit_value_range c : is_digit c -> 0 <= digit_value c <= 9.
Proof.
  unfold is_digit, kind, digit_value. cbv zeta.
  destruct ((48 <=? N_of_ascii c) && (N_of_ascii c <=? 57))%N eqn:H.
  - intros _. apply andb_true_iff in H as [H1 H2].
    apply N.leb_le in H1, H2. lia.
  - by destruct (_ || _ || _)%bool.
Qed.

Lemma days_before_month_range m : 0 <= days_before_month m <= 334.
Proof.
  unfold days_before_month. generalize (Z.to_nat m). intros n.
  do 12 (destruct n as [|n]; [simpl; lia|]). destruct n; simpl; lia.
Qed.

Lemma parseInt_cons c s acc :
  foldl (fun acc c => 10 * acc + digit_value c) acc (c :: s)
  = foldl (fun acc c => 10 * acc + digit_value c) (10 * acc + digit_value c) s.
Proof. done. Qed.

Local Close Scope Z_scope.

Lemma run_take k n : forall l,
  run k l = n -> n <= length l /\ Forall (fun c => c = k) (take n l).
Proof.
  induction n as [|n IH]; intros l Hrun.
  - split; [lia|]. rewrite take_0. constructor.
  - destruct l as [|c l]; [done|]. cbn [run] in Hrun.
    destruct (decide (c = k)) as [->|]; [|done].
    injection Hrun as Hrun. destruct (IH l Hrun) as [Hlen Hall].
    split; [simpl; lia|]. cbn [take]. by constructor.
Qed.

Lemma exec_from_Some l : forall i j sp,
  exec_from i l = Some (j, sp) ->
  exists d, j = i + d /\ match_here (drop d l) = Some sp.
Proof.
  induction l as [|c l IH]; intros i j sp; cbn [exec_from].
  - destruct (match_here []) as [sp'|] eqn:Hm; [|done].
    intros [= <- <-]. exists 0. split; [lia|done].
  - destruct (match_here (c :: l)) as [sp'|] eqn:Hm.
    + intros [= <- <-]. exists 0. split; [lia|done].
    + intros (d & -> & Hd)%IH. exists (S d). split; [lia|done].
Qed.

Lemma match_here_digits l sp : match_here l = Some sp -> run Digit l = 14.
Proof.
  unfold match_here. cbv zeta. case_decide as H; [|done]. intros _. apply H.
Qed.

Lemma capture1_digits text m :
  regex_match text = Some m ->
  length (capture1 m) = 14 /\ Forall is_digit (capture1 m).
Proof.
  intros Hm. destruct (regex_match_Some _ _ Hm) as (Hexec & -> & _).
  apply exec_from_Some in Hexec as (d & Hd & Hhere). simpl in Hd. rewrite Hd.
  apply match_here_digits, run_take in Hhere as [Hlen Hall].
  rewrite length_drop, length_fmap in Hlen.
  unfold slice. replace (d + 14 - d) with 14 by lia.
  split; [rewrite length_take, length_drop; lia|].
  rewrite <- fmap_drop, <- fmap_take in Hall.
  apply Forall_fmap in Hall. exact Hall.
Qed.

Local Open Scope Z_scope.

Section Host.
Context (LocalTZA : Z -> Z).

Lemma expDate_digits (expiration : list ascii) :
  length expiration = 14%nat -> Forall is_digit expiration ->
  (forall t, Z.abs (LocalTZA t) <= msPerDay) ->
  exists t, expDate LocalTZA expiration = Some t /\
            -60000000000000 <= t <= 260000000000000.
Proof.
  intros Hlen Hdigits Hzone.
  do 14 (destruct expiration as [|? expiration]; [done|]).
  destruct expiration; [|done]. clear Hlen.
  repeat match goal with
         | H : Forall is_digit (_ :: _) |- _ =>
             apply Forall_cons in H as [?%digit_value_range H]
         end.
  clear Hdigits.
  unfold expDate, Date_getTime, slice. cbn [drop take Nat.sub].
  unfold parseInt. cbn [foldl].
  match goal with
  | |- context [TimeClip (?x - LocalTZA ?x)] =>
      set (t := x); pose proof (Hzone t) as Ht
  end.
  assert (-59100000000000 <= t <= 253700000000000) as Hbound.
  { subst t. unfold MakeDate, MakeDay, MakeTime, DayFromYear, msPerDay.
    match goal with
    | |- context [days_before_month ?m] =>
        pose proof (days_before_month_range m) as Hm;
        generalize dependent (days_before_month m)
    end.
    intros dbm Hm.
    match goal with
    | |- context [if ?b then 1 else 0] => destruct b
    end;
    match goal with
    | |- context [(0 <=? ?y) && (?y <=? 99)] =>
        destruct (Z.leb_spec 0 y), (Z.leb_spec y 99)
    end; cbn [andb]; clear Ht; Z.div_mod_to_equations; lia. }
  exists (t - LocalTZA t). unfold TimeClip, msPerDay in *.
  destruct (Z.leb_spec (Z.abs (t - LocalTZA t)) 8640000000000000); [split; [done|lia]|lia].
Qed.

(** X12. The expiration the expiry test captures is always a date.  When
    the expression matches, its first capture is fourteen decimal digits,
    and for a host whose offset from UTC is within a day the date built from
    it is a number, never NaN, also when the digits are no calendar date (a
    month of 13 or 00, a day of 99): the test then passes exactly when now
    is before that time value. *)
Theorem captured_expiration_is_a_date TEST_DOMAIN text m :
  regex_match text = Some m ->
  (forall t, Z.abs (LocalTZA t) <= msPerDay) ->
  length (capture1 m) = 14%nat /\ Forall is_digit (capture1 m) /\
  exists t, expDate LocalTZA (capture1 m) = Some t /\
            -60000000000000 <= t <= 260000000000000 /\
            (TEST_DOMAIN <> "example.com" -> includes RRSIG text = true ->
             forall now,
               signatures_valid_test LocalTZA TEST_DOMAIN (string_of_list_ascii text) now
               = if now <? t then Passed else Failed).
Proof.
  intros Hm Hzone. destruct (capture1_digits _ _ Hm) as [Hlen Hdigits].
  split; [done|]. split; [done|].
  destruct (expDate_digits _ Hlen Hdigits Hzone) as (t & Ht & Hrange).
  exists t. split; [done|]. split; [done|].
  intros Hdom Hincl now. unfold signatures_valid_test.
  rewrite list_ascii_of_string_of_list_ascii. fold RRSIG. rewrite Hincl, Hm.
  rewrite (proj2 (String.eqb_neq _ _) Hdom).
  lazy beta iota zeta delta [negb]. rewrite Ht. reflexivity.
Qed.

End Host.

Lemma captured_expiration_is_a_date_witness :
  regex_match Sample.answer = Some Sample.found /\
  (forall t, Z.abs (Sample.utc t) <= msPerDay) /\
  length (capture1 Sample.found) = 14%nat /\
  exists t, expDate Sample.utc (capture1 Sample.found) = Some t.
Proof.
  assert (H1 : regex_match Sample.answer = Some Sample.found)
    by (vm_compute; reflexivity).
  assert (H2 : forall t, Z.abs (Sample.utc t) <= msPerDay)
    by (intros t; vm_compute; discriminate).
  split; [exact H1|]. split; [exact H2|].
  destruct (captured_expiration_is_a_date Sample.utc "example.org" Sample.answer
              Sample.found H1 H2) as (Hlen & _ & t & Ht & _).
  split; [exact Hlen|]. exists t. exact Ht.
Defined.

(** *** The expiration as a calendar date *)

Lemma leap_cases y :
  InLeapYear y = true /\ (y mod 4 = 0 /\ (y mod 100 <> 0 \/ y mod 400 = 0)) \/
  InLeapYear y = false /\ (y mod 4 <> 0 \/ (y mod 100 = 0 /\ y mod 400 <> 0)).
Proof.
  unfold InLeapYear.
  destruct (Z.eqb_spec (y mod 4) 0), (Z.eqb_spec (y mod 100) 0),
    (Z.eqb_spec (y mod 400) 0); simpl;
    first [left; split; [reflexivity|Z.div_mod_to_equations; lia]
          | right; split; [reflexivity|Z.div_mod_to_equations; lia]].
Qed.

Lemma MakeDay_civil m y d :
  1 <= m <= 12 -> MakeDay y (m - 1) d = days_from_civil y m d.
Proof.
  intros Hm.
  assert (m ∈ [1; 2; 3; 4; 5; 6; 7; 8; 9; 10; 11; 12]) as Hin.
  { rewrite !elem_of_cons. lia. }
  clear Hm. unfold MakeDay, days_from_civil, DayFromYear, days_before_month.
  repeat (apply elem_of_cons in Hin as [->|Hin]);
    [..|by apply elem_of_nil in Hin];
    cbv zeta;
    match goal with
    | |- context [(?a - 1) / 12] =>
        change ((a - 1) / 12) with 0; change ((a - 1) mod 12) with (a - 1);
        let v := eval vm_compute in (nth (Z.to_nat (a - 1))
                   [0; 31; 59; 90; 120; 151; 181; 212; 243; 273; 304; 334] 0) in
        change (nth (Z.to_nat (a - 1))
                  [0; 31; 59; 90; 120; 151; 181; 212; 243; 273; 304; 334] 0) with v;
        let w := eval vm_compute in ((153 * ((a + 9) mod 12) + 2) / 5) in
        change ((153 * ((a + 9) mod 12) + 2) / 5) with w;
        let b := eval vm_compute in (a <=? 2) in change (a <=? 2) with b;
        let c := eval vm_compute in (2 <=? a - 1) in change (2 <=? a - 1) with c
    end;
    rewrite !Z.add_0_r;
    destruct (leap_cases y) as [[-> Hl]|[-> Hl]]; cbn [andb];
    Z.div_mod_to_equations; lia.
Qed.

Lemma digit_place_value c : is_digit c -> digit_place c = digit_value c.
Proof.
  unfold is_digit. intros Hc.
  destruct c as [[] [] [] [] [] [] [] []]; try done.
Qed.

Lemma timestamp_fields (e : list ascii) :
  length e = 14%nat -> Forall is_digit e ->
  Dnssec.parseInt (slice 0 4 e) = year (timestamp e) /\
  Dnssec.parseInt (slice 4 6 e) = month (timestamp e) /\
  Dnssec.parseInt (slice 6 8 e) = day (timestamp e) /\
  Dnssec.parseInt (slice 8 10 e) = hour (timestamp e) /\
  Dnssec.parseInt (slice 10 12 e) = minute (timestamp e) /\
  Dnssec.parseInt (slice 12 14 e) = second (timestamp e).
Proof.
  intros Hlen Hdigits.
  do 14 (destruct e as [|? e]; [done|]). destruct e; [|done]. clear Hlen.
  repeat match goal with
         | H : Forall is_digit (_ :: _) |- _ =>
             apply Forall_cons in H as [?%digit_place_value H]
         end.
  clear Hdigits.
  unfold timestamp, slice, Dnssec.parseInt.
  cbn [drop take Nat.sub foldl year month day hour minute second decimal length].
  repeat match goal with H : digit_place _ = _ |- _ => rewrite H; clear H end.
  change (10 ^ Z.of_nat 3) with 1000. change (10 ^ Z.of_nat 2) with 100.
  change (10 ^ Z.of_nat 1) with 10. change (10 ^ Z.of_nat 0) with 1.
  repeat split; lia.
Qed.

Section HostZone.
Context (LocalTZA : Z -> Z).

(** The time value of a date of the host's zone, for a year that is not
    read as one of the twentieth century. *)
Lemma Date_getTime_civil (y mo d h mi s : Z) :
  100 <= y -> 1 <= mo <= 12 ->
  let spelled :=
    utc_reading {| year := y; month := mo; day := d;
                   hour := h; minute := mi; second := s |} in
  Date_getTime LocalTZA y (mo - 1) d h mi s
  = TimeClip (spelled - LocalTZA spelled).
Proof.
  intros Hy Hmo spelled. unfold Date_getTime.
  replace ((0 <=? y) && (y <=? 99))%Z with false
    by (symmetry; apply andb_false_iff; right; apply Z.leb_gt; lia).
  rewrite (MakeDay_civil mo y d Hmo).
  replace (MakeDate (days_from_civil y mo d) (MakeTime h mi s 0)) with spelled
    by (unfold spelled, MakeDate, MakeTime, utc_reading, msPerDay; cbn [year month day hour minute second]; lia).
  reflexivity.
Qed.

(** The date built from fourteen digits is the calendar date they spell,
    taken as a date and time of the host's zone. *)
Lemma expDate_reading (e : list ascii) :
  length e = 14%nat -> Forall is_digit e ->
  (forall t, Z.abs (LocalTZA t) <= msPerDay) ->
  100 <= year (timestamp e) -> 1 <= month (timestamp e) <= 12 ->
  expDate LocalTZA e
  = Some (utc_reading (timestamp e) - LocalTZA (utc_reading (timestamp e))).
Proof.
  intros Hlen Hdigits Hzone Hyear Hmonth.
  destruct (expDate_digits LocalTZA e Hlen Hdigits Hzone) as (t & Ht & _).
  destruct (timestamp_fields e Hlen Hdigits) as (Hy & Hmo & Hd & Hh & Hmi & Hs).
  assert (expDate LocalTZA e
          = TimeClip (utc_reading (timestamp e)
                      - LocalTZA (utc_reading (timestamp e)))) as Heq.
  { unfold expDate. rewrite Hy, Hmo, Hd, Hh, Hmi, Hs.
    rewrite (Date_getTime_civil _ _ _ _ _ _ Hyear Hmonth).
    by destruct (timestamp e). }
  rewrite Heq in Ht |- *. clear Heq. revert Ht. unfold TimeClip.
  generalize (utc_reading (timestamp e) - LocalTZA (utc_reading (timestamp e))).
  intros x. destruct (Z.abs x <=? 8640000000000000); [reflexivity|discriminate].
Qed.

(** C8. The test takes the first capture of the leftmost match of the
    expression, fourteen digits, as the expiration.  The second capture,
    the inception, is not looked at: with any other fourteen digits in its
    place the match, the expiration and the result of the test are what
    they were.  When the test is not skipped it passes exactly when now is
    earlier than the date built from the expiration, and that date is the
    calendar date and time the digits spell (year, month, day, hour, minute,
    second), taken as it stands for a date of the zone of the host: the
    time value is the one of that date at UTC less the offset of the host,
    so on a host at UTC it is the UTC date, and elsewhere nothing in the
    test makes up for the offset.  This is for an expiration whose year is
    past 99 and whose month is one of the twelve, on a host whose offset is
    at most a day. *)
Theorem expiry_check_reads_expiration_only
    TEST_DOMAIN (a inc inc' b : list ascii) m now :
  regex_match (a ++ inc ++ b) = Some m ->
  length a = (index m + 14 + gap1 (spans m))%nat ->
  length inc = 14%nat -> length inc' = 14%nat ->
  Forall is_digit inc -> Forall is_digit inc' ->
  let expiration := timestamp (capture1 m) in
  let spelled := utc_reading expiration in
  let expires := spelled - LocalTZA spelled in
  (capture1 m = slice (index m) (index m + 14) (a ++ inc ++ b) /\
   length (capture1 m) = 14%nat /\ Forall is_digit (capture1 m)) /\
  capture2 m = inc /\
  (exists m', regex_match (a ++ inc' ++ b) = Some m' /\
              capture2 m' = inc' /\ capture1 m' = capture1 m) /\
  signatures_valid_test LocalTZA TEST_DOMAIN (string_of_list_ascii (a ++ inc' ++ b)) now
  = signatures_valid_test LocalTZA TEST_DOMAIN (string_of_list_ascii (a ++ inc ++ b)) now /\
  (TEST_DOMAIN <> "example.com" -> includes RRSIG (a ++ inc ++ b) = true ->
   (forall t, Z.abs (LocalTZA t) <= msPerDay) ->
   100 <= year expiration -> 1 <= month expiration <= 12 ->
   expDate LocalTZA (capture1 m) = Some expires /\
   signatures_valid_test LocalTZA TEST_DOMAIN (string_of_list_ascii (a ++ inc ++ b)) now
   = (if now <? expires then Passed else Failed) /\
   signatures_valid_test LocalTZA TEST_DOMAIN (string_of_list_ascii (a ++ inc' ++ b)) now
   = (if now <? expires then Passed else Failed)).
Proof.
  intros Hm Ha Hinc Hinc' Hd Hd' expiration spelled expires.
  destruct (regex_match_Some _ _ Hm) as (Hexec & Hc1 & Hc2).
  destruct (capture1_digits _ _ Hm) as [Hlen Hdigits].
  assert (Hrel : Forall2 same_class (a ++ inc ++ b) (a ++ inc' ++ b)).
  { apply same_class_replace; [lia|done|done]. }
  assert (Hc2' : capture2 m = inc).
  { rewrite Hc2, <- Ha, <- Hinc. apply slice_middle. }
  assert (Hc1' : capture1 m = slice (index m) (index m + 14) a).
  { rewrite Hc1. apply slice_app_l. lia. }
  assert (Hm' : regex_match (a ++ inc' ++ b)
                = Some {| index := index m; spans := spans m;
                          capture1 := capture1 m; capture2 := inc';
                          capture3 := slice (index m + 14 + gap1 (spans m) + 14
                                             + gap2 (spans m))
                                        (index m + 14 + gap1 (spans m) + 14
                                         + gap2 (spans m) + tagLength (spans m))
                                        (a ++ inc' ++ b) |}).
  { unfold regex_match. rewrite <- (same_class_kinds _ _ Hrel), Hexec.
    f_equal. f_equal.
    - rewrite Hc1'. apply slice_app_l. lia.
    - rewrite <- Ha, <- Hinc'. apply slice_middle. }
  assert (Hsame :
    signatures_valid_test LocalTZA TEST_DOMAIN (string_of_list_ascii (a ++ inc' ++ b)) now
    = signatures_valid_test LocalTZA TEST_DOMAIN (string_of_list_ascii (a ++ inc ++ b)) now).
  { unfold signatures_valid_test. rewrite !list_ascii_of_string_of_list_ascii.
    fold RRSIG. rewrite <- (includes_same_class RRSIG _ _ RRSIG_no_digit Hrel).
    by rewrite Hm, Hm'. }
  split; [done|]. split; [done|]. split; [eauto|]. split; [done|].
  intros Hdom Hincl Hzone Hyear Hmonth.
  pose proof (expDate_reading (capture1 m) Hlen Hdigits Hzone Hyear Hmonth) as Hexp.
  fold expiration in Hexp. fold spelled in Hexp. fold expires in Hexp.
  assert (Htest :
    signatures_valid_test LocalTZA TEST_DOMAIN (string_of_list_ascii (a ++ inc ++ b)) now
    = (if now <? expires then Passed else Failed)).
  { unfold signatures_valid_test.
    rewrite list_ascii_of_string_of_list_ascii. fold RRSIG. rewrite Hincl, Hm.
    rewrite (proj2 (String.eqb_neq _ _) Hdom).
    lazy beta iota zeta delta [negb]. rewrite Hexp. reflexivity. }
  split; [done|]. split; [done|]. by rewrite Hsame.
Qed.

End HostZone.

Example civil_days :
  days_from_civil 1970 1 1 = 0 /\ days_from_civil 2000 3 1 = 11017 /\
  days_from_civil 2030 2 1 = 21946 /\ days_from_civil 1969 12 31 = -1.
Proof. vm_compute. repeat split; reflexivity. Qed.

Lemma expiry_check_reads_expiration_only_witness :
  regex_match Sample.answer = Some Sample.found /\
  timestamp (capture1 Sample.found)
  = {| year := 2030; month := 2; day := 1; hour := 0; minute := 0; second := 0 |} /\
  utc_reading (timestamp (capture1 Sample.found)) = 1896134400000 /\
  expDate Sample.east2 (capture1 Sample.found) = Some (1896134400000 - 7200000) /\
  signatures_valid_test Sample.east2 "example.org"
    (string_of_list_ascii Sample.answer) Sample.now = Failed /\
  signatures_valid_test Sample.east2 "example.org"
    (string_of_list_ascii
       (Sample.before_inception ++ Sample.late_inception ++ Sample.after_inception))
    Sample.now = Failed /\
  signatures_valid_test Sample.utc "example.org"
    (string_of_list_ascii Sample.answer) Sample.now = Passed.
Proof.
  assert (H1 : regex_match Sample.answer = Some Sample.found)
    by (vm_compute; reflexivity).
  assert (Hd : forall l, l = Sample.inception \/ l = Sample.late_inception ->
                         Forall is_digit l).
  { intros l [->| ->];
      repeat (apply List.Forall_cons; [vm_compute; reflexivity|]);
      apply List.Forall_nil. }
  assert (Hz : forall z, z = Sample.east2 \/ z = Sample.utc ->
                         forall t, Z.abs (z t) <= msPerDay).
  { intros z [->| ->] t; vm_compute; discriminate. }
  split; [exact H1|]. split; [vm_compute; reflexivity|].
  split; [vm_compute; reflexivity|].
  destruct (expiry_check_reads_expiration_only Sample.east2 "example.org"
              Sample.before_inception Sample.inception Sample.late_inception
              Sample.after_inception Sample.found Sample.now)
    as (_ & _ & _ & _ & Heast);
    [exact H1|reflexivity|reflexivity|reflexivity
    |apply Hd; by left|apply Hd; by right|].
  destruct Heast as (Hexp & Htest & Htest');
    [done|vm_compute; reflexivity|apply Hz; by left|vm_compute; discriminate
    |vm_compute; split; discriminate|].
  destruct (expiry_check_reads_expiration_only Sample.utc "example.org"
              Sample.before_inception Sample.inception Sample.late_inception
              Sample.after_inception Sample.found Sample.now)
    as (_ & _ & _ & _ & Hutc);
    [exact H1|reflexivity|reflexivity|reflexivity
    |apply Hd; by left|apply Hd; by right|].
  destruct Hutc as (_ & Hutc & _);
    [done|vm_compute; reflexivity|apply Hz; by right|vm_compute; discriminate
    |vm_compute; split; discriminate|].
  split; [exact Hexp|]. split; [exact Htest|]. split; [exact Htest'|exact Hutc].
Defined.

End ExpiryFacts.
